(** * Memeooorr behaviours: action decision and execution pipeline

    A shallow embedding of the round behaviours of
    [packages/dvilela/skills/memeooorr_abci/behaviour_classes/chain.py] and
    [.../twitter.py].  Generators that [yield from] their collaborators are
    written in a state-and-exception monad over the key-value store and the
    log of external calls; Python values that travel through JSON are the
    inductive type [pyval]. *)

From Stdlib Require Import ZArith Ascii String List Lia Permutation Sorted.
From stdpp Require Import base option list strings gmap pretty.

Set Warnings "-register-all".
Open Scope string_scope.
Open Scope Z_scope.

(** ** Python values *)

(** The values that JSON documents, keyword arguments and contract bodies
    carry.  Strings are sequences of one-byte characters.  A float is kept as
    the number lexeme it was read from: its arithmetic is not interpreted here
    but taken from the environment (see [Env]). *)
Inductive pyval : Type :=
| PNone
| PBool (b : bool)
| PInt (z : Z)
| PFloat (lexeme : string)
| PStr (s : string)
| PBytes (b : list Byte.byte)
| PList (items : list pyval)
| PDict (entries : list (string * pyval)).

(** The exceptions the modelled code can raise. *)
Inductive exn : Type :=
| AttributeError | TypeError | KeyError | ValueError | IndexError
| OverflowError | JSONDecodeError.

Inductive result (A : Type) : Type :=
| Ok (a : A)
| Raise (e : exn).
Arguments Ok {A} a.
Arguments Raise {A} e.

(** A [dict] keeps insertion order; assigning to an existing key replaces the
    value in place. *)
Fixpoint dict_get {V : Type} (k : string) (d : list (string * V)) : option V :=
  match d with
  | [] => None
  | (k', v) :: d' => if String.eqb k k' then Some v else dict_get k d'
  end.

Fixpoint dict_set {V : Type} (k : string) (v : V) (d : list (string * V))
  : list (string * V) :=
  match d with
  | [] => [(k, v)]
  | (k', v') :: d' =>
      if String.eqb k k' then (k, v) :: d' else (k', v') :: dict_set k v d'
  end.

Definition dict_keys {V : Type} (d : list (string * V)) : list string :=
  map fst d.

Definition dict_has {V : Type} (k : string) (d : list (string * V)) : bool :=
  match dict_get k d with Some _ => true | None => false end.

(** ** Regular expressions: the fragment of [re] the patterns use *)

Inductive rx_class : Type := RxAny | RxLit (c : ascii).
Inductive rx_quant : Type := QOne | QOpt | QStar.
Inductive rx_item : Type :=
| RxAtom (cls : rx_class) (q : rx_quant)
| RxOpen
| RxClose.

Inductive rx_token : Type :=
| TLit (c : ascii) | TAny | TOpen | TClose | TQuest | TStar.

(** Lexing of a pattern: a backslash makes the next character literal, a
    brace that opens no counted repetition is a literal brace. *)
Fixpoint rx_tokens (p : string) : list rx_token :=
  match p with
  | EmptyString => []
  | String "\" (String c p') => TLit c :: rx_tokens p'
  | String "." p' => TAny :: rx_tokens p'
  | String "(" p' => TOpen :: rx_tokens p'
  | String ")" p' => TClose :: rx_tokens p'
  | String "?" p' => TQuest :: rx_tokens p'
  | String "*" p' => TStar :: rx_tokens p'
  | String c p' => TLit c :: rx_tokens p'
  end.

Definition rx_atom_of (t : rx_token) : option rx_class :=
  match t with
  | TLit c => Some (RxLit c)
  | TAny => Some RxAny
  | _ => None
  end.

Fixpoint rx_items (ts : list rx_token) : list rx_item :=
  match ts with
  | [] => []
  | t :: ts1 =>
      match rx_atom_of t with
      | Some cls =>
          match ts1 with
          | TQuest :: ts2 => RxAtom cls QOpt :: rx_items ts2
          | TStar :: ts2 => RxAtom cls QStar :: rx_items ts2
          | _ => RxAtom cls QOne :: rx_items ts1
          end
      | None =>
          match t with
          | TOpen => RxOpen :: rx_items ts1
          | TClose => RxClose :: rx_items ts1
          | _ => rx_items ts1
          end
      end
  end.

Definition re_compile (p : string) : list rx_item := rx_items (rx_tokens p).

(** With [re.DOTALL] the dot matches every character, the newline too. *)
Definition cls_matches (cls : rx_class) (c : ascii) : bool :=
  match cls with
  | RxAny => true
  | RxLit x => Ascii.eqb x c
  end.

(** Backtracking match of the items at the head of [s]; quantifiers are
    greedy.  The pair carries the rest of the subject at the opening and at
    the closing parenthesis of the group. *)
Fixpoint rx_match (re : list rx_item) (s : string) (g : string * string)
  : option (string * string) :=
  match re with
  | [] => Some g
  | RxOpen :: re' => rx_match re' s (s, snd g)
  | RxClose :: re' => rx_match re' s (fst g, s)
  | RxAtom cls QOne :: re' =>
      match s with
      | String c s' => if cls_matches cls c then rx_match re' s' g else None
      | EmptyString => None
      end
  | RxAtom cls QOpt :: re' =>
      match s with
      | String c s' =>
          if cls_matches cls c then
            match rx_match re' s' g with
            | Some r => Some r
            | None => rx_match re' s g
            end
          else rx_match re' s g
      | EmptyString => rx_match re' s g
      end
  | RxAtom cls QStar :: re' =>
      (fix star (s : string) : option (string * string) :=
         match s with
         | String c s' =>
             if cls_matches cls c then
               match star s' with
               | Some r => Some r
               | None => rx_match re' s g
               end
             else rx_match re' s g
         | EmptyString => rx_match re' s g
         end) s
  end.

Fixpoint string_take (n : nat) (s : string) : string :=
  match n, s with
  | S n', String c s' => String c (string_take n' s')
  | _, _ => EmptyString
  end.

(** [s[n:]] *)
Fixpoint string_drop (n : nat) (s : string) : string :=
  match n, s with
  | S n', String _ s' => string_drop n' s'
  | _, _ => s
  end.

(** The text of group 1 of a match. *)
Definition rx_group (g : string * string) : string :=
  string_take (String.length (fst g) - String.length (snd g)) (fst g).

(** [re.search(pattern, subject, re.DOTALL)] followed by [.groups()[0]]: the
    leftmost position at which the pattern matches. *)
Fixpoint rx_search (re : list rx_item) (s : string) : option string :=
  match rx_match re s (EmptyString, EmptyString) with
  | Some g => Some (rx_group g)
  | None =>
      match s with
      | EmptyString => None
      | String _ s' => rx_search re s'
      end
  end.

Definition re_search (pattern subject : string) : option string :=
  rx_search (re_compile pattern) subject.

(** ** JSON decoding: [json.loads] *)

Definition dquote : ascii := "034"%char.
Definition backslash : ascii := "092"%char.

(** Concrete JSON texts are written with an apostrophe standing for the
    double quote. *)
Fixpoint dq (s : string) : string :=
  match s with
  | EmptyString => EmptyString
  | String c s' => String (if Ascii.eqb c "'" then dquote else c) (dq s')
  end.

Definition is_json_ws (c : ascii) : bool :=
  Ascii.eqb c " " || Ascii.eqb c "009" || Ascii.eqb c "010" || Ascii.eqb c "013".

Fixpoint skip_ws (s : string) : string :=
  match s with
  | String c s' => if is_json_ws c then skip_ws s' else s
  | EmptyString => s
  end.

Definition is_digit (c : ascii) : bool :=
  (48 <=? Z.of_N (N_of_ascii c)) && (Z.of_N (N_of_ascii c) <=? 57).

Definition digit_val (c : ascii) : Z := Z.of_N (N_of_ascii c) - 48.

(** The longest prefix of digits, and what follows it. *)
Fixpoint span_digits (s : string) : string * string :=
  match s with
  | String c s' =>
      if is_digit c then
        let (ds, rest) := span_digits s' in (String c ds, rest)
      else (EmptyString, s)
  | EmptyString => (EmptyString, EmptyString)
  end.

Fixpoint digits_val (acc : Z) (ds : string) : Z :=
  match ds with
  | String c ds' => digits_val (10 * acc + digit_val c) ds'
  | EmptyString => acc
  end.

Definition hex_val (c : ascii) : option Z :=
  let n := Z.of_N (N_of_ascii c) in
  if (48 <=? n) && (n <=? 57) then Some (n - 48)
  else if (65 <=? n) && (n <=? 70) then Some (n - 55)
  else if (97 <=? n) && (n <=? 102) then Some (n - 87)
  else None.

(** The number grammar of the decoder: an optional minus sign, an integer
    part that is a single zero or starts with a non-zero digit, then an
    optional fraction and an optional exponent, each present only when it
    has at least one digit.  An integer lexeme decodes to an [int], one with
    a fraction or an exponent to a [float]. *)
Definition scan_int_part (s : string) : option (string * string) :=
  match s with
  | String "0" s' => Some ("0", s')
  | String c _ =>
      if is_digit c then Some (span_digits s) else None
  | EmptyString => None
  end.

Definition scan_frac_part (s : string) : string * string :=
  match s with
  | String "." s' =>
      match span_digits s' with
      | (EmptyString, _) => (EmptyString, s)
      | (ds, rest) => (String "." ds, rest)
      end
  | _ => (EmptyString, s)
  end.

Definition scan_exp_part (s : string) : string * string :=
  match s with
  | String e s' =>
      if Ascii.eqb e "e" || Ascii.eqb e "E" then
        let (sign, s'') :=
          match s' with
          | String c t =>
              if Ascii.eqb c "-" || Ascii.eqb c "+"
              then (String c EmptyString, t) else (EmptyString, s')
          | EmptyString => (EmptyString, s')
          end in
        match span_digits s'' with
        | (EmptyString, _) => (EmptyString, s)
        | (ds, rest) => (String e (sign ++ ds), rest)
        end
      else (EmptyString, s)
  | EmptyString => (EmptyString, s)
  end.

Definition scan_number (s : string) : option (pyval * string) :=
  let (neg, s1) :=
    match s with
    | String "-" t => (true, t)
    | _ => (false, s)
    end in
  match scan_int_part s1 with
  | None => None
  | Some (ip, s2) =>
      let (fp, s3) := scan_frac_part s2 in
      let (ep, s4) := scan_exp_part s3 in
      match fp, ep with
      | EmptyString, EmptyString =>
          let v := digits_val 0 ip in
          Some (PInt (if neg then - v else v), s4)
      | _, _ =>
          Some (PFloat ((if neg then "-" else "") ++ ip ++ fp ++ ep), s4)
      end
  end.

Fixpoint strip_prefix (p s : string) : option string :=
  match p, s with
  | EmptyString, _ => Some s
  | String a p', String b s' =>
      if Ascii.eqb a b then strip_prefix p' s' else None
  | _, EmptyString => None
  end.

(** Four hexadecimal digits of a unicode escape.  Strings hold one-byte
    characters, so an escape above 255 has no image and is refused. *)
Definition scan_u_escape (s : string) : option (ascii * string) :=
  match s with
  | String a (String b (String c (String d rest))) =>
      match hex_val a, hex_val b, hex_val c, hex_val d with
      | Some x, Some y, Some z, Some w =>
          let n := ((x * 16 + y) * 16 + z) * 16 + w in
          if n <? 256 then Some (ascii_of_N (Z.to_N n), rest) else None
      | _, _, _, _ => None
      end
  | _ => None
  end.

(** The body of a string literal, after its opening quote (strict mode: a
    raw control character is an error). *)
Fixpoint scanstring (s : string) : option (string * string) :=
  match s with
  | EmptyString => None
  | String c s' =>
      if Ascii.eqb c dquote then Some (EmptyString, s')
      else if Ascii.eqb c backslash then
        match s' with
        | String e s'' =>
            let plain (x : ascii) :=
              match scanstring s'' with
              | Some (str, rest) => Some (String x str, rest)
              | None => None
              end in
            if Ascii.eqb e dquote then plain dquote
            else if Ascii.eqb e backslash then plain backslash
            else if Ascii.eqb e "/" then plain "/"%char
            else if Ascii.eqb e "b" then plain "008"%char
            else if Ascii.eqb e "f" then plain "012"%char
            else if Ascii.eqb e "n" then plain "010"%char
            else if Ascii.eqb e "r" then plain "013"%char
            else if Ascii.eqb e "t" then plain "009"%char
            else if Ascii.eqb e "u" then
              match s'' with
              | String a (String b (String c1 (String d rest))) =>
                  match scan_u_escape s'' with
                  | Some (x, _) =>
                      match scanstring rest with
                      | Some (str, rest') => Some (String x str, rest')
                      | None => None
                      end
                  | None => None
                  end
              | _ => None
              end
            else None
        | EmptyString => None
        end
      else if Z.of_N (N_of_ascii c) <? 32 then None
      else
        match scanstring s' with
        | Some (str, rest) => Some (String c str, rest)
        | None => None
        end
  end.

(** One JSON value at the head of [s], with the text after it.  The fuel
    bounds the depth of the calls; of any two successive calls one consumes
    a character, so twice the length of the text is enough. *)
Fixpoint scan_once (fuel : nat) (s : string) : option (pyval * string) :=
  match fuel with
  | O => None
  | S fuel' =>
      match s with
      | EmptyString => None
      | String c s' =>
          if Ascii.eqb c dquote then
            match scanstring s' with
            | Some (str, rest) => Some (PStr str, rest)
            | None => None
            end
          else if Ascii.eqb c "{" then
            match skip_ws s' with
            | String c1 s1 =>
                if Ascii.eqb c1 "}" then Some (PDict [], s1)
                else if Ascii.eqb c1 dquote then
                  match scan_members fuel' [] s1 with
                  | Some (d, rest) => Some (PDict d, rest)
                  | None => None
                  end
                else None
            | EmptyString => None
            end
          else if Ascii.eqb c "[" then
            match skip_ws s' with
            | String c1 s1 =>
                if Ascii.eqb c1 "]" then Some (PList [], s1)
                else
                  match scan_elements fuel' [] (String c1 s1) with
                  | Some (l, rest) => Some (PList l, rest)
                  | None => None
                  end
            | EmptyString => None
            end
          else
            match strip_prefix "null" s, strip_prefix "true" s,
                  strip_prefix "false" s with
            | Some rest, _, _ => Some (PNone, rest)
            | _, Some rest, _ => Some (PBool true, rest)
            | _, _, Some rest => Some (PBool false, rest)
            | None, None, None =>
                match scan_number s with
                | Some r => Some r
                | None =>
                    match strip_prefix "NaN" s, strip_prefix "Infinity" s,
                          strip_prefix "-Infinity" s with
                    | Some rest, _, _ => Some (PFloat "NaN", rest)
                    | _, Some rest, _ => Some (PFloat "Infinity", rest)
                    | _, _, Some rest => Some (PFloat "-Infinity", rest)
                    | None, None, None => None
                    end
                end
            end
      end
  end

(** The members of an object, from just after the opening quote of a key. *)
with scan_members (fuel : nat) (acc : list (string * pyval)) (s : string)
  : option (list (string * pyval) * string) :=
  match fuel with
  | O => None
  | S fuel' =>
      match scanstring s with
      | None => None
      | Some (key, s1) =>
          match skip_ws s1 with
          | String ":" s2 =>
              match scan_once fuel' (skip_ws s2) with
              | None => None
              | Some (v, s3) =>
                  let acc' := dict_set key v acc in
                  match skip_ws s3 with
                  | String c s4 =>
                      if Ascii.eqb c "}" then Some (acc', s4)
                      else if Ascii.eqb c "," then
                        match skip_ws s4 with
                        | String c5 s5 =>
                            if Ascii.eqb c5 dquote
                            then scan_members fuel' acc' s5 else None
                        | EmptyString => None
                        end
                      else None
                  | EmptyString => None
                  end
              end
          | _ => None
          end
      end
  end

(** The elements of an array, from the first character of an element. *)
with scan_elements (fuel : nat) (acc : list pyval) (s : string)
  : option (list pyval * string) :=
  match fuel with
  | O => None
  | S fuel' =>
      match scan_once fuel' s with
      | None => None
      | Some (v, s1) =>
          match skip_ws s1 with
          | String c s2 =>
              if Ascii.eqb c "]" then Some ((acc ++ [v])%list, s2)
              else if Ascii.eqb c "," then
                scan_elements fuel' (acc ++ [v])%list (skip_ws s2)
              else None
          | EmptyString => None
          end
      end
  end.

(** [json.loads]: one value, white space allowed around it, nothing else.
    [None] stands for [JSONDecodeError]. *)
Definition json_loads (s : string) : option pyval :=
  match scan_once (2 * String.length s + 2) (skip_ws s) with
  | Some (v, rest) =>
      match skip_ws rest with
      | EmptyString => Some v
      | _ => None
      end
  | None => None
  end.

(** ** twitter.py: [parse_json_from_llm] *)

Definition JSON_RESPONSE_REGEXES : list string :=
  ["json.?({.*})"; "json({.*})"; "\`\`\`json(.*)\`\`\`"].

(** One turn of the loop: search, then decode group 1; [None] is the
    [continue] of both the failed search and the [JSONDecodeError]. *)
Definition try_regex (regex response : string) : option pyval :=
  match re_search regex response with
  | None => None
  | Some group => json_loads group
  end.

Fixpoint first_decoded (regexes : list string) (response : string)
  : option pyval :=
  match regexes with
  | [] => None
  | regex :: regexes' =>
      match try_regex regex response with
      | Some loaded_response => Some loaded_response
      | None => first_decoded regexes' response
      end
  end.

(** [parse_json_from_llm]: [Some v] is a decoded value [v] (the value
    [PNone] of a decoded [null] included), [None] the final [return None]. *)
Definition parse_json_from_llm (response : string) : option pyval :=
  first_decoded JSON_RESPONSE_REGEXES response.

(** ** The outside world *)

Inductive request_performative : Type := GET_STATE | GET_RAW_TRANSACTION.
Inductive response_performative : Type := STATE | RAW_TRANSACTION | ERROR.

(** A [get_contract_api_response] call: the five arguments every call site
    gives, and the remaining keyword arguments in the order they are
    written. *)
Record contract_request : Type := {
  rq_performative : request_performative;
  rq_contract_address : string;
  rq_contract_id : string;
  rq_contract_callable : string;
  rq_chain_id : string;
  rq_kwargs : list (string * pyval)
}.

(** The answer to it.  The three body fields are the ones the behaviours read
    with [body.get(key, None)], at the types their annotations give them:
    [Optional[str]], [Optional[bytes]] and [Optional[int]]. *)
Record contract_response : Type := {
  performative : response_performative;
  body_tx_hash : option string;
  body_data : option (list Byte.byte);
  body_token_nonce : option Z
}.

(** What a behaviour does to the outside, in the order it does it. *)
Inductive event : Type :=
| EvLogError (message : string)
| EvKvRead (keys : list string)
| EvKvWrite (key value : string)
| EvContract (request : contract_request)
| EvSubgraph
| EvTwikit (method : string) (kwargs : list (string * pyval))
| EvGenai (prompt : string)
| EvSleep (seconds : Z).

(** A post as the social collaborator returns it from [get_user_tweets]. *)
Record tweet : Type := {
  tweet_id_of : string;
  tweet_text : string;
  tweet_user_name : string
}.

(** Everything the behaviours take from outside [chain.py] and
    [twitter.py]:
    the float and [repr] behaviour of the interpreter, library functions and
    constants, parameters and synchronized data, and the collaborators.  A
    collaborator answers from the calls made so far and its arguments. *)
Record Env : Type := {
  (* interpreter *)
  float_truthy : string -> bool;
  float_eq_int : string -> Z -> bool;
  float_trunc : string -> result Z;
  py_repr : pyval -> string;
  json_dumps : bool -> pyval -> string;
  entropy : list event -> Z;
  (* libraries *)
  TX_HASH_LENGTH : nat;
  GnosisSafeContract_contract_id : string;
  MemeFactoryContract_contract_id : string;
  hash_payload_to_hex :
    string -> Z -> Z -> string -> list Byte.byte -> result string;
  weighted_length : pyval -> result Z;
  TWITTER_DECISION_PROMPT : string -> string -> string -> string -> string;
  (* parameters and synchronized data *)
  skip_engagement : bool;
  token_action : pyval;
  final_tx_hash : option string;
  safe_contract_address : string;
  meme_factory_address : string;
  chain_id : string;
  persona : string;
  sync_time_str : string;
  sync_timestamp : pyval;
  (* collaborators *)
  contract_api : list event -> contract_request -> contract_response;
  kv_read_ok : list event -> bool;
  memeooorr_handles : list event -> list string;
  twikit_filter_suspended_users : list event -> list string -> list string;
  twikit_get_user_tweets : list event -> string -> list tweet;
  twikit_success : list event -> string -> pyval -> bool;
  twikit_post : list event -> list pyval -> option (list pyval);
  twikit_search : list event -> string -> Z -> option (list pyval);
  genai : list event -> string -> option string
}.

(** ** Generators as state-and-exception computations *)

Record state : Type := {
  kv : gmap string string;
  trace : list event
}.

Definition M (A : Type) : Type := state -> result A * state.

Definition ret {A : Type} (a : A) : M A := fun st => (Ok a, st).

Definition bind {A B : Type} (m : M A) (k : A -> M B) : M B :=
  fun st =>
    match m st with
    | (Ok a, st') => k a st'
    | (Raise e, st') => (Raise e, st')
    end.

Definition raise {A : Type} (e : exn) : M A := fun st => (Raise e, st).

Definition lift {A : Type} (r : result A) : M A :=
  match r with
  | Ok a => ret a
  | Raise e => raise e
  end.

Definition emit (ev : event) : M unit :=
  fun st => (Ok tt, {| kv := kv st; trace := (trace st ++ [ev])%list |}).

Definition history : M (list event) := fun st => (Ok (trace st), st).

Notation "x <- m ;; k" := (bind m (fun x => k))
  (at level 100, m at next level, right associativity).
Notation "m ;;; k" := (bind m (fun _ => k))
  (at level 100, right associativity).

(** A [for] loop that threads the variables it updates. *)
Fixpoint for_each {A S : Type} (l : list A) (body : A -> S -> M S) (s : S)
  : M S :=
  match l with
  | [] => ret s
  | x :: l' => s' <- body x s ;; for_each l' body s'
  end.

(** Calling a generator function builds a generator object and runs none of
    its body; the body runs when the object is iterated, which
    [yield from] does.  A call whose object is dropped is therefore no
    computation at all. *)
Definition dropped_generator {A : Type} (g : M A) : M unit := ret tt.

Definition logger_error (message : string) : M unit :=
  emit (EvLogError message).

(** ** Python builtins *)

(** The white space [int] strips from a string: the six ASCII blanks, and
    the two blanks above 127 that a one-byte character can be (the next
    line mark 133 and the no-break space 160).  The separators 28 to 31 are
    not stripped. *)
Definition is_py_space (c : ascii) : bool :=
  let n := Z.of_N (N_of_ascii c) in
  ((9 <=? n) && (n <=? 13)) || (n =? 32) || (n =? 133) || (n =? 160).

(** The white space [int] strips from bytes: the six ASCII blanks only. *)
Definition is_ascii_space (c : ascii) : bool :=
  let n := Z.of_N (N_of_ascii c) in ((9 <=? n) && (n <=? 13)) || (n =? 32).

Fixpoint lstrip (space : ascii -> bool) (s : string) : string :=
  match s with
  | String c s' => if space c then lstrip space s' else s
  | EmptyString => s
  end.

Fixpoint rstrip (space : ascii -> bool) (s : string) : string :=
  match s with
  | EmptyString => EmptyString
  | String c s' =>
      match rstrip space s' with
      | EmptyString => if space c then EmptyString
                       else String c EmptyString
      | r => String c r
      end
  end.

(** Digits, with single underscores allowed between them. *)
Fixpoint int_digits (acc : Z) (after_digit : bool) (s : string) : option Z :=
  match s with
  | EmptyString => if after_digit then Some acc else None
  | String c s' =>
      if is_digit c then int_digits (10 * acc + digit_val c) true s'
      else if Ascii.eqb c "_" && after_digit then int_digits acc false s'
      else None
  end.

(** The integer a text spells once the white space around it is
    stripped: [None] is [ValueError].  (The interpreter's cap on the number
    of digits is not modelled.) *)
Definition int_of_text (space : ascii -> bool) (s : string) : option Z :=
  match rstrip space (lstrip space s) with
  | String "-" ds => option_map Z.opp (int_digits 0 false ds)
  | String "+" ds => int_digits 0 false ds
  | ds => int_digits 0 false ds
  end.

(** [int(s)] for a string and for bytes. *)
Definition int_of_str (s : string) : option Z := int_of_text is_py_space s.

Definition int_of_bytes (b : list Byte.byte) : option Z :=
  int_of_text is_ascii_space (string_of_list_byte b).

Section Builtins.

Variable E : Env.

Definition py_truthy (v : pyval) : bool :=
  match v with
  | PNone => false
  | PBool b => b
  | PInt z => negb (z =? 0)
  | PFloat x => float_truthy E x
  | PStr s => negb (String.eqb s EmptyString)
  | PBytes b => match b with [] => false | _ => true end
  | PList l => match l with [] => false | _ => true end
  | PDict d => match d with [] => false | _ => true end
  end.

(** [str(v)], which is also what an f-string field prints. *)
Definition py_str (v : pyval) : string :=
  match v with
  | PNone => "None"
  | PBool true => "True"
  | PBool false => "False"
  | PInt z => pretty z
  | PStr s => s
  | _ => py_repr E v
  end.

Definition py_int (v : pyval) : result Z :=
  match v with
  | PInt z => Ok z
  | PBool b => Ok (if b then 1 else 0)
  | PFloat x => float_trunc E x
  | PStr s =>
      match int_of_str s with Some z => Ok z | None => Raise ValueError end
  | PBytes b =>
      match int_of_bytes b with
      | Some z => Ok z
      | None => Raise ValueError
      end
  | _ => Raise TypeError
  end.

(** [v.get(k, None)] *)
Definition py_get (v : pyval) (k : string) : result pyval :=
  match v with
  | PDict d => Ok (default PNone (dict_get k d))
  | _ => Raise AttributeError
  end.

(** [v[k]] with a string key *)
Definition py_subscript (v : pyval) (k : string) : result pyval :=
  match v with
  | PDict d =>
      match dict_get k d with Some x => Ok x | None => Raise KeyError end
  | _ => Raise TypeError
  end.

(** The items a [for] loop draws from [v]. *)
Definition py_iter (v : pyval) : result (list pyval) :=
  match v with
  | PList l => Ok l
  | PDict d => Ok (map PStr (dict_keys d))
  | PStr s =>
      Ok (map (fun c => PStr (String c EmptyString)) (list_ascii_of_string s))
  | PBytes b => Ok (map (fun x => PInt (Z.of_N (Byte.to_N x))) b)
  | _ => Raise TypeError
  end.

(** [v == s] for a string [s], and [v == z] for an integer [z]: [True]
    equals 1. *)
Definition py_eq_str (v : pyval) (s : string) : bool :=
  match v with
  | PStr s' => String.eqb s' s
  | _ => false
  end.

Definition py_eq_int (z : Z) (v : pyval) : bool :=
  match v with
  | PInt z' => z =? z'
  | PBool b => z =? (if b then 1 else 0)
  | PFloat x => float_eq_int E x z
  | _ => false
  end.

(** [z in v] for an integer [z]. *)
Definition py_int_in (z : Z) (v : pyval) : result bool :=
  match v with
  | PList l => Ok (existsb (py_eq_int z) l)
  | PDict _ => Ok false
  | PBytes b =>
      if (0 <=? z) && (z <? 256)
      then Ok (existsb (fun x => Z.of_N (Byte.to_N x) =? z) b)
      else Raise ValueError
  | _ => Raise TypeError
  end.

(** [v.extend(items)] and [v.append(x)]: only a list has them. *)
Definition py_extend (v : pyval) (items : list pyval) : result pyval :=
  match v with
  | PList l => Ok (PList (l ++ items))
  | _ => Raise AttributeError
  end.

Definition py_append (v : pyval) (x : pyval) : result pyval :=
  py_extend v [x].

(** [secrets.randbelow(n)] *)
Definition randbelow (n : Z) : M Z :=
  h <- history ;; ret (entropy E h mod n).

End Builtins.

(** [bytes.hex()] and [bytes.fromhex()] *)
Definition hex_digit (n : N) : ascii :=
  if (n <? 10)%N then ascii_of_N (48 + n) else ascii_of_N (87 + n).

Fixpoint bytes_hex (b : list Byte.byte) : string :=
  match b with
  | [] => EmptyString
  | x :: b' =>
      let n := Byte.to_N x in
      String (hex_digit (n / 16)) (String (hex_digit (n mod 16)) (bytes_hex b'))
  end.

Fixpoint bytes_fromhex (s : string) : result (list Byte.byte) :=
  match s with
  | EmptyString => Ok []
  | String a s1 =>
      if is_ascii_space a then bytes_fromhex s1
      else
        match s1 with
        | String b s2 =>
            match hex_val a, hex_val b with
            | Some x, Some y =>
                match Byte.of_N (Z.to_N (16 * x + y)), bytes_fromhex s2 with
                | Some byte, Ok rest => Ok (byte :: rest)
                | _, _ => Raise ValueError
                end
            | _, _ => Raise ValueError
            end
        | EmptyString => Raise ValueError
        end
  end.

(** The round events the behaviours return ([Event.DONE.value] and the
    like). *)
Module Event.
Inductive t : Type := DONE | ERROR | NO_FUNDS.
End Event.

(** ** The framework helpers of the base behaviour *)

Section Behaviours.

Variable E : Env.

(** Modelled from the spec: [_read_kv] of the base behaviour
    ([behaviour_classes/base.py], whose source is missing).  The store is a
    map from string keys to string values; a read answers every requested
    key, with no value where the store has none, or fails as a whole. *)
Definition _read_kv (keys : list string)
  : M (option (list (string * option string))) :=
  h <- history ;;
  emit (EvKvRead keys) ;;;
  if kv_read_ok E h
  then fun st => (Ok (Some (map (fun k => (k, kv st !! k)) keys)), st)
  else ret None.

(** Modelled from the spec: [_write_kv] of the base behaviour; the whole
    value under the key is overwritten. *)
Definition _write_kv (key value : string) : M unit :=
  emit (EvKvWrite key value) ;;;
  fun st => (Ok tt, {| kv := <[key := value]> (kv st); trace := trace st |}).

(** [db_data[key]], one of the requested keys. *)
Definition db_value (db_data : list (string * option string)) (key : string)
  : result (option string) :=
  match dict_get key db_data with
  | Some v => Ok v
  | None => Raise KeyError
  end.

(** [json.loads(text)] where a decoding error is raised. *)
Definition loads_or_raise (text : string) : M pyval :=
  match json_loads text with
  | Some v => ret v
  | None => raise JSONDecodeError
  end.

(** [value or "[]"]: the stored text, or the empty list's when there is
    none or it is empty. *)
Definition or_empty_list (value : option string) : string :=
  match value with
  | Some (String c s) => String c s
  | _ => "[]"
  end.

(** Modelled from the spec: [get_contract_api_response], the
    contract-interaction collaborator, whose source is missing: the call is
    logged and the collaborator's response returned. *)
Definition get_contract_api_response (rq : contract_request)
  : M contract_response :=
  h <- history ;;
  emit (EvContract rq) ;;;
  ret (contract_api E h rq).

(** Modelled from the spec: [_call_twikit] of the base behaviour, the
    social collaborator, with one wrapper for each shape of answer: like,
    retweet and follow answer with a success flag, a post with the list of
    new ids or nothing. *)
Definition _call_twikit_success (method arg_name : string) (arg : pyval)
  : M bool :=
  h <- history ;;
  emit (EvTwikit method [(arg_name, arg)]) ;;;
  ret (twikit_success E h method arg).

Definition _call_twikit_post (tweets : list pyval)
  : M (option (list pyval)) :=
  h <- history ;;
  emit (EvTwikit "post" [("tweets", PList tweets)]) ;;;
  ret (twikit_post E h tweets).

(** Modelled from the spec: [_call_genai], the LLM collaborator (text or
    nothing), and [sleep], the timed delay. *)
Definition _call_genai (prompt : string) : M (option string) :=
  h <- history ;;
  emit (EvGenai prompt) ;;;
  ret (genai E h prompt).

Definition sleep (seconds : Z) : M unit := emit (EvSleep seconds).

(** Modelled from the spec: [get_tweets_from_db] of the base behaviour, the
    Dedup Ledger's load of the key [tweets]: the stored sequence, or the
    empty one on a failed read, a miss, or a text that does not decode to a
    list, with an error logged and nothing raised. *)
Definition get_tweets_from_db : M (list pyval) :=
  db_data <- _read_kv ["tweets"] ;;
  match db_data with
  | None => logger_error "Error while loading the database" ;;; ret []
  | Some d =>
      match json_loads (or_empty_list (default None (dict_get "tweets" d))) with
      | Some (PList tweets) => ret tweets
      | _ => logger_error "Error while decoding the database" ;;; ret []
      end
  end.

(** ** chain.py *)

Definition EMPTY_CALL_DATA : list Byte.byte := [Byte.x30; Byte.x78].
Definition SAFE_GAS : Z := 0.
Definition ZERO_VALUE : Z := 0.

(** The request [_build_safe_tx_hash] sends to the safe contract. *)
Definition safe_hash_request (to_address : string) (value : Z)
  (data : list Byte.byte) : contract_request :=
  {| rq_performative := GET_STATE;
     rq_contract_address := safe_contract_address E;
     rq_contract_id := GnosisSafeContract_contract_id E;
     rq_contract_callable := "get_raw_safe_transaction_hash";
     rq_chain_id := chain_id E;
     rq_kwargs := [("to_address", PStr to_address); ("value", PInt value);
                   ("data", PBytes data); ("safe_tx_gas", PInt SAFE_GAS)] |}.

(** [ChainBehaviour._build_safe_tx_hash] *)
Definition _build_safe_tx_hash (to_address : string) (value : Z)
  (data : list Byte.byte) : M (option string) :=
  (* Prepare the safe transaction *)
  response_msg <- get_contract_api_response
                    (safe_hash_request to_address value data) ;;
  (* Check for errors *)
  match performative response_msg with
  | STATE =>
      match body_tx_hash response_msg with
      | None =>
          logger_error "Something went wrong while trying to get the safe transaction hash." ;;;
          ret None
      | Some tx_hash =>
          if negb (Nat.eqb (String.length tx_hash) (TX_HASH_LENGTH E)) then
            logger_error "Something went wrong while trying to get the safe transaction hash." ;;;
            ret None
          else
            (* strip the 0x *)
            let tx_hash := string_drop 2 tx_hash in
            safe_tx_hash <- lift (hash_payload_to_hex E tx_hash value SAFE_GAS
                                    to_address data) ;;
            ret (Some safe_tx_hash)
      end
  | _ =>
      logger_error "Couldn't get safe tx hash." ;;;
      ret None
  end.

(** [ChainBehaviour.store_heart], in two parts: the load of the hearted
    memes (lines 121-127), then the append and the write. *)
Definition load_hearted_memes : M pyval :=
  db_data <- _read_kv ["hearted_memes"] ;;
  match db_data with
  | None => logger_error "Error while loading the database" ;;; ret (PList [])
  | Some d =>
      stored <- lift (db_value d "hearted_memes") ;;
      loads_or_raise (or_empty_list stored)
  end.

Definition store_heart (token_nonce : pyval) : M unit :=
  hearted_memes <- load_hearted_memes ;;
  hearted_memes <- lift (py_append hearted_memes token_nonce) ;;
  _write_kv "hearted_memes" (json_dumps E true hearted_memes).

(** [x in names] for a list of string literals. *)
Definition in_names (x : pyval) (names : list string) : bool :=
  existsb (py_eq_str x) names.

(** [ActionPreparationBehaviour.get_token_nonce] *)
Definition get_token_nonce : M (option Z) :=
  response_msg <- get_contract_api_response
    {| rq_performative := GET_STATE;
       rq_contract_address := meme_factory_address E;
       rq_contract_id := MemeFactoryContract_contract_id E;
       rq_contract_callable := "get_token_data";
       rq_chain_id := chain_id E;
       rq_kwargs :=
         [("tx_hash", match final_tx_hash E with
                      | Some h => PStr h
                      | None => PNone
                      end)] |} ;;
  match performative response_msg with
  | STATE => ret (body_token_nonce response_msg)
  | _ => logger_error "Could not get the token data" ;;; ret None
  end.

(** [ActionPreparationBehaviour.post_action].  [token_action] is the
    synchronized value itself in both comparisons, as the source has it. *)
Definition post_action : M unit :=
  let token_action := token_action E in
  token_nonce <- get_token_nonce ;;
  (* the log line formats token_action['action'] *)
  _ <- lift (py_subscript token_action "action") ;;
  match token_nonce with
  | None | Some 0 => logger_error "Token nonce is none"
  | Some token_nonce =>
      (if py_eq_str token_action "summon" then
         (* Read previous tokens from db *)
         db_data <- _read_kv ["tokens"] ;;
         tokens <-
           match db_data with
           | None =>
               logger_error "Error while loading tokens from the database" ;;;
               ret (PList [])
           | Some d =>
               stored <- lift (db_value d "tokens") ;;
               match stored with
               | Some (String c s) => loads_or_raise (String c s)
               | _ => ret (PList [])
               end
           end ;;
         (* Write token to db *)
         token_name <- lift (py_subscript token_action "token_name") ;;
         token_ticker <- lift (py_subscript token_action "token_ticker") ;;
         total_supply <- lift (py_subscript token_action "total_supply") ;;
         total_supply <- lift (py_int E total_supply) ;;
         let token_data :=
           PDict [("token_name", token_name); ("token_ticker", token_ticker);
                  ("total_supply", PInt total_supply);
                  ("token_nonce", PInt token_nonce)] in
         tokens <- lift (py_append tokens token_data) ;;
         _write_kv "summoned_tokens" (json_dumps E true tokens)
       else ret tt) ;;;
      if in_names token_action ["summon"; "heart"]
      then dropped_generator (store_heart (PInt token_nonce))
      else ret tt
  end.

(** The routing part of [get_tx_hash] (lines 267-278): the keyword
    arguments built for the action. *)
Definition route_kwargs (token_action action : pyval)
  : result (list (string * pyval)) :=
  let kwargs : list (string * pyval) := [] in
  match
    (if in_names action ["summon"] then
       match py_subscript token_action "token_name",
             py_subscript token_action "token_ticker",
             py_subscript token_action "token_supply" with
       | Ok name, Ok ticker, Ok supply =>
           match py_int E supply with
           | Ok z => Ok (kwargs ++ [("token_name", name);
                                    ("token_ticker", ticker);
                                    ("token_supply", PInt z)])%list
           | Raise e => Raise e
           end
       | Raise e, _, _ | Ok _, Raise e, _ | Ok _, Ok _, Raise e => Raise e
       end
     else Ok kwargs)
  with
  | Raise e => Raise e
  | Ok kwargs =>
      match
        (if in_names action ["heart"; "unleash"] then
           match py_subscript token_action "token_nonce" with
           | Ok n => Ok (dict_set "meme_nonce" n kwargs)
           | Raise e => Raise e
           end
         else Ok kwargs)
      with
      | Raise e => Raise e
      | Ok kwargs =>
          if in_names action ["collect"; "purge"] then
            match py_subscript token_action "token_address" with
            | Ok a => Ok (dict_set "meme_address" a kwargs)
            | Raise e => Raise e
            end
          else Ok kwargs
      end
  end.

(** [ActionPreparationBehaviour.get_tx_hash] *)
Definition get_tx_hash : M (option string) :=
  let token_action := token_action E in
  (* Action finished if we already have a final_tx_hash at this point *)
  match final_tx_hash E with
  | Some _ => post_action ;;; ret (Some EmptyString)
  | None =>
      if negb (py_truthy E token_action) then ret None
      else
        action <- lift (py_subscript token_action "action") ;;
        let contract_callable := "build_" ++ py_str E action ++ "_tx" in
        kwargs <- lift (route_kwargs token_action action) ;;
        (* Use the contract api to interact with the factory contract *)
        response_msg <- get_contract_api_response
          {| rq_performative := GET_RAW_TRANSACTION;
             rq_contract_address := meme_factory_address E;
             rq_contract_id := MemeFactoryContract_contract_id E;
             rq_contract_callable := contract_callable;
             rq_chain_id := chain_id E;
             rq_kwargs := kwargs |} ;;
        match performative response_msg with
        | RAW_TRANSACTION =>
            match body_data response_msg with
            | None =>
                logger_error "Error while preparing the transaction" ;;;
                ret None
            | Some data_bytes =>
                let data_hex := bytes_hex data_bytes in
                (* Prepare safe transaction *)
                value <-
                  (if negb (in_names action ["summon"; "heart"])
                   then ret ZERO_VALUE
                   else
                     amount <- lift (py_subscript token_action "amount") ;;
                     lift (py_int E amount)) ;;
                data <- lift (bytes_fromhex data_hex) ;;
                safe_tx_hash <- _build_safe_tx_hash (meme_factory_address E)
                                  value data ;;
                (* Optimistic design: we now store the hearted token *)
                (if py_eq_str action "heart" then
                   token_nonce <- lift (py_subscript token_action "token_nonce") ;;
                   dropped_generator (store_heart token_nonce)
                 else ret tt) ;;;
                ret safe_tx_hash
            end
        | _ =>
            logger_error "Error while building the tx" ;;;
            ret None
        end
  end.

(** ** twitter.py *)

Definition MAX_TWEET_CHARS : Z := 280.

Definition nl : string := String "010"%char EmptyString.

Fixpoint join (sep : string) (parts : list string) : string :=
  match parts with
  | [] => EmptyString
  | [x] => x
  | x :: parts' => x ++ sep ++ join sep parts'
  end.

(** [is_tweet_valid]: the weighted length is the library's. *)
Definition is_tweet_valid (tweet : pyval) : result bool :=
  match weighted_length E tweet with
  | Ok n => Ok (n <=? MAX_TWEET_CHARS)
  | Raise e => Raise e
  end.

(** [BaseTweetBehaviour.store_tweet] *)
Definition store_tweet (tweet : pyval) : M bool :=
  tweets <- get_tweets_from_db ;;
  let tweets :=
    match tweet with
    | PList l => (tweets ++ l)%list
    | _ => (tweets ++ [tweet])%list
    end in
  _write_kv "tweets" (json_dumps E false (PList tweets)) ;;;
  ret true.

(** [BaseTweetBehaviour.post_tweet] *)
Definition post_tweet (tweet : list pyval) (store : bool) : M (option pyval) :=
  tweet_ids <- _call_twikit_post (map (fun t => PDict [("text", t)]) tweet) ;;
  match tweet_ids with
  | Some (first_id :: _) =>
      let latest_tweet :=
        PDict [("tweet_id", first_id); ("text", PList tweet);
               ("timestamp", sync_timestamp E)] in
      (* Write latest tweet to the database *)
      (if store then store_tweet latest_tweet ;;; ret tt else ret tt) ;;;
      ret (Some latest_tweet)
  | _ => logger_error "Failed posting to Twitter." ;;; ret None
  end.

(** [BaseTweetBehaviour.respond_tweet]; the result is the truth value of
    [tweet_ids is not None and tweet_ids]. *)
Definition respond_tweet (tweet_id text : pyval) (quote : bool)
  (user_name : pyval) : M bool :=
  let tweet := [("text", text)] in
  let tweet :=
    if quote then
      dict_set "attachment_url"
        (PStr ("https://x.com/" ++ py_str E user_name ++ "/status/"
               ++ py_str E tweet_id)) tweet
    else dict_set "reply_to" tweet_id tweet in
  tweet_ids <- _call_twikit_post [PDict tweet] ;;
  ret match tweet_ids with
      | Some (_ :: _) => true
      | _ => false
      end.

(** [like_tweet], [retweet], [follow_user] *)
Definition like_tweet (tweet_id : pyval) : M bool :=
  _call_twikit_success "like_tweet" "tweet_id" tweet_id.

Definition retweet (tweet_id : pyval) : M bool :=
  _call_twikit_success "retweet" "tweet_id" tweet_id.

Definition follow_user (user_id : pyval) : M bool :=
  _call_twikit_success "follow_user" "user_id" user_id.

(** [v.get(k, 0) or 0] and the sort key of [get_feedback]. *)
Definition get_or_zero (t : pyval) (k : string) : result pyval :=
  match t with
  | PDict d =>
      let v := default (PInt 0) (dict_get k d) in
      Ok (if py_truthy E v then v else PInt 0)
  | _ => Raise AttributeError
  end.

Definition counter (t : pyval) (k : string) : result Z :=
  match get_or_zero t k with
  | Ok v => py_int E v
  | Raise e => Raise e
  end.

Definition popularity (t : pyval) : result Z :=
  match counter t "view_count" with
  | Raise e => Raise e
  | Ok views =>
      match counter t "retweet_count" with
      | Raise e => Raise e
      | Ok retweets =>
          match counter t "quote_count" with
          | Raise e => Raise e
          | Ok quotes => Ok (views + 3 * retweets + 5 * quotes)
          end
      end
  end.

(** The keys of all items, left to right; the first failure is raised. *)
Fixpoint keyed (l : list pyval) : result (list (Z * pyval)) :=
  match l with
  | [] => Ok []
  | t :: l' =>
      match popularity t with
      | Raise e => Raise e
      | Ok k =>
          match keyed l' with
          | Raise e => Raise e
          | Ok r => Ok ((k, t) :: r)
          end
      end
  end.

(** [sorted(..., reverse=True)]: descending by key, items of equal key in
    their original order. *)
Fixpoint insert_desc (x : Z * pyval) (l : list (Z * pyval))
  : list (Z * pyval) :=
  match l with
  | [] => [x]
  | y :: l' => if fst y <=? fst x then x :: l else y :: insert_desc x l'
  end.

Definition sorted_desc (l : list (Z * pyval)) : list (Z * pyval) :=
  fold_right insert_desc [] l.

(** Modelled from the spec: the [search] method of the social
    collaborator: a list of replies, or nothing on an API error. *)
Definition _call_twikit_search (query : string) (count : Z)
  : M (option (list pyval)) :=
  h <- history ;;
  emit (EvTwikit "search" [("query", PStr query); ("count", PInt count)]) ;;;
  ret (twikit_search E h query count).

(** [CollectFeedbackBehaviour.get_feedback] *)
Definition get_feedback : M (option (list pyval)) :=
  (* Search new replies *)
  tweets <- get_tweets_from_db ;;
  match last tweets with
  | None => logger_error "No tweets yet" ;;; ret (Some [])
  | Some latest_tweet =>
      tweet_id <- lift (py_subscript latest_tweet "tweet_id") ;;
      let query := "conversation_id:" ++ py_str E tweet_id in
      feedback <- _call_twikit_search query 100 ;;
      match feedback with
      | None =>
          logger_error "Could not retrieve any replies due to an API error" ;;;
          ret None
      | Some [] => logger_error "No tweets match the query" ;;; ret (Some [])
      | Some feedback =>
          (* Sort tweets by popularity using a weighted sum *)
          ks <- lift (keyed feedback) ;;
          let feedback := map snd (sorted_desc ks) in
          (* Keep only the most relevant tweets *)
          ret (Some (firstn 10 feedback))
      end
  end.

(** The entry of [pending_tweets] for one tweet id. *)
Record pending_tweet : Type := {
  pt_text : string;
  pt_user_name : string
}.

(** One turn of the loop of [interact_twitter] (lines 393-450);
    [new_interacted_tweet_ids] is threaded through. *)
Definition interact_one (pending_tweets : list (string * pending_tweet))
  (interaction : pyval) (new_interacted_tweet_ids : list pyval)
  : M (list pyval) :=
  tweet_id <- lift (py_get interaction "tweet_id") ;;
  action <- lift (py_get interaction "action") ;;
  text <- lift (py_get interaction "text") ;;
  if py_eq_str action "none" then ret new_interacted_tweet_ids
  else if negb (py_eq_str action "tweet")
          && negb (dict_has (py_str E tweet_id) pending_tweets)
  then ret new_interacted_tweet_ids
  else
    (* adding random delay to avoid rate limiting *)
    delay <- randbelow E 5 ;;
    sleep delay ;;;
    if py_eq_str action "tweet" then
      post_tweet [text] true ;;;
      ret new_interacted_tweet_ids
    else
      match dict_get (py_str E tweet_id) pending_tweets with
      | None => raise KeyError
      | Some p =>
          let user_name := pt_user_name p in
          if py_eq_str action "like" then
            liked <- like_tweet tweet_id ;;
            ret (if liked then new_interacted_tweet_ids ++ [tweet_id]
                 else new_interacted_tweet_ids)%list
          else if py_eq_str action "follow" then
            followed <- follow_user tweet_id ;;
            ret (if followed then new_interacted_tweet_ids ++ [tweet_id]
                 else new_interacted_tweet_ids)%list
          else if py_eq_str action "retweet" then
            retweeted <- retweet tweet_id ;;
            ret (if retweeted then new_interacted_tweet_ids ++ [tweet_id]
                 else new_interacted_tweet_ids)%list
          else
            valid <- lift (is_tweet_valid text) ;;
            if negb valid then
              logger_error "The tweet is too long." ;;;
              ret new_interacted_tweet_ids
            else
              new_interacted_tweet_ids <-
                (if py_eq_str action "reply" then
                   responded <- respond_tweet tweet_id text false PNone ;;
                   ret (if responded
                        then new_interacted_tweet_ids ++ [tweet_id]
                        else new_interacted_tweet_ids)%list
                 else ret new_interacted_tweet_ids) ;;
              if py_eq_str action "quote" then
                quoted <- respond_tweet tweet_id text true (PStr user_name) ;;
                ret (if quoted then new_interacted_tweet_ids ++ [tweet_id]
                     else new_interacted_tweet_ids)%list
              else ret new_interacted_tweet_ids
      end.

(** The f-string of one of the agent's own tweets in the prompt. *)
Definition format_previous_tweet (tweet : pyval) : result string :=
  match py_subscript tweet "tweet_id", py_subscript tweet "text",
        py_subscript tweet "timestamp" with
  | Ok i, Ok t, Ok ts =>
      Ok ("tweet_id: " ++ py_str E i ++ nl ++ "tweet_text: " ++ py_str E t
          ++ nl ++ "timestamp: " ++ py_str E ts)
  | Raise e, _, _ | Ok _, Raise e, _ | Ok _, Ok _, Raise e => Raise e
  end.

Fixpoint format_previous_tweets (tweets : list pyval) : result (list string) :=
  match tweets with
  | [] => Ok []
  | t :: tweets' =>
      match format_previous_tweet t with
      | Raise e => Raise e
      | Ok x =>
          match format_previous_tweets tweets' with
          | Raise e => Raise e
          | Ok r => Ok (x :: r)
          end
      end
  end.

(** [EngageTwitterBehaviour.interact_twitter] *)
Definition interact_twitter (pending_tweets : list (string * pending_tweet))
  : M (Event.t * list pyval) :=
  let new_interacted_tweet_ids : list pyval := [] in
  let persona := persona E in
  let other_tweets :=
    join (nl ++ nl)
      (map (fun '(t_id, t_data) =>
              "tweet_id: " ++ t_id ++ nl ++ "tweet_text: " ++ pt_text t_data)
         pending_tweets) in
  (* Get at most your 5 latest tweets *)
  tweets <- get_tweets_from_db ;;
  let tweets := skipn (length tweets - 5) tweets in
  previous_tweets <-
    match tweets with
    | [] => ret "No previous tweets"
    | _ =>
        parts <- lift (format_previous_tweets tweets) ;;
        ret (join (nl ++ nl) parts)
    end ;;
  let prompt :=
    TWITTER_DECISION_PROMPT E persona previous_tweets other_tweets
      (sync_time_str E) in
  llm_response <- _call_genai prompt ;;
  match llm_response with
  | None =>
      logger_error "Error getting a response from the LLM." ;;;
      ret (Event.ERROR, new_interacted_tweet_ids)
  | Some llm_response =>
      match parse_json_from_llm llm_response with
      | None => ret (Event.ERROR, new_interacted_tweet_ids)
      | Some json_response =>
          if negb (py_truthy E json_response)
          then ret (Event.ERROR, new_interacted_tweet_ids)
          else
            interactions <- lift (py_iter json_response) ;;
            new_interacted_tweet_ids <-
              for_each interactions (interact_one pending_tweets)
                new_interacted_tweet_ids ;;
            ret (Event.DONE, new_interacted_tweet_ids)
      end
  end.

(** The load of the interacted tweet ids in [get_event] (lines 296-302). *)
Definition load_interacted_tweet_ids : M pyval :=
  db_data <- _read_kv ["interacted_tweet_ids"] ;;
  match db_data with
  | None => logger_error "Error while loading the database" ;;; ret (PList [])
  | Some d =>
      stored <- lift (db_value d "interacted_tweet_ids") ;;
      loads_or_raise (or_empty_list stored)
  end.

(** Modelled from the spec: the [get_user_tweets] method of the social
    collaborator: the latest posts of a handle, none when there are none or
    the call fails. *)
Definition _call_twikit_get_user_tweets (twitter_handle : string)
  : M (list tweet) :=
  h <- history ;;
  emit (EvTwikit "get_user_tweets" [("twitter_handle", PStr twitter_handle)]) ;;;
  ret (twikit_get_user_tweets E h twitter_handle).

(** One turn of the loop over the handles in [get_event] (lines 306-325). *)
Definition collect_pending (interacted_tweet_ids : pyval)
  (agent_handle : string) (pending_tweets : list (string * pending_tweet))
  : M (list (string * pending_tweet)) :=
  (* By default only 1 tweet is retrieved (the latest one) *)
  latest_tweets <- _call_twikit_get_user_tweets agent_handle ;;
  match latest_tweets with
  | [] => ret pending_tweets
  | latest :: _ =>
      let tweet_id := tweet_id_of latest in
      (* Only respond to not previously interacted tweets *)
      n <- lift (py_int E (PStr tweet_id)) ;;
      seen <- lift (py_int_in E n interacted_tweet_ids) ;;
      if seen then ret pending_tweets
      else
        ret (dict_set tweet_id
               {| pt_text := tweet_text latest;
                  pt_user_name := tweet_user_name latest |} pending_tweets)
  end.

(** [EngageTwitterBehaviour.get_event] *)
Definition get_event : M Event.t :=
  if skip_engagement E then ret Event.DONE
  else
    (* Get other memeooorr handles *)
    h <- history ;;
    emit EvSubgraph ;;;
    let agent_handles := memeooorr_handles E h in
    (* Filter out suspended accounts *)
    h <- history ;;
    emit (EvTwikit "filter_suspended_users"
            [("user_names", PList (map PStr agent_handles))]) ;;;
    let agent_handles := twikit_filter_suspended_users E h agent_handles in
    (* Load previously responded tweets *)
    interacted_tweet_ids <- load_interacted_tweet_ids ;;
    (* Get their latest tweet *)
    pending_tweets <-
      for_each agent_handles (collect_pending interacted_tweet_ids) [] ;;
    (* Build and post interactions *)
    r <- interact_twitter pending_tweets ;;
    let '(event, new_interacted_tweet_ids) := r in
    match event with
    | Event.DONE =>
        interacted_tweet_ids <-
          lift (py_extend interacted_tweet_ids new_interacted_tweet_ids) ;;
        (* Write latest responded tweets to the database *)
        _write_kv "interacted_tweet_ids" (json_dumps E true interacted_tweet_ids) ;;;
        ret event
    | _ => ret event
    end.

End Behaviours.

(** ** Concrete worlds *)

(** [json.dumps] on the values the scenarios store: integers, strings
    without characters to escape, lists and objects (keys sorted on
    request). *)
Fixpoint insert_key (x : string * string) (l : list (string * string))
  : list (string * string) :=
  match l with
  | [] => [x]
  | y :: l' =>
      if String.leb (fst x) (fst y) then x :: l else y :: insert_key x l'
  end.

Fixpoint dumps (sort_keys : bool) (v : pyval) : string :=
  match v with
  | PNone => "null"
  | PBool true => "true"
  | PBool false => "false"
  | PInt z => pretty z
  | PFloat x => x
  | PStr s => String dquote (s ++ String dquote EmptyString)
  | PBytes _ => EmptyString
  | PList l => "[" ++ join ", " (map (dumps sort_keys) l) ++ "]"
  | PDict d =>
      let members :=
        map (fun kv => (fst kv, dumps sort_keys (snd kv))) d in
      let members :=
        if sort_keys then fold_right insert_key [] members else members in
      "{" ++ join ", "
               (map (fun kv => String dquote (fst kv ++ String dquote ": ")
                               ++ snd kv) members) ++ "}"
  end.

(** A world in which every collaborator answers the same way whatever came
    before; the scenarios below vary the listed parts. *)
Definition world (action : pyval) (final : option string)
  (contracts : contract_request -> contract_response)
  (handles : list string) (latest : string -> list tweet)
  (llm : option string) (replies : option (list pyval)) : Env :=
  {| float_truthy := fun _ => true;
     float_eq_int := fun _ _ => false;
     float_trunc := fun _ => Raise OverflowError;
     py_repr := fun _ => "<object>";
     json_dumps := dumps;
     entropy := fun _ => 3;
     TX_HASH_LENGTH := 66;
     GnosisSafeContract_contract_id := "valory/gnosis_safe";
     MemeFactoryContract_contract_id := "dvilela/meme_factory";
     hash_payload_to_hex := fun h value gas to data =>
       Ok (h ++ "|" ++ pretty value ++ "|" ++ pretty gas ++ "|" ++ to ++ "|"
           ++ bytes_hex data);
     weighted_length := fun v =>
       match v with
       | PStr s => Ok (Z.of_nat (String.length s))
       | _ => Raise TypeError
       end;
     TWITTER_DECISION_PROMPT := fun persona previous other time =>
       join nl [persona; previous; other; time];
     skip_engagement := false;
     token_action := action;
     final_tx_hash := final;
     safe_contract_address := "0xSafe";
     meme_factory_address := "0xFactory";
     chain_id := "base";
     persona := "degen bot";
     sync_time_str := "2024-12-01 00:00:00";
     sync_timestamp := PInt 1733011200;
     contract_api := fun _ => contracts;
     kv_read_ok := fun _ => true;
     memeooorr_handles := fun _ => handles;
     twikit_filter_suspended_users := fun _ hs => hs;
     twikit_get_user_tweets := fun _ => latest;
     twikit_success := fun _ _ _ => true;
     twikit_post := fun _ _ => Some [PStr "900"];
     twikit_search := fun _ _ _ => replies;
     genai := fun _ _ => llm |}.

Definition no_contracts (rq : contract_request) : contract_response :=
  {| performative := ERROR; body_tx_hash := None; body_data := None;
     body_token_nonce := None |}.

Definition empty_state : state := {| kv := ∅; trace := [] |}.

(** The factory contract answers a build call with two bytes of call data,
    the safe contract with a hash of 66 characters, and the deployment
    event carries nonce 7. *)
Definition good_contracts (rq : contract_request) : contract_response :=
  match rq_performative rq with
  | GET_RAW_TRANSACTION =>
      {| performative := RAW_TRANSACTION; body_tx_hash := None;
         body_data := Some [Byte.xab; Byte.xcd]; body_token_nonce := None |}
  | GET_STATE =>
      {| performative := STATE;
         body_tx_hash :=
           Some "0x1111111111111111111111111111111111111111111111111111111111111111";
         body_data := None; body_token_nonce := Some 7 |}
  end.

(** The token actions of the scenarios. *)
Definition heart_action : pyval :=
  PDict [("action", PStr "heart"); ("token_nonce", PInt 5);
         ("amount", PInt 1000)].

Definition summon_action : pyval :=
  PDict [("action", PStr "summon"); ("token_name", PStr "Wave");
         ("token_ticker", PStr "WAVE"); ("token_supply", PInt 1000000);
         ("total_supply", PInt 1000000); ("amount", PInt 10)].

(** A heart is being prepared: no final hash yet. *)
Definition heart_world : Env :=
  world heart_action None good_contracts [] (fun _ => []) None None.

(** A summon has been settled on chain: the final hash is known. *)
Definition summon_settled_world : Env :=
  world summon_action (Some "0xfinal") good_contracts [] (fun _ => [])
    None None.

(** The pending tweet of the engagement scenarios, and worlds in which the
    model answers with the plain form of a like decision and with the same
    decision list in a fenced block. *)
Definition gm_pending : list (string * pending_tweet) :=
  [("111", {| pt_text := "gm"; pt_user_name := "alice" |})].

Definition like_world : Env :=
  world PNone None no_contracts [] (fun _ => [])
    (Some (dq "json[{'tweet_id':'111','action':'like'}]")) None.

Definition fenced_like_world : Env :=
  world PNone None no_contracts [] (fun _ => [])
    (Some (dq ("```json" ++ nl ++ "[{'tweet_id':'111','action':'like'}]"
               ++ nl ++ "```"))) None.

Definition follow_world : Env :=
  world PNone None no_contracts [] (fun _ => [])
    (Some (dq ("```json" ++ nl ++ "[{'tweet_id':'111','action':'follow'}]"
               ++ nl ++ "```"))) None.

(** The routing table of the Chain Action Builder as the specification
    words it: the keyword arguments of each of the five actions, taken from
    the fields of the token action. *)
Inductive action_kind : Type := Summon | Heart | Unleash | Collect | Purge.

Definition action_name (k : action_kind) : string :=
  match k with
  | Summon => "summon"
  | Heart => "heart"
  | Unleash => "unleash"
  | Collect => "collect"
  | Purge => "purge"
  end.

Definition routing_table (E : Env) (k : action_kind)
  (fields : list (string * pyval)) : option (list (string * pyval)) :=
  match k with
  | Summon =>
      match dict_get "token_name" fields, dict_get "token_ticker" fields,
            dict_get "token_supply" fields with
      | Some name, Some ticker, Some supply =>
          match py_int E supply with
          | Ok z => Some [("token_name", name); ("token_ticker", ticker);
                          ("token_supply", PInt z)]
          | Raise _ => None
          end
      | _, _, _ => None
      end
  | Heart | Unleash =>
      match dict_get "token_nonce" fields with
      | Some nonce => Some [("meme_nonce", nonce)]
      | None => None
      end
  | Collect | Purge =>
      match dict_get "token_address" fields with
      | Some address => Some [("meme_address", address)]
      | None => None
      end
  end.

(** A store whose dedup collections hold text that is not JSON. *)
Definition garbled_state : state :=
  {| kv := {[ "interacted_tweet_ids" := "oops"; "hearted_memes" := "oops" ]};
     trace := [] |}.

(** The agent has posted tweet 5; the search for its replies returns one
    reply whose view counter is not a number, or four replies with counters
    that are numeric strings, missing, or null. *)
Definition own_tweets_state : state :=
  {| kv := {[ "tweets" := dq "[{'tweet_id': '5', 'text': 'x', 'timestamp': 1}]" ]};
     trace := [] |}.




(** Alice's latest tweet is 111, and the store already lists 111 among the
    interacted tweets.  The model gives no answer, or answers with the
    empty list of decisions, or asks for a new post. *)
Definition alice_tweet : tweet :=
  {| tweet_id_of := "111"; tweet_text := "gm"; tweet_user_name := "alice" |}.

Definition seen_state : state :=
  {| kv := {[ "interacted_tweet_ids" := "[111]" ]}; trace := [] |}.

Definition silent_world : Env :=
  world PNone None no_contracts ["alice"] (fun _ => [alice_tweet]) None None.

Definition no_decision_world : Env :=
  world PNone None no_contracts ["alice"] (fun _ => [alice_tweet])
    (Some ("```json" ++ nl ++ "[]" ++ nl ++ "```")) None.

Definition posting_world : Env :=
  world PNone None no_contracts ["alice"] (fun _ => [alice_tweet])
    (Some (dq ("```json" ++ nl ++ "[{'action':'tweet','text':'gm frens'}]"
               ++ nl ++ "```"))) None.

(** ** Interactions in the log *)

(** The calls that act on somebody's tweet: a like, a retweet, a follow, and
    a post that replies to a tweet or quotes one.  A post with a text alone
    is a new top-level post and is not one of them. *)
Definition is_interaction (ev : event) : bool :=
  match ev with
  | EvTwikit method kwargs =>
      String.eqb method "like_tweet" || String.eqb method "retweet"
      || String.eqb method "follow_user"
      || (String.eqb method "post"
          && match dict_get "tweets" kwargs with
             | Some (PList posts) =>
                 existsb (fun post =>
                            match post with
                            | PDict d => dict_has "reply_to" d
                                         || dict_has "attachment_url" d
                            | _ => false
                            end) posts
             | _ => false
             end)
  | _ => false
  end.

(** [acts_on E ev k]: the call [ev] acts on the tweet whose id prints as
    [k]. *)
Inductive acts_on (E : Env) : event -> string -> Prop :=
| acts_like tweet_id :
    acts_on E (EvTwikit "like_tweet" [("tweet_id", tweet_id)])
      (py_str E tweet_id)
| acts_retweet tweet_id :
    acts_on E (EvTwikit "retweet" [("tweet_id", tweet_id)])
      (py_str E tweet_id)
| acts_follow tweet_id :
    acts_on E (EvTwikit "follow_user" [("user_id", tweet_id)])
      (py_str E tweet_id)
| acts_reply tweet_id text :
    acts_on E
      (EvTwikit "post"
         [("tweets", PList [PDict [("text", text); ("reply_to", tweet_id)]])])
      (py_str E tweet_id)
| acts_quote tweet_id text user_name :
    acts_on E
      (EvTwikit "post"
         [("tweets",
           PList [PDict [("text", text);
                         ("attachment_url",
                          PStr ("https://x.com/" ++ user_name ++ "/status/"
                                ++ py_str E tweet_id))]])])
      (py_str E tweet_id).

(** The state in which [get_event] loads the interacted tweet ids, after it
    has asked for the handles and filtered them, and what that load
    returns. *)
Definition after_handles (E : Env) (st : state) : state :=
  {| kv := kv st;
     trace :=
       ((trace st ++ [EvSubgraph])
        ++ [EvTwikit "filter_suspended_users"
              [("user_names",
                PList (map PStr (memeooorr_handles E (trace st))))]])%list |}.

(** The handles [get_event] goes through, and the part of it that follows
    the load (lines 304-344). *)
Definition filtered_handles (E : Env) (st : state) : list string :=
  twikit_filter_suspended_users E (trace st ++ [EvSubgraph])%list
    (memeooorr_handles E (trace st)).

Definition engage_with (E : Env) (agent_handles : list string)
  (interacted_tweet_ids : pyval) : M Event.t :=
  pending_tweets <-
    for_each agent_handles (collect_pending E interacted_tweet_ids) [] ;;
  r <- interact_twitter E pending_tweets ;;
  let '(event, new_interacted_tweet_ids) := r in
  match event with
  | Event.DONE =>
      interacted_tweet_ids <-
        lift (py_extend interacted_tweet_ids new_interacted_tweet_ids) ;;
      _write_kv "interacted_tweet_ids" (json_dumps E true interacted_tweet_ids) ;;;
      ret event
  | _ => ret event
  end.

Definition loaded_ledger (E : Env) (st : state) : result pyval :=
  fst (load_interacted_tweet_ids E (after_handles E st)).

(** Every latest tweet the social collaborator can return has an id that,
    as an integer, is in the ledger. *)
Definition all_candidates_interacted (E : Env) (ledger : pyval) : Prop :=
  forall h handle latest rest,
    twikit_get_user_tweets E h handle = latest :: rest ->
    exists z, int_of_str (tweet_id_of latest) = Some z
              /\ py_int_in E z ledger = Ok true.

(** ** twitter.py: the single-post pass *)

Module ActionTweetBehaviour.

(** [ActionTweetBehaviour.get_event] *)
Definition get_event (E : Env) : M Event.t :=
  pending_tweet <- lift (py_subscript (token_action E) "tweet") ;;
  latest_tweet <- post_tweet E [pending_tweet] false ;;
  ret match latest_tweet with
      | Some t => if py_truthy E t then Event.DONE else Event.ERROR
      | None => Event.ERROR
      end.

End ActionTweetBehaviour.

(** The part of a compiled pattern that captures an object: the group with
    a brace, anything, and a brace. *)
Definition object_group : list rx_item :=
  [RxOpen; RxAtom (RxLit "{") QOne; RxAtom RxAny QStar;
   RxAtom (RxLit "}") QOne; RxClose].

(** An event that is neither a call to the social collaborator nor a
    delay before one. *)
Definition no_social (ev : event) : Prop :=
  match ev with
  | EvTwikit _ _ | EvSleep _ => False
  | _ => True
  end.

(** The value under [key] is left as it was. *)
Definition keeps (key : string) (st st' : state) : Prop :=
  kv st' !! key = kv st !! key.

(** A store that holds the hearted nonces 3 and 5, and a world whose store
    cannot be read. *)
Definition hearted_state : state :=
  {| kv := {[ "hearted_memes" := "[3, 5]" ]}; trace := [] |}.

Definition unreadable_world : Env :=
  {| float_truthy := float_truthy heart_world;
     float_eq_int := float_eq_int heart_world;
     float_trunc := float_trunc heart_world;
     py_repr := py_repr heart_world;
     json_dumps := json_dumps heart_world;
     entropy := entropy heart_world;
     TX_HASH_LENGTH := TX_HASH_LENGTH heart_world;
     GnosisSafeContract_contract_id := GnosisSafeContract_contract_id heart_world;
     MemeFactoryContract_contract_id := MemeFactoryContract_contract_id heart_world;
     hash_payload_to_hex := hash_payload_to_hex heart_world;
     weighted_length := weighted_length heart_world;
     TWITTER_DECISION_PROMPT := TWITTER_DECISION_PROMPT heart_world;
     skip_engagement := skip_engagement heart_world;
     token_action := token_action heart_world;
     final_tx_hash := final_tx_hash heart_world;
     safe_contract_address := safe_contract_address heart_world;
     meme_factory_address := meme_factory_address heart_world;
     chain_id := chain_id heart_world;
     persona := persona heart_world;
     sync_time_str := sync_time_str heart_world;
     sync_timestamp := sync_timestamp heart_world;
     contract_api := contract_api heart_world;
     kv_read_ok := fun _ => false;
     memeooorr_handles := memeooorr_handles heart_world;
     twikit_filter_suspended_users := twikit_filter_suspended_users heart_world;
     twikit_get_user_tweets := twikit_get_user_tweets heart_world;
     twikit_success := twikit_success heart_world;
     twikit_post := twikit_post heart_world;
     twikit_search := twikit_search heart_world;
     genai := genai heart_world |}.

(** Alice's latest tweet is 111 and the model asks to like it, giving the
    id as a JSON string. *)
Definition fresh_like_world : Env :=
  world PNone None no_contracts ["alice"] (fun _ => [alice_tweet])
    (Some (dq ("```json" ++ nl ++ "[{'tweet_id':'111','action':'like'}]"
               ++ nl ++ "```"))) None.

(** The pending entry [get_event] makes of a latest tweet. *)
Definition pending_of (latest : tweet) : pending_tweet :=
  {| pt_text := tweet_text latest; pt_user_name := tweet_user_name latest |}.

(** The request [get_tx_hash] sends to the factory contract (lines
    283-290). *)
Definition build_request (E : Env) (action : pyval)
  (kwargs : list (string * pyval)) : contract_request :=
  {| rq_performative := GET_RAW_TRANSACTION;
     rq_contract_address := meme_factory_address E;
     rq_contract_id := MemeFactoryContract_contract_id E;
     rq_contract_callable := "build_" ++ py_str E action ++ "_tx";
     rq_chain_id := chain_id E;
     rq_kwargs := kwargs |}.

(** The names of the five token actions. *)
Definition routed_actions : list string :=
  ["summon"; "heart"; "unleash"; "collect"; "purge"].

(** A token action the router does not know, and one that comes with the
    text of a post. *)
Definition burn_world : Env :=
  world (PDict [("action", PStr "burn"); ("amount", PInt 9)]) None
    good_contracts [] (fun _ => []) None None.

Definition failing_world : Env :=
  world heart_action None no_contracts [] (fun _ => []) None None.

Definition announce_world : Env :=
  world (PDict [("action", PStr "heart"); ("tweet", PStr "gm frens")]) None
    no_contracts [] (fun _ => []) None None.

(** The search returns two replies that carry no counter. *)
Definition plain_replies : list pyval :=
  [PDict [("text", PStr "wagmi")]; PDict [("text", PStr "ngmi")]].

Definition plain_replies_world : Env :=
  world PNone None no_contracts [] (fun _ => []) None (Some plain_replies).

(** An event that is no call to the social collaborator. *)
Definition no_call (ev : event) : Prop :=
  match ev with
  | EvTwikit _ _ => False
  | _ => True
  end.

(** The actions [interact_twitter] acts upon. *)
Definition known_actions : list string :=
  ["tweet"; "like"; "follow"; "retweet"; "reply"; "quote"].

(** What [respond_tweet] makes of the answer to its post, and the state
    after the delay that precedes an interaction. *)
Definition posted (tweet_ids : option (list pyval)) : bool :=
  match tweet_ids with
  | Some (_ :: _) => true
  | _ => false
  end.

Definition delayed (E : Env) (st : state) : state :=
  {| kv := kv st;
     trace := (trace st ++ [EvSleep (entropy E (trace st) mod 5)])%list |}.

(** The model asks for a reply to alice's tweet. *)
Definition reply_decision : list (string * pyval) :=
  [("tweet_id", PStr "111"); ("action", PStr "reply"); ("text", PStr "gm gm")].

(** The state in which [post_tweet] finds the store after its post. *)
Definition after_post (st : state) (text : pyval) : state :=
  {| kv := kv st;
     trace := (trace st
               ++ [EvTwikit "post"
                     [("tweets", PList [PDict [("text", text)]])]])%list |}.

(** The store and the log after one engagement pass on an empty store, in
    the world where alice's latest tweet is 111 and the model asks to like
    it. *)
Definition first_pass_state : state :=
  snd (get_event fresh_like_world empty_state).

Definition like_111 : event :=
  EvTwikit "like_tweet" [("tweet_id", PStr "111")].

(** The part of [get_event] that ends with the call of [interact_twitter]
    (lines 285-330): what that call returns and the state it leaves. *)
Definition engagement_decisions (E : Env) (st : state)
  : result (Event.t * list pyval) * state :=
  (interacted_tweet_ids <- load_interacted_tweet_ids E ;;
   pending_tweets <-
     for_each (filtered_handles E st)
       (collect_pending E interacted_tweet_ids) [] ;;
   interact_twitter E pending_tweets) (after_handles E st).

(** The model's decoded answer holds a decision with the action [name]
    whose [tweet_id] value is [t]. *)
Definition decided (E : Env) (name : string) (t : pyval) : Prop :=
  exists h prompt response json_response interactions decision action,
    genai E h prompt = Some response
    /\ parse_json_from_llm response = Some json_response
    /\ py_iter json_response = Ok interactions
    /\ In decision interactions
    /\ py_get decision "tweet_id" = Ok t
    /\ py_get decision "action" = Ok action
    /\ py_eq_str action name = true.

(** A call of [follow_user] in the log has one argument, [user_id], and it
    is the [tweet_id] value of a follow decision on a pending tweet. *)
Definition follow_by_tweet_id (E : Env)
  (pending_tweets : list (string * pending_tweet)) (ev : event) : Prop :=
  forall kwargs,
    ev = EvTwikit "follow_user" kwargs ->
    exists t, kwargs = [("user_id", t)]
              /\ dict_has (py_str E t) pending_tweets = true
              /\ decided E "follow" t.

(** ** Predicates of the statements *)

(** [tracks R m]: every run of [m] takes a state to an [R]-related one. *)
Definition tracks (R : state -> state -> Prop) {A : Type} (m : M A) : Prop :=
  forall st, R st (snd (m st)).

(** [yields m Q]: a value returned by [m] satisfies [Q]. *)
Definition yields {A : Type} (m : M A) (Q : A -> Prop) : Prop :=
  forall st a st', m st = (Ok a, st') -> Q a.

(** The two relations used below: the store is left as it was, and the log
    grows by events that all satisfy [P]. *)
Definition same_kv (st st' : state) : Prop := kv st' = kv st.

Definition logs (P : event -> Prop) (st st' : state) : Prop :=
  exists evs, trace st' = (trace st ++ evs)%list /\ Forall P evs.

(** [g] occurs in [s]. *)
Definition is_substring (g s : string) : Prop :=
  exists pre post, s = pre ++ g ++ post.

(** No condition on the events of a log. *)
Definition any_event (ev : event) : Prop := True.

(** What a load of [key] does, case by case: a failed read gives the empty
    list with an error logged; a missing or empty value gives the empty
    list; any other text is decoded, and a text that does not decode raises
    [JSONDecodeError]. *)
Definition load_contract (E : Env) (key : string) (load : M pyval)
  (st : state) : Prop :=
  let read := {| kv := kv st; trace := (trace st ++ [EvKvRead [key]])%list |} in
  (kv_read_ok E (trace st) = false ->
   load st
   = (Ok (PList []),
      {| kv := kv st;
         trace := (trace read
                   ++ [EvLogError "Error while loading the database"])%list |}))
  /\ (kv_read_ok E (trace st) = true ->
      kv st !! key = None \/ kv st !! key = Some "" ->
      load st = (Ok (PList []), read))
  /\ (forall c text,
        kv_read_ok E (trace st) = true ->
        kv st !! key = Some (String c text) ->
        load st
        = (match json_loads (String c text) with
           | Some v => Ok v
           | None => Raise JSONDecodeError
           end, read)).


(** An event that is no interaction. *)
Definition quiet (ev : event) : Prop := is_interaction ev = false.

(** An interaction in the log acts on one of the pending tweets. *)
Definition on_pending (E : Env) (pending_tweets : list (string * pending_tweet))
  (ev : event) : Prop :=
  is_interaction ev = true ->
  exists k, acts_on E ev k /\ dict_has k pending_tweets = true.

(** The keys of the pending map are ids that, as integers, are not in the
    ledger. *)
Definition keys_fresh (E : Env) (ledger : pyval)
  (pending_tweets : list (string * pending_tweet)) : Prop :=
  forall k, dict_has k pending_tweets = true ->
    exists z, int_of_str k = Some z /\ py_int_in E z ledger = Ok false.

(** An interaction in the log acts on a tweet whose id, as an integer, is
    not in the ledger. *)
Definition on_fresh (E : Env) (ledger : pyval) (ev : event) : Prop :=
  is_interaction ev = true ->
  exists k z, acts_on E ev k /\ int_of_str k = Some z
              /\ py_int_in E z ledger = Ok false.

(** * Properties *)

(** ** Reasoning about the computations *)

Lemma bind_ok {A B : Type} (m : M A) (k : A -> M B) st a st1 :
  m st = (Ok a, st1) -> bind m k st = k a st1.
Proof. intros H. unfold bind. now rewrite H. Qed.

Lemma bind_raise {A B : Type} (m : M A) (k : A -> M B) st e st1 :
  m st = (Raise e, st1) -> bind m k st = (Raise e, st1).
Proof. intros H. unfold bind. now rewrite H. Qed.

Lemma bind_lift_ok {A B : Type} (r : result A) (a : A) (k : A -> M B) :
  r = Ok a -> bind (lift r) k = k a.
Proof. intros ->. reflexivity. Qed.

Lemma bind_inv {A B : Type} (m : M A) (k : A -> M B) st r st' :
  bind m k st = (r, st') ->
  (exists a st1, m st = (Ok a, st1) /\ k a st1 = (r, st'))
  \/ (exists e, m st = (Raise e, st') /\ r = Raise e).
Proof.
  unfold bind. destruct (m st) as [[a|e] st1]; intros H.
  - left. eauto.
  - right. inversion H; subst. eauto.
Qed.

Section Tracks.

Variable R : state -> state -> Prop.
Hypothesis R_refl : forall st, R st st.
Hypothesis R_trans : forall a b c, R a b -> R b c -> R a c.

Lemma tracks_ret {A : Type} (a : A) : tracks R (ret a).
Proof. intros st. apply R_refl. Qed.

Lemma tracks_raise {A : Type} e : tracks R (@raise A e).
Proof. intros st. apply R_refl. Qed.

Lemma tracks_lift {A : Type} (r : result A) : tracks R (lift r).
Proof. destruct r; [apply tracks_ret | apply tracks_raise]. Qed.

Lemma tracks_history : tracks R history.
Proof. intros st. apply R_refl. Qed.

Lemma tracks_dropped {A : Type} (g : M A) : tracks R (dropped_generator g).
Proof. intros st. apply R_refl. Qed.

Lemma tracks_bind_yields {A B : Type} (m : M A) (k : A -> M B) Q :
  tracks R m -> yields m Q -> (forall a, Q a -> tracks R (k a)) ->
  tracks R (bind m k).
Proof.
  intros Hm HQ Hk st. unfold bind.
  specialize (Hm st). destruct (m st) as [[a|e] st1] eqn:Em; simpl in *.
  - eapply R_trans; [exact Hm|]. apply Hk. eapply HQ; eauto.
  - exact Hm.
Qed.

Lemma tracks_bind {A B : Type} (m : M A) (k : A -> M B) :
  tracks R m -> (forall a, tracks R (k a)) -> tracks R (bind m k).
Proof.
  intros Hm Hk. apply tracks_bind_yields with (Q := fun _ => True); auto.
  intros st a st' _. exact I.
Qed.

Lemma tracks_for_each {A S : Type} (l : list A) (body : A -> S -> M S)
  (Inv : S -> Prop) :
  (forall x s, Inv s -> tracks R (body x s)) ->
  (forall x s, Inv s -> yields (body x s) Inv) ->
  forall s, Inv s -> tracks R (for_each l body s).
Proof.
  intros Hb Hi. induction l as [|x l IH]; intros s Hs; simpl.
  - apply tracks_ret.
  - eapply tracks_bind_yields; eauto.
Qed.

End Tracks.

Lemma yields_ret {A : Type} (a : A) (Q : A -> Prop) : Q a -> yields (ret a) Q.
Proof. intros H st a' st' E. inversion E; subst. exact H. Qed.

Lemma yields_bind {A B : Type} (m : M A) (k : A -> M B) Q1 Q :
  yields m Q1 -> (forall a, Q1 a -> yields (k a) Q) -> yields (bind m k) Q.
Proof.
  intros Hm Hk st b st' E. apply bind_inv in E as [(a & st1 & E1 & E2)|(e & _ & E2)].
  - eapply Hk; eauto.
  - discriminate.
Qed.

Lemma yields_any {A : Type} (m : M A) : yields m (fun _ => True).
Proof. intros st a st' _. exact I. Qed.

Lemma yields_lift {A : Type} (r : result A) (Q : A -> Prop) :
  (forall a, r = Ok a -> Q a) -> yields (lift r) Q.
Proof.
  intros H st a st' E. destruct r; simpl in E; inversion E; subst. now apply H.
Qed.

Lemma yields_for_each {A S : Type} (l : list A) (body : A -> S -> M S)
  (Inv : S -> Prop) :
  (forall x s, Inv s -> yields (body x s) Inv) ->
  forall s, Inv s -> yields (for_each l body s) Inv.
Proof.
  intros Hi. induction l as [|x l IH]; intros s Hs; simpl.
  - now apply yields_ret.
  - eapply yields_bind; eauto.
Qed.

Lemma same_kv_refl st : same_kv st st.
Proof. reflexivity. Qed.

Lemma same_kv_trans a b c : same_kv a b -> same_kv b c -> same_kv a c.
Proof. unfold same_kv. congruence. Qed.

Lemma logs_refl P st : logs P st st.
Proof. exists []. split; [now rewrite app_nil_r | constructor]. Qed.

Lemma logs_trans P a b c : logs P a b -> logs P b c -> logs P a c.
Proof.
  intros (e1 & H1 & F1) (e2 & H2 & F2). exists (e1 ++ e2)%list. split.
  - rewrite H2, H1. now rewrite app_assoc.
  - apply Forall_app. now split.
Qed.

Lemma same_kv_emit ev : tracks same_kv (emit ev).
Proof. intros st. reflexivity. Qed.

Lemma logs_emit (P : event -> Prop) ev : P ev -> tracks (logs P) (emit ev).
Proof. intros H st. exists [ev]. split; [reflexivity | now repeat constructor]. Qed.

Lemma logs_write_kv (P : event -> Prop) key value :
  P (EvKvWrite key value) -> tracks (logs P) (_write_kv key value).
Proof.
  intros H st. exists [EvKvWrite key value].
  split; [reflexivity | now repeat constructor].
Qed.

Lemma logs_read_kv E (P : event -> Prop) keys :
  P (EvKvRead keys) -> tracks (logs P) (_read_kv E keys).
Proof.
  intros H st. exists [EvKvRead keys]. split; [|now repeat constructor].
  unfold _read_kv, bind, history, emit. simpl.
  destruct (kv_read_ok E (trace st)); reflexivity.
Qed.

Lemma same_kv_read_kv E keys : tracks same_kv (_read_kv E keys).
Proof.
  intros st. unfold _read_kv, bind, history, emit. simpl.
  destruct (kv_read_ok E (trace st)); reflexivity.
Qed.

Lemma yields_raise {A : Type} e (Q : A -> Prop) : yields (@raise A e) Q.
Proof. intros st a st' H. discriminate. Qed.

(** Proof steps that follow the shape of a computation. *)
Ltac tracks_step Rrefl Rtrans leaf :=
  first
    [ apply (tracks_ret _ Rrefl)
    | apply (tracks_raise _ Rrefl)
    | apply (tracks_lift _ Rrefl)
    | apply (tracks_history _ Rrefl)
    | apply (tracks_dropped _ Rrefl)
    | leaf
    | apply (tracks_bind _ Rtrans); [ | intros ? ]
    | match goal with
      | |- tracks _ (match ?x with _ => _ end) => destruct x eqn:?
      end ].

Ltac logs_leaf :=
  first [ apply logs_emit | apply logs_read_kv | apply logs_write_kv ].

Ltac logs_auto P :=
  cbv beta;
  repeat (tracks_step (logs_refl P) (logs_trans P) logs_leaf; cbv beta).

Ltac same_kv_leaf := first [ apply same_kv_emit | apply same_kv_read_kv ].

Ltac same_kv_auto :=
  cbv beta;
  repeat (tracks_step same_kv_refl same_kv_trans same_kv_leaf; cbv beta).

Ltac logs_any := logs_auto any_event; try exact I.

(** ** The extraction patterns *)

Lemma string_take_prefix n a : exists post, a = string_take n a ++ post.
Proof.
  revert a. induction n as [|n IH]; intros a.
  - exists a. now destruct a.
  - destruct a as [|c a]; [now exists EmptyString|].
    destruct (IH a) as [post Hp]. exists post. rewrite Hp at 1. reflexivity.
Qed.

(** A match moves the start of the group only to a position inside the
    subject. *)
Lemma rx_match_start re : forall s a b a' b',
  rx_match re s (a, b) = Some (a', b') ->
  a' = a \/ exists pre, s = pre ++ a'.
Proof.
  induction re as [|item re IH]; intros s a b a' b' H.
  - simpl in H. inversion H. now left.
  - destruct item as [cls q| |].
    + destruct q.
      * simpl in H. destruct s as [|c s]; [discriminate|].
        destruct (cls_matches cls c); [|discriminate].
        apply IH in H as [->|[pre ->]]; [now left|].
        right. now exists (String c pre).
      * assert (Hskip : rx_match re s (a, b) = Some (a', b') ->
                        a' = a \/ exists pre, s = pre ++ a') by apply IH.
        simpl in H. destruct s as [|c s]; [now apply Hskip|].
        destruct (cls_matches cls c); [|now apply Hskip].
        destruct (rx_match re s (a, b)) as [r|] eqn:Er; [|now apply Hskip].
        inversion H; subst r.
        apply IH in Er as [->|[pre ->]]; [now left|].
        right. now exists (String c pre).
      * simpl in H. revert H. induction s as [|c s IHs]; intros H.
        -- now apply IH in H.
        -- destruct (cls_matches cls c); [|now apply IH in H].
           match type of H with
           | match ?x with _ => _ end = _ => destruct x as [r|] eqn:Er
           end; [|now apply IH in H].
           inversion H; subst r.
           destruct (IHs eq_refl) as [->|[pre ->]]; [now left|].
           right. now exists (String c pre).
    + simpl in H. apply IH in H as [->|[pre ->]].
      * right. now exists EmptyString.
      * right. now exists pre.
    + simpl in H. now apply IH in H.
Qed.

Lemma rx_search_substring re : forall s g,
  rx_search re s = Some g -> is_substring g s.
Proof.
  induction s as [|c s IH]; intros g H; simpl in H.
  - destruct (rx_match re EmptyString (EmptyString, EmptyString))
      as [[a b]|] eqn:Em; [|discriminate].
    inversion H; subst g. apply rx_match_start in Em as [->|[pre Hp]].
    + exists EmptyString, EmptyString. unfold rx_group. simpl.
      now destruct (0 - String.length b)%nat.
    + destruct (string_take_prefix
                  (String.length a - String.length b) a) as [post Hq].
      exists pre, post. unfold rx_group. simpl. now rewrite <- Hq.
  - destruct (rx_match re (String c s) (EmptyString, EmptyString))
      as [[a b]|] eqn:Em.
    + inversion H; subst g. apply rx_match_start in Em as [->|[pre Hp]].
      * exists EmptyString, (String c s). unfold rx_group. simpl.
        now destruct (0 - String.length b)%nat.
      * destruct (string_take_prefix
                    (String.length a - String.length b) a) as [post Hq].
        exists pre, post. unfold rx_group. simpl. now rewrite <- Hq.
    + apply IH in H as (pre & post & ->). now exists (String c pre), post.
Qed.

Lemma first_decoded_sound regexes response v :
  first_decoded regexes response = Some v ->
  exists group, is_substring group response /\ json_loads group = Some v.
Proof.
  induction regexes as [|regex regexes IH]; simpl; [discriminate|].
  destruct (try_regex regex response) as [w|] eqn:Et; [|exact IH].
  intros H; inversion H; subst w. unfold try_regex, re_search in Et.
  destruct (rx_search (re_compile regex) response) as [group|] eqn:Es;
    [|discriminate].
  exists group. split; [|exact Et]. eapply rx_search_substring; eauto.
Qed.

(** C5.  [parse_json_from_llm] tries the three patterns in their listed
    order and returns the first group that decodes: it recovers the object
    with key [a] and value 1 from the plain form, from the parenthesised
    form and from the fenced block; it returns [None] for prose; and
    whatever it returns is the decoding of a piece of the response, so a
    response no piece of which is JSON gives [None]. *)
Theorem parse_json_from_llm_patterns :
  parse_json_from_llm (dq "json{'a':1}") = Some (PDict [("a", PInt 1)])
  /\ parse_json_from_llm (dq "json({'a':1})") = Some (PDict [("a", PInt 1)])
  /\ parse_json_from_llm (dq ("```json" ++ nl ++ "{'a':1}" ++ nl ++ "```"))
     = Some (PDict [("a", PInt 1)])
  /\ parse_json_from_llm "I think this tweet is great, nothing to add." = None
  /\ (forall response,
        parse_json_from_llm response =
        match try_regex "json.?({.*})" response with
        | Some loaded => Some loaded
        | None =>
            match try_regex "json({.*})" response with
            | Some loaded => Some loaded
            | None => try_regex "\`\`\`json(.*)\`\`\`" response
            end
        end)
  /\ (forall response loaded,
        parse_json_from_llm response = Some loaded ->
        exists group,
          is_substring group response /\ json_loads group = Some loaded).
Proof.
  repeat split; try (vm_compute; reflexivity).
  - intros response. unfold parse_json_from_llm, JSON_RESPONSE_REGEXES.
    simpl. repeat (match goal with
                   | |- context [match ?x with _ => _ end] => destruct x
                   end; try reflexivity).
  - intros response loaded. apply first_decoded_sound.
Qed.

Lemma parse_json_from_llm_patterns_witness :
  exists group,
    is_substring group (dq "json{'a':1}")
    /\ json_loads group = Some (PDict [("a", PInt 1)]).
Proof.
  apply (proj2 (proj2 (proj2 (proj2 (proj2 parse_json_from_llm_patterns))))).
  vm_compute. reflexivity.
Defined.

(** ** The safe transaction hash *)

(** C6.  [_build_safe_tx_hash] returns [None], and raises nothing, when
    the safe contract's response is not of kind [STATE], when it carries no
    hash, and when the hash it carries has a length other than
    [TX_HASH_LENGTH]; a hash of exactly that length, and only such a hash,
    goes on to [hash_payload_to_hex], without its first two characters and
    together with the value, a gas of zero, the address and the data. *)
Theorem build_safe_tx_hash_shape (E : Env) (to_address : string) (value : Z)
  (data : list Byte.byte) (st : state) :
  let response_msg :=
    contract_api E (trace st) (safe_hash_request E to_address value data) in
  let outcome := fst (_build_safe_tx_hash E to_address value data st) in
  (performative response_msg <> STATE -> outcome = Ok None)
  /\ (performative response_msg = STATE ->
      body_tx_hash response_msg = None -> outcome = Ok None)
  /\ (forall tx_hash,
        performative response_msg = STATE ->
        body_tx_hash response_msg = Some tx_hash ->
        String.length tx_hash <> TX_HASH_LENGTH E -> outcome = Ok None)
  /\ (forall tx_hash,
        performative response_msg = STATE ->
        body_tx_hash response_msg = Some tx_hash ->
        String.length tx_hash = TX_HASH_LENGTH E ->
        outcome =
        match hash_payload_to_hex E (string_drop 2 tx_hash) value 0
                to_address data with
        | Ok safe_tx_hash => Ok (Some safe_tx_hash)
        | Raise e => Raise e
        end)
  /\ (forall safe_tx_hash,
        outcome = Ok (Some safe_tx_hash) ->
        exists tx_hash,
          performative response_msg = STATE
          /\ body_tx_hash response_msg = Some tx_hash
          /\ String.length tx_hash = TX_HASH_LENGTH E
          /\ hash_payload_to_hex E (string_drop 2 tx_hash) value 0
               to_address data = Ok safe_tx_hash).
Proof.
  intros response_msg outcome.
  assert (Ho : outcome =
    match performative response_msg with
    | STATE =>
        match body_tx_hash response_msg with
        | None => Ok None
        | Some tx_hash =>
            if negb (Nat.eqb (String.length tx_hash) (TX_HASH_LENGTH E))
            then Ok None
            else
              match hash_payload_to_hex E (string_drop 2 tx_hash) value 0
                      to_address data with
              | Ok safe_tx_hash => Ok (Some safe_tx_hash)
              | Raise e => Raise e
              end
        end
    | _ => Ok None
    end).
  { subst outcome response_msg.
    unfold _build_safe_tx_hash, get_contract_api_response, bind, history,
      emit, logger_error, ret, lift, SAFE_GAS. simpl.
    destruct (performative _); try reflexivity.
    destruct (body_tx_hash _) as [tx_hash|]; try reflexivity.
    destruct (negb _); try reflexivity.
    destruct (hash_payload_to_hex _ _ _ _ _ _); reflexivity. }
  rewrite Ho. clear Ho outcome. repeat split.
  - intros Hp. destruct (performative response_msg); congruence.
  - intros -> ->. reflexivity.
  - intros tx_hash -> -> Hl. apply Nat.eqb_neq in Hl. now rewrite Hl.
  - intros tx_hash -> -> Hl. apply Nat.eqb_eq in Hl. now rewrite Hl.
  - intros safe_tx_hash H.
    destruct (performative response_msg); try discriminate.
    destruct (body_tx_hash response_msg) as [tx_hash|]; try discriminate.
    destruct (Nat.eqb (String.length tx_hash) (TX_HASH_LENGTH E)) eqn:El;
      simpl in H; try discriminate.
    apply Nat.eqb_eq in El. exists tx_hash. repeat split; auto.
    destruct (hash_payload_to_hex _ _ _ _ _ _); congruence.
Qed.

Lemma build_safe_tx_hash_shape_witness :
  fst (_build_safe_tx_hash heart_world "0xFactory" 1000 [Byte.xab; Byte.xcd]
         empty_state)
  = Ok (Some "1111111111111111111111111111111111111111111111111111111111111111|1000|0|0xFactory|abcd").
Proof.
  refine (proj1 (proj2 (proj2 (proj2
            (build_safe_tx_hash_shape heart_world "0xFactory" 1000
               [Byte.xab; Byte.xcd] empty_state))))
            "0x1111111111111111111111111111111111111111111111111111111111111111"
            _ _ _); reflexivity.
Defined.

(** ** The hearted memes and the summoned tokens *)

Lemma get_contract_api_response_same_kv E rq :
  tracks same_kv (get_contract_api_response E rq).
Proof. unfold get_contract_api_response. same_kv_auto. Qed.

Lemma get_token_nonce_same_kv E : tracks same_kv (get_token_nonce E).
Proof.
  unfold get_token_nonce, logger_error.
  apply (tracks_bind same_kv same_kv_trans);
    [apply get_contract_api_response_same_kv | intros response_msg].
  same_kv_auto.
Qed.

(** Only a [dict] can be subscripted with a key, and a [dict] equals no
    string. *)
Lemma py_subscript_dict v k x :
  py_subscript v k = Ok x -> exists d, v = PDict d.
Proof. destruct v; simpl; try discriminate. eauto. Qed.

(** [post_action] writes nothing to the store, whatever the token action
    and whatever the collaborators answer: the two guards compare the whole
    token action with action names, and the second write is a generator
    that is never run. *)
Lemma post_action_same_kv E : tracks same_kv (post_action E).
Proof.
  unfold post_action, logger_error.
  apply (tracks_bind same_kv same_kv_trans);
    [apply get_token_nonce_same_kv | intros token_nonce].
  apply (tracks_bind_yields same_kv same_kv_trans) with
    (Q := fun _ => exists d, token_action E = PDict d).
  - same_kv_auto.
  - apply yields_lift. intros a Ha. eapply py_subscript_dict; eauto.
  - intros _ [d Hd]. rewrite Hd. simpl.
    destruct token_nonce as [[|n|n]|]; same_kv_auto.
Qed.

(** While no final hash is known, [get_tx_hash] writes nothing to the
    store either, the heart action included. *)
Lemma get_tx_hash_same_kv E : tracks same_kv (get_tx_hash E).
Proof.
  unfold get_tx_hash, logger_error.
  destruct (final_tx_hash E).
  - apply (tracks_bind same_kv same_kv_trans);
      [apply post_action_same_kv | intros _]. same_kv_auto.
  - destruct (negb _); [same_kv_auto|].
    apply (tracks_bind same_kv same_kv_trans); [same_kv_auto | intros action].
    apply (tracks_bind same_kv same_kv_trans); [same_kv_auto | intros kwargs].
    apply (tracks_bind same_kv same_kv_trans);
      [apply get_contract_api_response_same_kv | intros response_msg].
    same_kv_auto.
Qed.

(** C1.  Preparing a heart of nonce 5 on an empty store returns the safe
    transaction hash and leaves the store empty: the key [hearted_memes] is
    never written, and the store is not even read. *)
Theorem get_tx_hash_heart_not_stored :
  fst (get_tx_hash heart_world empty_state)
  = Ok (Some "1111111111111111111111111111111111111111111111111111111111111111|1000|0|0xFactory|abcd")
  /\ kv (snd (get_tx_hash heart_world empty_state)) !! "hearted_memes" = None
  /\ Forall (fun ev => match ev with
                       | EvKvWrite _ _ | EvKvRead _ => False
                       | _ => True
                       end)
       (trace (snd (get_tx_hash heart_world empty_state)))
  /\ kv (snd (store_heart heart_world (PInt 5) empty_state)) !! "hearted_memes"
     = Some "[5]".
Proof.
  repeat split; try (vm_compute; reflexivity).
  vm_compute. repeat constructor.
Qed.

(** C2.  After a settled summon whose deployment event carries nonce 7,
    [get_tx_hash] runs [post_action] and returns the empty hash, and the
    store holds neither [summoned_tokens] nor [hearted_memes]: nothing was
    written. *)
Theorem post_action_summon_not_stored :
  fst (get_token_nonce summon_settled_world empty_state) = Ok (Some 7)
  /\ fst (get_tx_hash summon_settled_world empty_state) = Ok (Some "")
  /\ kv (snd (post_action summon_settled_world empty_state))
       !! "summoned_tokens" = None
  /\ kv (snd (post_action summon_settled_world empty_state))
       !! "hearted_memes" = None
  /\ Forall (fun ev => match ev with
                       | EvKvWrite _ _ => False
                       | _ => True
                       end)
       (trace (snd (post_action summon_settled_world empty_state))).
Proof.
  repeat split; try (vm_compute; reflexivity).
  vm_compute. repeat constructor.
Qed.

(** ** Events of a run *)

(** The log of a contract call followed by anything starts with the call. *)
Lemma contract_call_first {B : Type} E rq (k : contract_response -> M B) st :
  (forall response_msg, tracks (logs any_event) (k response_msg)) ->
  exists evs,
    trace (snd (bind (get_contract_api_response E rq) k st))
    = (trace st ++ EvContract rq :: evs)%list.
Proof.
  intros Hk. unfold get_contract_api_response, bind, history, emit, ret.
  simpl.
  destruct (Hk (contract_api E (trace st) rq)
              {| kv := kv st; trace := (trace st ++ [EvContract rq])%list |})
    as (evs & Ht & _).
  exists evs. rewrite Ht. simpl. now rewrite <- app_assoc.
Qed.

(** ** Action routing *)

(** C8.  For each of the five token actions, the contract call of
    [get_tx_hash] names the callable [build_<action>_tx] and passes exactly
    the keyword arguments of the routing table: name, ticker and supply for
    a summon, the nonce alone for heart and unleash, the address alone for
    collect and purge. *)
Theorem action_routing (E : Env) (k : action_kind)
  (fields kwargs : list (string * pyval)) (st : state) :
  final_tx_hash E = None ->
  token_action E = PDict fields ->
  dict_get "action" fields = Some (PStr (action_name k)) ->
  routing_table E k fields = Some kwargs ->
  exists evs,
    trace (snd (get_tx_hash E st))
    = (trace st
       ++ EvContract
            {| rq_performative := GET_RAW_TRANSACTION;
               rq_contract_address := meme_factory_address E;
               rq_contract_id := MemeFactoryContract_contract_id E;
               rq_contract_callable := "build_" ++ action_name k ++ "_tx";
               rq_chain_id := chain_id E;
               rq_kwargs := kwargs |} :: evs)%list.
Proof.
  intros Hfinal Htoken Haction Htable.
  unfold get_tx_hash. rewrite Hfinal, Htoken.
  assert (Htruthy : py_truthy E (PDict fields) = true).
  { destruct fields; [discriminate | reflexivity]. }
  rewrite Htruthy. cbn [negb].
  assert (Hsub : py_subscript (PDict fields) "action"
                 = Ok (PStr (action_name k))).
  { simpl. now rewrite Haction. }
  rewrite (bind_lift_ok _ _ _ Hsub).
  assert (Hroute : route_kwargs E (PDict fields) (PStr (action_name k))
                   = Ok kwargs).
  { unfold route_kwargs, routing_table in *.
    destruct k; simpl in *.
    - destruct (dict_get "token_name" fields); [|discriminate].
      destruct (dict_get "token_ticker" fields); [|discriminate].
      destruct (dict_get "token_supply" fields); [|discriminate].
      destruct (py_int E p1); [|discriminate]. now inversion Htable.
    - destruct (dict_get "token_nonce" fields); [|discriminate].
      now inversion Htable.
    - destruct (dict_get "token_nonce" fields); [|discriminate].
      now inversion Htable.
    - destruct (dict_get "token_address" fields); [|discriminate].
      now inversion Htable.
    - destruct (dict_get "token_address" fields); [|discriminate].
      now inversion Htable. }
  rewrite (bind_lift_ok _ _ _ Hroute). cbn [py_str].
  apply contract_call_first. intros response_msg.
  unfold logger_error.
  logs_any.
Qed.

Lemma action_routing_witness :
  exists evs,
    trace (snd (get_tx_hash heart_world empty_state))
    = (trace empty_state
       ++ EvContract
            {| rq_performative := GET_RAW_TRANSACTION;
               rq_contract_address := meme_factory_address heart_world;
               rq_contract_id := MemeFactoryContract_contract_id heart_world;
               rq_contract_callable := "build_" ++ action_name Heart ++ "_tx";
               rq_chain_id := chain_id heart_world;
               rq_kwargs := [("meme_nonce", PInt 5)] |} :: evs)%list.
Proof.
  apply (action_routing heart_world Heart
           [("action", PStr "heart"); ("token_nonce", PInt 5);
            ("amount", PInt 1000)]); reflexivity.
Defined.

(** ** The engagement pass *)

(** C3.  With the pending tweet 111 of alice and the model answering the
    plain form of one like decision, the first pattern captures the object
    inside the brackets, the loop then draws the object's keys, and the
    pass raises [AttributeError] at the first of them: the social
    collaborator is never called.  The same decision list in a fenced block
    is decoded as a list and the pass likes tweet 111 and returns [DONE]
    with that id. *)
Theorem interact_twitter_like_scenario :
  parse_json_from_llm (dq "json[{'tweet_id':'111','action':'like'}]")
  = Some (PDict [("tweet_id", PStr "111"); ("action", PStr "like")])
  /\ fst (interact_twitter like_world gm_pending empty_state)
     = Raise AttributeError
  /\ Forall (fun ev => match ev with
                       | EvTwikit _ _ => False
                       | _ => True
                       end)
       (trace (snd (interact_twitter like_world gm_pending empty_state)))
  /\ interact_twitter fenced_like_world gm_pending empty_state
     = (Ok (Event.DONE, [PStr "111"]),
        {| kv := ∅;
           trace :=
             [EvKvRead ["tweets"];
              EvGenai (join nl ["degen bot"; "No previous tweets";
                                "tweet_id: 111" ++ nl ++ "tweet_text: gm";
                                "2024-12-01 00:00:00"]);
              EvSleep 3;
              EvTwikit "like_tweet" [("tweet_id", PStr "111")]] |}).
Proof.
  repeat split; try (vm_compute; reflexivity).
  vm_compute. repeat constructor.
Qed.

(** One turn of the loop on a decision whose action is [follow] and whose
    tweet is pending: it sleeps and then calls [follow_user] with the
    decision's tweet id as [user_id]; the author's [user_name], which the
    pending map holds, takes no part in the call. *)
Lemma interact_one_follow (E : Env)
  (pending_tweets : list (string * pending_tweet))
  (decision : list (string * pyval)) (new_ids : list pyval) (st : state) :
  let tweet_id := default PNone (dict_get "tweet_id" decision) in
  let slept :=
    {| kv := kv st;
       trace := (trace st ++ [EvSleep (entropy E (trace st) mod 5)])%list |} in
  dict_get "action" decision = Some (PStr "follow") ->
  dict_has (py_str E tweet_id) pending_tweets = true ->
  interact_one E pending_tweets (PDict decision) new_ids st
  = (Ok (if twikit_success E (trace slept) "follow_user" tweet_id
         then (new_ids ++ [tweet_id])%list else new_ids),
     {| kv := kv st;
        trace := (trace slept
                  ++ [EvTwikit "follow_user" [("user_id", tweet_id)]])%list |}).
Proof.
  intros tweet_id slept Haction Hpending.
  unfold dict_has in Hpending.
  destruct (dict_get (py_str E tweet_id) pending_tweets) as [p|] eqn:Ep;
    [|discriminate].
  unfold interact_one, py_get. rewrite Haction. fold tweet_id.
  do 3 (unfold bind at 1; cbn [lift ret default]).
  cbn [py_eq_str String.eqb Ascii.eqb Bool.eqb andb negb].
  unfold dict_has. rewrite Ep. cbn [andb negb].
  unfold randbelow, sleep, follow_user, _call_twikit_success, history, emit.
  unfold bind, ret. cbn [kv trace].
  reflexivity.
Qed.

(** ** Loading the dedup collections *)

Lemma dict_get_head {V : Type} (k : string) (v : V) d :
  dict_get k ((k, v) :: d) = Some v.
Proof. simpl. now rewrite String.eqb_refl. Qed.

(** C9 (as the code has it).  The loads of [hearted_memes] in
    [store_heart] and of [interacted_tweet_ids] in [get_event] return the
    empty list when the store read fails, logging an error, and when the
    key is missing or empty; a stored text that is not JSON is not caught:
    the load raises [JSONDecodeError]. *)
Theorem load_resilience (E : Env) (st : state) :
  load_contract E "hearted_memes" (load_hearted_memes E) st
  /\ load_contract E "interacted_tweet_ids" (load_interacted_tweet_ids E) st.
Proof.
  split; unfold load_contract; repeat split.
  all: unfold load_hearted_memes, load_interacted_tweet_ids, _read_kv,
         logger_error, history, emit, bind, lift, db_value,
         loads_or_raise, raise, ret; cbn [kv trace map].
  - intros ->. reflexivity.
  - intros Hok [Hk|Hk]; rewrite Hok; cbn [kv trace]; rewrite Hk;
      rewrite dict_get_head; reflexivity.
  - intros c text Hok Hk. rewrite Hok. cbn [kv trace]. rewrite Hk.
    rewrite dict_get_head. cbn [or_empty_list].
    destruct (json_loads (String c text)); reflexivity.
  - intros ->. reflexivity.
  - intros Hok [Hk|Hk]; rewrite Hok; cbn [kv trace]; rewrite Hk;
      rewrite dict_get_head; reflexivity.
  - intros c text Hok Hk. rewrite Hok. cbn [kv trace]. rewrite Hk.
    rewrite dict_get_head. cbn [or_empty_list].
    destruct (json_loads (String c text)); reflexivity.
Qed.

Lemma load_resilience_witness :
  load_interacted_tweet_ids silent_world seen_state
  = (Ok (PList [PInt 111]),
     {| kv := kv seen_state;
        trace := [EvKvRead ["interacted_tweet_ids"]] |}).
Proof.
  refine (proj2 (proj2 (proj2 (load_resilience silent_world seen_state)))
            "["%char "111]" _ _); reflexivity.
Defined.

(** C9, as stated, fails on text that is not JSON: with [oops] stored
    under both keys, the load of the interacted tweet ids raises, and so do
    [get_event] and [store_heart]. *)
Lemma load_garbled_raises :
  fst (load_interacted_tweet_ids silent_world garbled_state)
  = Raise JSONDecodeError
  /\ fst (get_event silent_world garbled_state) = Raise JSONDecodeError
  /\ fst (load_hearted_memes heart_world garbled_state) = Raise JSONDecodeError
  /\ fst (store_heart heart_world (PInt 5) garbled_state)
     = Raise JSONDecodeError.
Proof. repeat split; vm_compute; reflexivity. Qed.

(** ** The Feedback Ranker *)









(** ** Dedup in the engagement pass *)

Lemma logs_weaken (P Q : event -> Prop) {A : Type} (m : M A) :
  (forall ev, P ev -> Q ev) -> tracks (logs P) m -> tracks (logs Q) m.
Proof.
  intros HPQ Hm st. destruct (Hm st) as (evs & Ht & Hf).
  exists evs. split; [exact Ht|]. eapply Forall_impl; eauto.
Qed.

Lemma quiet_on_pending E pending_tweets ev :
  quiet ev -> on_pending E pending_tweets ev.
Proof. unfold quiet, on_pending. congruence. Qed.

Lemma get_tweets_from_db_quiet E : tracks (logs quiet) (get_tweets_from_db E).
Proof.
  unfold get_tweets_from_db, logger_error. logs_auto quiet; reflexivity.
Qed.

Lemma post_tweet_quiet E text store :
  tracks (logs quiet) (post_tweet E [text] store).
Proof.
  unfold post_tweet, _call_twikit_post, logger_error.
  apply (tracks_bind _ (logs_trans quiet)); [logs_auto quiet; reflexivity|].
  intros tweet_ids. destruct tweet_ids as [[|first_id ids]|];
    logs_auto quiet; reflexivity.
Qed.

Lemma interact_one_on_pending E pending_tweets interaction new_ids :
  tracks (logs (on_pending E pending_tweets))
    (interact_one E pending_tweets interaction new_ids).
Proof.
  set (P := on_pending E pending_tweets).
  assert (Hq : forall A (m : M A), tracks (logs quiet) m -> tracks (logs P) m).
  { intros A m. apply logs_weaken. apply quiet_on_pending. }
  unfold interact_one.
  apply (tracks_bind _ (logs_trans P)); [logs_auto P | intros tweet_id].
  apply (tracks_bind _ (logs_trans P)); [logs_auto P | intros action].
  apply (tracks_bind _ (logs_trans P)); [logs_auto P | intros text].
  destruct (py_eq_str action "none"); [logs_auto P|].
  destruct (_ && _); [logs_auto P|].
  apply (tracks_bind _ (logs_trans P)).
  { unfold randbelow. logs_auto P. }
  intros delay.
  apply (tracks_bind _ (logs_trans P)).
  { apply Hq. unfold sleep. logs_auto quiet. reflexivity. }
  intros _.
  destruct (py_eq_str action "tweet").
  { apply (tracks_bind _ (logs_trans P));
      [apply Hq, post_tweet_quiet | intros; logs_auto P]. }
  destruct (dict_get (py_str E tweet_id) pending_tweets) as [p|] eqn:Ep;
    [|logs_auto P].
  assert (Hk : dict_has (py_str E tweet_id) pending_tweets = true).
  { unfold dict_has. now rewrite Ep. }
  unfold like_tweet, follow_user, retweet, respond_tweet,
    _call_twikit_success, _call_twikit_post, logger_error.
  logs_auto P.
  all: try (intros _; eexists; split; [constructor | exact Hk]).
  all: apply quiet_on_pending; reflexivity.
Qed.

Lemma interact_twitter_on_pending E pending_tweets :
  tracks (logs (on_pending E pending_tweets))
    (interact_twitter E pending_tweets).
Proof.
  set (P := on_pending E pending_tweets).
  assert (Hq : forall A (m : M A), tracks (logs quiet) m -> tracks (logs P) m).
  { intros A m. apply logs_weaken. apply quiet_on_pending. }
  unfold interact_twitter.
  apply (tracks_bind _ (logs_trans P));
    [apply Hq, get_tweets_from_db_quiet | intros tweets].
  apply (tracks_bind _ (logs_trans P)); [logs_auto P | intros previous].
  apply (tracks_bind _ (logs_trans P)).
  { apply Hq. unfold _call_genai. logs_auto quiet. reflexivity. }
  intros llm_response. destruct llm_response as [llm_response|].
  2:{ apply Hq. unfold logger_error. logs_auto quiet. reflexivity. }
  destruct (parse_json_from_llm llm_response) as [json_response|];
    [|logs_auto P].
  destruct (negb _); [logs_auto P|].
  apply (tracks_bind _ (logs_trans P)); [logs_auto P | intros interactions].
  apply (tracks_bind _ (logs_trans P)); [|intros; logs_auto P].
  apply (tracks_for_each _ (logs_refl P) (logs_trans P))
    with (Inv := fun _ => True); auto.
  - intros x s _. apply interact_one_on_pending.
  - intros x s _. apply yields_any.
Qed.

(** The ids a turn of the loop adds are ids of pending tweets. *)
Lemma interact_one_ids E pending_tweets interaction new_ids :
  Forall (fun t => dict_has (py_str E t) pending_tweets = true) new_ids ->
  yields (interact_one E pending_tweets interaction new_ids)
    (Forall (fun t => dict_has (py_str E t) pending_tweets = true)).
Proof.
  intros Hids. unfold interact_one.
  eapply yields_bind; [apply yields_any | intros tweet_id _].
  eapply yields_bind; [apply yields_any | intros action _].
  eapply yields_bind; [apply yields_any | intros text _].
  destruct (py_eq_str action "none"); [now apply yields_ret|].
  destruct (_ && _); [now apply yields_ret|].
  eapply yields_bind; [apply yields_any | intros delay _].
  eapply yields_bind; [apply yields_any | intros _ _].
  destruct (py_eq_str action "tweet").
  { eapply yields_bind; [apply yields_any | intros _ _]. now apply yields_ret. }
  destruct (dict_get (py_str E tweet_id) pending_tweets) as [p|] eqn:Ep;
    [|apply yields_raise].
  assert (Hadd : forall (b : bool) ids,
             Forall (fun t => dict_has (py_str E t) pending_tweets = true) ids ->
             Forall (fun t => dict_has (py_str E t) pending_tweets = true)
               (if b then (ids ++ [tweet_id])%list else ids)).
  { intros b ids H. destruct b; [|exact H]. apply Forall_app. split; [exact H|].
    constructor; [|constructor]. unfold dict_has. now rewrite Ep. }
  destruct (py_eq_str action "like").
  { eapply yields_bind; [apply yields_any | intros liked _].
    apply yields_ret. now apply Hadd. }
  destruct (py_eq_str action "follow").
  { eapply yields_bind; [apply yields_any | intros followed _].
    apply yields_ret. now apply Hadd. }
  destruct (py_eq_str action "retweet").
  { eapply yields_bind; [apply yields_any | intros retweeted _].
    apply yields_ret. now apply Hadd. }
  eapply yields_bind; [apply yields_any | intros valid _].
  destruct (negb valid).
  { eapply yields_bind; [apply yields_any | intros _ _]. now apply yields_ret. }
  eapply yields_bind with
    (Q1 := Forall (fun t => dict_has (py_str E t) pending_tweets = true)).
  - destruct (py_eq_str action "reply"); [|now apply yields_ret].
    eapply yields_bind; [apply yields_any | intros responded _].
    apply yields_ret. now apply Hadd.
  - intros ids Hi. destruct (py_eq_str action "quote"); [|now apply yields_ret].
    eapply yields_bind; [apply yields_any | intros quoted _].
    apply yields_ret. now apply Hadd.
Qed.

Lemma interact_twitter_ids E pending_tweets :
  yields (interact_twitter E pending_tweets)
    (fun r =>
       (fst r = Event.DONE \/ fst r = Event.ERROR)
       /\ Forall (fun t => dict_has (py_str E t) pending_tweets = true) (snd r)).
Proof.
  unfold interact_twitter.
  eapply yields_bind; [apply yields_any | intros tweets _].
  eapply yields_bind; [apply yields_any | intros previous _].
  eapply yields_bind; [apply yields_any | intros llm_response _].
  destruct llm_response as [llm_response|].
  2:{ eapply yields_bind; [apply yields_any | intros _ _].
      apply yields_ret. simpl. auto. }
  destruct (parse_json_from_llm llm_response) as [json_response|].
  2:{ apply yields_ret. simpl. auto. }
  destruct (negb _); [apply yields_ret; simpl; auto|].
  eapply yields_bind; [apply yields_any | intros interactions _].
  eapply yields_bind with
    (Q1 := Forall (fun t => dict_has (py_str E t) pending_tweets = true)).
  - apply yields_for_each; [|constructor].
    intros x s Hs. now apply interact_one_ids.
  - intros ids Hi. apply yields_ret. simpl. auto.
Qed.

Lemma get_event_engage E st :
  skip_engagement E = false ->
  get_event E st
  = bind (load_interacted_tweet_ids E) (engage_with E (filtered_handles E st))
      (after_handles E st).
Proof. intros H. unfold get_event. rewrite H. reflexivity. Qed.

Lemma dict_get_set {V : Type} (k k' : string) (v : V) d :
  dict_get k (dict_set k' v d)
  = if String.eqb k k' then Some v else dict_get k d.
Proof.
  induction d as [|[k1 v1] d IH]; simpl.
  - reflexivity.
  - destruct (String.eqb_spec k' k1) as [->|Hne]; simpl.
    + destruct (String.eqb_spec k k1); reflexivity.
    + rewrite IH. destruct (String.eqb_spec k k1) as [->|]; [|reflexivity].
      destruct (String.eqb_spec k1 k'); congruence.
Qed.

Lemma py_int_str E s z : py_int E (PStr s) = Ok z -> int_of_str s = Some z.
Proof. simpl. destruct (int_of_str s); congruence. Qed.

Lemma collect_pending_quiet E ledger handle pending_tweets :
  tracks (logs quiet) (collect_pending E ledger handle pending_tweets).
Proof.
  unfold collect_pending, _call_twikit_get_user_tweets.
  logs_auto quiet. reflexivity.
Qed.

Lemma collect_pending_fresh E ledger handle pending_tweets :
  keys_fresh E ledger pending_tweets ->
  yields (collect_pending E ledger handle pending_tweets) (keys_fresh E ledger).
Proof.
  intros Hf. unfold collect_pending.
  eapply yields_bind; [apply yields_any | intros latest_tweets _].
  destruct latest_tweets as [|latest rest]; [now apply yields_ret|].
  eapply yields_bind with
    (Q1 := fun n => py_int E (PStr (tweet_id_of latest)) = Ok n).
  { apply yields_lift. auto. }
  intros n Hn.
  eapply yields_bind with (Q1 := fun seen => py_int_in E n ledger = Ok seen).
  { apply yields_lift. auto. }
  intros seen Hseen. destruct seen; apply yields_ret; [exact Hf|].
  intros k Hk. unfold dict_has in Hk. rewrite dict_get_set in Hk.
  destruct (String.eqb_spec k (tweet_id_of latest)) as [Heq|Hne].
  - subst k. exists n. split; [now apply (py_int_str E) | exact Hseen].
  - apply Hf. exact Hk.
Qed.

Lemma call_get_user_tweets_answer E handle :
  yields (_call_twikit_get_user_tweets E handle)
    (fun l => exists h, twikit_get_user_tweets E h handle = l).
Proof.
  intros st a st' H. unfold _call_twikit_get_user_tweets, bind, history, emit,
    ret in H. simpl in H. inversion H. eauto.
Qed.

Lemma collect_pending_none E ledger handle :
  all_candidates_interacted E ledger ->
  yields (collect_pending E ledger handle []) (fun p => p = []).
Proof.
  intros Hall. unfold collect_pending.
  eapply yields_bind; [apply call_get_user_tweets_answer|].
  intros latest_tweets [h Hh].
  destruct latest_tweets as [|latest rest]; [now apply yields_ret|].
  destruct (Hall _ _ _ _ Hh) as (z & Hz & Hin).
  eapply yields_bind with (Q1 := fun n => n = z).
  { apply yields_lift. simpl. rewrite Hz. congruence. }
  intros n ->.
  eapply yields_bind with (Q1 := fun seen => seen = true).
  { apply yields_lift. rewrite Hin. congruence. }
  intros seen ->. now apply yields_ret.
Qed.

Lemma engage_with_fresh E handles ledger :
  tracks (logs (on_fresh E ledger)) (engage_with E handles ledger).
Proof.
  set (P := on_fresh E ledger).
  assert (Hq : forall A (m : M A), tracks (logs quiet) m -> tracks (logs P) m).
  { intros A m. apply logs_weaken. unfold quiet, P, on_fresh. congruence. }
  unfold engage_with.
  apply (tracks_bind_yields _ (logs_trans P)) with (Q := keys_fresh E ledger).
  - apply (tracks_for_each _ (logs_refl P) (logs_trans P))
      with (Inv := fun _ => True); auto.
    + intros x s _. apply Hq, collect_pending_quiet.
    + intros x s _. apply yields_any.
  - apply yields_for_each.
    + intros x s Hs. now apply collect_pending_fresh.
    + intros k Hk. discriminate.
  - intros pending_tweets Hf.
    apply (tracks_bind _ (logs_trans P)).
    + eapply logs_weaken; [|apply interact_twitter_on_pending].
      intros ev Hev Hi. destruct (Hev Hi) as (k & Ha & Hk).
      destruct (Hf k Hk) as (z & Hz & Hin). eauto.
    + intros [event new_ids]. apply Hq.
      destruct event; logs_auto quiet. reflexivity.
Qed.

Lemma engage_with_quiet E handles ledger :
  all_candidates_interacted E ledger ->
  tracks (logs quiet) (engage_with E handles ledger).
Proof.
  intros Hall. unfold engage_with.
  apply (tracks_bind_yields _ (logs_trans quiet)) with (Q := fun p => p = []).
  - apply (tracks_for_each _ (logs_refl quiet) (logs_trans quiet))
      with (Inv := fun _ => True); auto.
    + intros x s _. apply collect_pending_quiet.
    + intros x s _. apply yields_any.
  - apply yields_for_each; [|reflexivity].
    intros x s ->. now apply collect_pending_none.
  - intros pending_tweets ->.
    apply (tracks_bind _ (logs_trans quiet)).
    + eapply logs_weaken; [|apply (interact_twitter_on_pending E [])].
      intros ev Hev. unfold quiet. destruct (is_interaction ev) eqn:Hi; auto.
      destruct (Hev Hi) as (k & _ & Hk). discriminate.
    + intros [event new_ids]. destruct event; logs_auto quiet. reflexivity.
Qed.

(** With no candidate left, the pass adds no id: it returns [ERROR], or
    [DONE] after writing back the ledger as it was loaded. *)
Lemma engage_with_result E handles ledger st event st' :
  all_candidates_interacted E ledger ->
  engage_with E handles ledger st = (Ok event, st') ->
  event = Event.ERROR
  \/ (event = Event.DONE
      /\ kv st' !! "interacted_tweet_ids" = Some (json_dumps E true ledger)).
Proof.
  intros Hall H. unfold engage_with in H.
  apply bind_inv in H as [(pending & st1 & Hp & H)|(e & _ & ?)];
    [|discriminate].
  assert (pending = []) as ->.
  { eapply (yields_for_each handles (collect_pending E ledger)
              (fun p => p = [])); [|reflexivity|exact Hp].
    intros x s ->. now apply collect_pending_none. }
  apply bind_inv in H as [([ev ids] & st2 & Hi & H)|(e & _ & ?)];
    [|discriminate].
  destruct (interact_twitter_ids E [] _ _ _ Hi) as [Hev Hids]. simpl in *.
  assert (ids = []) as ->.
  { destruct ids as [|t ids]; [reflexivity|]. inversion Hids. discriminate. }
  destruct Hev as [-> | ->].
  - right. apply bind_inv in H as [(l & st3 & Hl & H)|(e & _ & ?)];
      [|discriminate].
    destruct ledger; simpl in Hl; try discriminate.
    rewrite app_nil_r in Hl. inversion Hl; subst l st3.
    unfold _write_kv, bind, emit, ret in H. simpl in H.
    inversion H; subst. split; [reflexivity|]. simpl.
    apply lookup_insert_eq.
  - left. inversion H. reflexivity.
Qed.

Lemma load_interacted_quiet E :
  tracks (logs quiet) (load_interacted_tweet_ids E).
Proof.
  unfold load_interacted_tweet_ids, logger_error, loads_or_raise.
  logs_auto quiet; reflexivity.
Qed.

Lemma py_int_in_member E z items :
  In (PInt z) items -> py_int_in E z (PList items) = Ok true.
Proof.
  intros H. simpl. f_equal. apply existsb_exists. exists (PInt z).
  split; [exact H|]. simpl. apply Z.eqb_refl.
Qed.

(** The dedup test as the code has it.  Every like, retweet, follow, reply
    and quote of an engagement pass acts on a tweet whose id, as an
    integer, is not in the collection of interacted ids the pass has loaded
    (an integer that is an element of that collection is found in it).
    When every candidate's id is in the collection, the pass makes no such
    call at all, and if it returns, it returns [ERROR], or [DONE] after
    writing the collection back with no id added. *)
Lemma engagement_dedup (E : Env) (st : state) :
  exists evs,
    trace (snd (get_event E st)) = (trace st ++ evs)%list
    /\ (forall ev, In ev evs -> is_interaction ev = true ->
          exists ledger k z,
            loaded_ledger E st = Ok ledger /\ acts_on E ev k
            /\ int_of_str k = Some z /\ py_int_in E z ledger = Ok false)
    /\ (forall z items,
          In (PInt z) items -> py_int_in E z (PList items) = Ok true)
    /\ (forall ledger,
          loaded_ledger E st = Ok ledger ->
          all_candidates_interacted E ledger ->
          Forall (fun ev => is_interaction ev = false) evs
          /\ forall event,
               skip_engagement E = false ->
               fst (get_event E st) = Ok event ->
               event = Event.ERROR
               \/ (event = Event.DONE
                   /\ kv (snd (get_event E st)) !! "interacted_tweet_ids"
                      = Some (json_dumps E true ledger))).
Proof.
  destruct (skip_engagement E) eqn:Hskip.
  - exists []. unfold get_event. rewrite Hskip. simpl.
    repeat split.
    + now rewrite app_nil_r.
    + intros ev [].
    + intros z items. apply py_int_in_member.
    + constructor.
    + discriminate.
  - rewrite (get_event_engage E st Hskip).
    unfold loaded_ledger.
    set (st0 := after_handles E st).
    set (evs0 :=
           [EvSubgraph;
            EvTwikit "filter_suspended_users"
              [("user_names",
                PList (map PStr (memeooorr_handles E (trace st))))]]).
    assert (Ht0 : trace st0 = (trace st ++ evs0)%list).
    { subst st0 evs0. unfold after_handles. simpl. now rewrite <- app_assoc. }
    assert (Hq0 : Forall quiet evs0) by (repeat constructor).
    destruct (load_interacted_quiet E st0) as (evs1 & Ht1 & Hq1).
    destruct (load_interacted_tweet_ids E st0) as [[ledger|e] st1] eqn:El;
      cbn [snd] in Ht1.
    + rewrite (bind_ok _ _ _ _ _ El).
      destruct (engage_with_fresh E (filtered_handles E st) ledger st1)
        as (evs2 & Ht2 & Hf2).
      exists (evs0 ++ evs1 ++ evs2)%list. repeat split.
      * rewrite Ht2, Ht1, Ht0. now rewrite <- !app_assoc.
      * intros ev Hin Hi. exists ledger.
        apply in_app_or in Hin as [Hin|Hin];
          [|apply in_app_or in Hin as [Hin|Hin]].
        -- pose proof (proj1 (List.Forall_forall _ _) Hq0 ev Hin) as Hq.
           unfold quiet in Hq. congruence.
        -- pose proof (proj1 (List.Forall_forall _ _) Hq1 ev Hin) as Hq.
           unfold quiet in Hq. congruence.
        -- destruct (proj1 (List.Forall_forall _ _) Hf2 ev Hin Hi)
             as (k & z & Ha & Hz & Hl).
           exists k, z. auto.
      * intros z items. apply py_int_in_member.
      * simpl in H. inversion H; subst ledger0.
        destruct (engage_with_quiet E (filtered_handles E st) ledger H0 st1)
          as (evs2' & Ht2' & Hq2).
        rewrite Ht2 in Ht2'. apply app_inv_head in Ht2'. subst evs2'.
        apply Forall_app; split; [exact Hq0|].
        apply Forall_app; split; [exact Hq1 | exact Hq2].
      * intros event _ Hr. simpl in H. inversion H; subst ledger0.
        destruct (engage_with E (filtered_handles E st) ledger st1)
          as [r st'] eqn:Ee.
        simpl in Hr. subst r. simpl.
        eapply engage_with_result; eauto.
    + rewrite (bind_raise _ _ _ _ _ El).
      exists (evs0 ++ evs1)%list. repeat split.
      * simpl. rewrite Ht1, Ht0. now rewrite <- app_assoc.
      * intros ev Hin Hi. exfalso.
        apply in_app_or in Hin as [Hin|Hin].
        -- pose proof (proj1 (List.Forall_forall _ _) Hq0 ev Hin) as Hq.
           unfold quiet in Hq. congruence.
        -- pose proof (proj1 (List.Forall_forall _ _) Hq1 ev Hin) as Hq.
           unfold quiet in Hq. congruence.
      * intros z items. apply py_int_in_member.
      * simpl in H. discriminate.
      * simpl in H. discriminate.
Qed.

Lemma alice_already_interacted (llm : option string) :
  all_candidates_interacted
    (world PNone None no_contracts ["alice"] (fun _ => [alice_tweet]) llm None)
    (PList [PInt 111]).
Proof.
  intros h handle latest rest H. simpl in H. inversion H; subst.
  exists 111. split; reflexivity.
Qed.

Lemma engagement_dedup_witness :
  exists evs,
    trace (snd (get_event silent_world seen_state))
    = (trace seen_state ++ evs)%list
    /\ Forall (fun ev => is_interaction ev = false) evs.
Proof.
  destruct (engagement_dedup silent_world seen_state)
    as (evs & Ht & _ & _ & Hnone).
  exists evs. split; [exact Ht|].
  apply (Hnone (PList [PInt 111])); [reflexivity|].
  apply alice_already_interacted.
Defined.

(** With every candidate interacted, the pass still need not return
    [DONE] with no call.  Alice's latest tweet 111 is the only candidate
    and the integer 111 is in the stored collection.  When the model
    gives no answer, and when it answers with the empty list of decisions,
    the pass returns [ERROR], not [DONE]; and when the model asks for a new
    post the pass returns [DONE] after an external call, the post. *)
Lemma engagement_not_idempotent :
  loaded_ledger silent_world seen_state = Ok (PList [PInt 111])
  /\ all_candidates_interacted silent_world (PList [PInt 111])
  /\ fst (get_event silent_world seen_state) = Ok Event.ERROR
  /\ loaded_ledger no_decision_world seen_state = Ok (PList [PInt 111])
  /\ all_candidates_interacted no_decision_world (PList [PInt 111])
  /\ fst (get_event no_decision_world seen_state) = Ok Event.ERROR
  /\ loaded_ledger posting_world seen_state = Ok (PList [PInt 111])
  /\ all_candidates_interacted posting_world (PList [PInt 111])
  /\ fst (get_event posting_world seen_state) = Ok Event.DONE
  /\ In (EvTwikit "post" [("tweets", PList [PDict [("text", PStr "gm frens")]])])
       (trace (snd (get_event posting_world seen_state))).
Proof.
  repeat split; try apply alice_already_interacted;
    try (vm_compute; reflexivity).
  vm_compute. tauto.
Qed.

(** * Further properties *)

(** ** What the extraction patterns can return *)

Lemma string_app_assoc (a b c : string) : (a ++ b) ++ c = a ++ (b ++ c).
Proof.
  induction a as [|x a IH]; [reflexivity|].
  change (String x ((a ++ b) ++ c) = String x (a ++ (b ++ c))). now f_equal.
Qed.

Lemma string_take_app (x y : string) :
  string_take (String.length (x ++ y) - String.length y) (x ++ y) = x.
Proof.
  induction x as [|c x IH].
  - change (EmptyString ++ y) with y. rewrite Nat.sub_diag. now destruct y.
  - change (String c x ++ y) with (String c (x ++ y)).
    assert (Hl : forall a b, String.length (a ++ b)
                             = (String.length a + String.length b)%nat).
    { intros a b. induction a as [|d a IHa]; [reflexivity|].
      change (S (String.length (a ++ b))
              = S (String.length a + String.length b)). now f_equal. }
    cbn [String.length]. rewrite Hl in *.
    replace (S (String.length x + String.length y) - String.length y)%nat
      with (S (String.length x + String.length y - String.length y))
      by lia.
    cbn [string_take]. f_equal. exact IH.
Qed.

(** A match is a match of the whole pattern at one position of the subject. *)
Lemma rx_search_position re : forall s g,
  rx_search re s = Some g ->
  exists pre t res,
    s = pre ++ t /\ rx_match re t (EmptyString, EmptyString) = Some res
    /\ g = rx_group res.
Proof.
  induction s as [|c s IH]; intros g H; simpl in H.
  - destruct (rx_match re EmptyString (EmptyString, EmptyString))
      as [res|] eqn:Em; [|discriminate].
    inversion H. exists EmptyString, EmptyString, res. auto.
  - destruct (rx_match re (String c s) (EmptyString, EmptyString))
      as [res|] eqn:Em.
    + inversion H. exists EmptyString, (String c s), res. auto.
    + destruct (IH g H) as (pre & t & res & -> & Hm & Hg).
      exists (String c pre), t, res. auto.
Qed.

(** A literal at the head of a pattern is the head of what it matches. *)
Lemma rx_match_lit c re s g res :
  rx_match (RxAtom (RxLit c) QOne :: re) s g = Some res ->
  exists s', s = String c s' /\ rx_match re s' g = Some res.
Proof.
  simpl. destruct s as [|c' s']; [discriminate|].
  destruct (Ascii.eqb_spec c c') as [->|]; [|discriminate]. eauto.
Qed.

(** The result of a pattern that ends in a part [tail] is a result of
    [tail] somewhere in the subject. *)
Lemma rx_match_app tail pre : forall s g res,
  rx_match (pre ++ tail) s g = Some res ->
  exists t g', rx_match tail t g' = Some res.
Proof.
  induction pre as [|item pre IH]; intros s g res H.
  - eauto.
  - change ((item :: pre) ++ tail)%list with (item :: (pre ++ tail))%list in H.
    destruct item as [cls q| |].
    + destruct q.
      * simpl in H. destruct s as [|c s]; [discriminate|].
        destruct (cls_matches cls c); [|discriminate]. eauto.
      * simpl in H. destruct s as [|c s]; [eauto|].
        destruct (cls_matches cls c); [|eauto].
        destruct (rx_match (pre ++ tail) s g) as [r|] eqn:Er; [|eauto].
        inversion H; subst r. eauto.
      * simpl in H. revert H. induction s as [|c s IHs]; intros H; [eauto|].
        destruct (cls_matches cls c); [|eauto].
        match type of H with
        | match ?x with _ => _ end = _ => destruct x as [r|] eqn:Er
        end; [|eauto].
        inversion H; subst r. exact (IHs eq_refl).
    + simpl in H. eauto.
    + simpl in H. eauto.
Qed.

(** A starred dot takes some prefix, and the rest of the pattern matches
    what is left. *)
Lemma rx_star_any re' : forall t g res,
  rx_match (RxAtom RxAny QStar :: re') t g = Some res ->
  exists mid rest, t = mid ++ rest /\ rx_match re' rest g = Some res.
Proof.
  intros t g res. simpl. induction t as [|c t IHt]; intros H.
  - exists EmptyString, EmptyString. auto.
  - match type of H with
    | match ?x with _ => _ end = _ => destruct x as [r|] eqn:Er
    end.
    + inversion H; subst r. destruct (IHt eq_refl) as (mid & rest & -> & Hr).
      exists (String c mid), rest. auto.
    + exists EmptyString, (String c t). auto.
Qed.

(** What the object group captures starts and ends with a brace. *)
Lemma object_group_shape s g res :
  rx_match object_group s g = Some res ->
  exists mid, rx_group res = String "{" (mid ++ "}").
Proof.
  unfold object_group. intros H.
  change (rx_match [RxAtom (RxLit "{") QOne; RxAtom RxAny QStar;
                    RxAtom (RxLit "}") QOne; RxClose] s (s, snd g)
          = Some res) in H.
  apply rx_match_lit in H as (s1 & -> & H).
  apply rx_star_any in H as (mid & rest & -> & H).
  apply rx_match_lit in H as (rest' & -> & H).
  simpl in H. inversion H; subst res.
  exists mid. unfold rx_group. cbn [fst snd].
  replace (String "{" (mid ++ String "}" rest'))
    with (String "{" (mid ++ "}") ++ rest').
  - apply string_take_app.
  - change (String "{" ((mid ++ "}") ++ rest')
            = String "{" (mid ++ String "}" rest')).
    f_equal. now rewrite string_app_assoc.
Qed.

Lemma json_loads_brace x v :
  json_loads (String "{" x) = Some v -> exists d, v = PDict d.
Proof.
  unfold json_loads.
  change (skip_ws (String "{" x)) with (String "{" x).
  remember (2 * String.length (String "{" x) + 2)%nat as fuel eqn:Hf.
  destruct fuel as [|fuel]; [discriminate|].
  cbn [scan_once].
  change (Ascii.eqb "{" dquote) with false.
  change (Ascii.eqb "{" "{") with true. cbv iota.
  destruct (skip_ws x) as [|c1 s1]; [discriminate|].
  destruct (Ascii.eqb c1 "}").
  - destruct (skip_ws s1); [|discriminate]. intros H; inversion H. eauto.
  - destruct (Ascii.eqb c1 dquote); [|discriminate].
    destruct (scan_members fuel [] s1) as [[d rest]|]; [|discriminate].
    destruct (skip_ws rest); [|discriminate]. intros H; inversion H. eauto.
Qed.

Lemma object_pattern_gives_object pre regex response v :
  re_compile regex = (pre ++ object_group)%list ->
  try_regex regex response = Some v -> exists d, v = PDict d.
Proof.
  intros Hc H. unfold try_regex, re_search in H. rewrite Hc in H.
  destruct (rx_search (pre ++ object_group) response) as [g|] eqn:Es;
    [|discriminate].
  apply rx_search_position in Es as (p & t & res & _ & Hm & ->).
  apply rx_match_app in Hm as (t' & g' & Hm).
  apply object_group_shape in Hm as (mid & Hg). rewrite Hg in H.
  eapply json_loads_brace; eauto.
Qed.

Lemma first_pattern_object response v :
  try_regex "json.?({.*})" response = Some v -> exists d, v = PDict d.
Proof.
  apply (object_pattern_gives_object
           [RxAtom (RxLit "j") QOne; RxAtom (RxLit "s") QOne;
            RxAtom (RxLit "o") QOne; RxAtom (RxLit "n") QOne;
            RxAtom RxAny QOpt] "json.?({.*})" response v).
  reflexivity.
Qed.

Lemma second_pattern_object response v :
  try_regex "json({.*})" response = Some v -> exists d, v = PDict d.
Proof.
  apply (object_pattern_gives_object
           [RxAtom (RxLit "j") QOne; RxAtom (RxLit "s") QOne;
            RxAtom (RxLit "o") QOne; RxAtom (RxLit "n") QOne]
           "json({.*})" response v).
  reflexivity.
Qed.

(** X1.  The first and the second pattern capture text between braces, so
    what they decode is always a JSON object: a list of decisions can only
    come out of the third, fenced pattern. *)
Theorem plain_patterns_give_objects (response : string) (v : pyval) :
  (try_regex "json.?({.*})" response = Some v
   \/ try_regex "json({.*})" response = Some v ->
   exists d, v = PDict d)
  /\ (forall l,
        parse_json_from_llm response = Some (PList l) ->
        try_regex "\`\`\`json(.*)\`\`\`" response = Some (PList l)).
Proof.
  split.
  - intros [H|H];
      [eapply first_pattern_object | eapply second_pattern_object]; eauto.
  - intros l H. unfold parse_json_from_llm, JSON_RESPONSE_REGEXES in H.
    cbn [first_decoded] in H.
    destruct (try_regex "json.?({.*})" response) as [w|] eqn:E1.
    + inversion H; subst w.
      destruct (first_pattern_object _ _ E1) as [d Hd]. discriminate.
    + destruct (try_regex "json({.*})" response) as [w|] eqn:E2.
      * inversion H; subst w.
        destruct (second_pattern_object _ _ E2) as [d Hd]. discriminate.
      * destruct (try_regex "\`\`\`json(.*)\`\`\`" response); [exact H|].
        discriminate.
Qed.

Lemma plain_patterns_give_objects_witness :
  exists d, PDict [("tweet_id", PStr "111"); ("action", PStr "like")] = PDict d.
Proof.
  apply (proj1 (plain_patterns_give_objects
                  (dq "json[{'tweet_id':'111','action':'like'}]")
                  (PDict [("tweet_id", PStr "111"); ("action", PStr "like")]))).
  left. vm_compute. reflexivity.
Defined.

Lemma regex_needs_json regex response g :
  In regex JSON_RESPONSE_REGEXES ->
  re_search regex response = Some g -> is_substring "json" response.
Proof.
  intros Hin H. unfold re_search in H.
  apply rx_search_position in H as (pre & t & res & -> & Hm & _).
  destruct Hin as [<-|[<-|[<-|[]]]].
  - change (re_compile "json.?({.*})")
      with ([RxAtom (RxLit "j") QOne; RxAtom (RxLit "s") QOne;
             RxAtom (RxLit "o") QOne; RxAtom (RxLit "n") QOne;
             RxAtom RxAny QOpt] ++ object_group)%list in Hm.
    cbn [app] in Hm.
    apply rx_match_lit in Hm as (t1 & -> & Hm).
    apply rx_match_lit in Hm as (t2 & -> & Hm).
    apply rx_match_lit in Hm as (t3 & -> & Hm).
    apply rx_match_lit in Hm as (t4 & -> & Hm).
    exists pre, t4. reflexivity.
  - change (re_compile "json({.*})")
      with ([RxAtom (RxLit "j") QOne; RxAtom (RxLit "s") QOne;
             RxAtom (RxLit "o") QOne; RxAtom (RxLit "n") QOne]
            ++ object_group)%list in Hm.
    cbn [app] in Hm.
    apply rx_match_lit in Hm as (t1 & -> & Hm).
    apply rx_match_lit in Hm as (t2 & -> & Hm).
    apply rx_match_lit in Hm as (t3 & -> & Hm).
    apply rx_match_lit in Hm as (t4 & -> & Hm).
    exists pre, t4. reflexivity.
  - change (re_compile "\`\`\`json(.*)\`\`\`")
      with ([RxAtom (RxLit "`") QOne; RxAtom (RxLit "`") QOne;
             RxAtom (RxLit "`") QOne; RxAtom (RxLit "j") QOne;
             RxAtom (RxLit "s") QOne; RxAtom (RxLit "o") QOne;
             RxAtom (RxLit "n") QOne; RxOpen; RxAtom RxAny QStar; RxClose;
             RxAtom (RxLit "`") QOne; RxAtom (RxLit "`") QOne;
             RxAtom (RxLit "`") QOne]) in Hm.
    apply rx_match_lit in Hm as (t1 & -> & Hm).
    apply rx_match_lit in Hm as (t2 & -> & Hm).
    apply rx_match_lit in Hm as (t3 & -> & Hm).
    apply rx_match_lit in Hm as (t4 & -> & Hm).
    apply rx_match_lit in Hm as (t5 & -> & Hm).
    apply rx_match_lit in Hm as (t6 & -> & Hm).
    apply rx_match_lit in Hm as (t7 & -> & Hm).
    exists (pre ++ "```"), t7. rewrite string_app_assoc. reflexivity.
Qed.

(** X2.  Whatever [parse_json_from_llm] returns, the response contains the
    word [json]: an answer that is JSON and nothing else, without that
    marker, is never decoded. *)
Theorem parse_json_needs_marker (response : string) (v : pyval) :
  parse_json_from_llm response = Some v -> is_substring "json" response.
Proof.
  unfold parse_json_from_llm. generalize (fun r => @id (In r JSON_RESPONSE_REGEXES)).
  generalize JSON_RESPONSE_REGEXES at 1 3 as regexes.
  induction regexes as [|regex regexes IH]; intros Hall H; [discriminate|].
  cbn [first_decoded] in H.
  destruct (try_regex regex response) as [w|] eqn:Et.
  - unfold try_regex in Et.
    destruct (re_search regex response) as [g|] eqn:Es; [|discriminate].
    eapply regex_needs_json; [|exact Es]. apply Hall. now left.
  - apply IH; [|exact H]. intros r Hr. apply Hall. now right.
Qed.

Lemma parse_json_needs_marker_witness :
  is_substring "json" (dq "json{'a':1}").
Proof.
  apply (parse_json_needs_marker (dq "json{'a':1}") (PDict [("a", PInt 1)])).
  vm_compute. reflexivity.
Defined.

(** ** A decoded object in the engagement pass *)

Lemma call_genai_answer E prompt :
  yields (_call_genai E prompt)
    (fun response => exists h, genai E h prompt = response).
Proof.
  intros st a st' H. unfold _call_genai, bind, history, emit, ret in H.
  simpl in H. inversion H. eauto.
Qed.

(** A decision that is a string has no [get]: the turn raises at once. *)
Lemma interact_one_string E pending_tweets s new_ids st :
  interact_one E pending_tweets (PStr s) new_ids st
  = (Raise AttributeError, st).
Proof. reflexivity. Qed.

Lemma no_social_get_tweets E : tracks (logs no_social) (get_tweets_from_db E).
Proof.
  unfold get_tweets_from_db, logger_error. logs_auto no_social; exact I.
Qed.

(** X3.  When whatever the model answers decodes to a JSON object, the
    engagement pass never acts: it makes no call to the social collaborator
    and requests no delay, and it cannot return [DONE]: it returns [ERROR]
    with no id (the empty object) or raises (the loop draws the keys of
    the object, which are strings). *)
Theorem object_answer_never_acts (E : Env)
  (pending_tweets : list (string * pending_tweet)) (st : state) :
  (forall h prompt response,
     genai E h prompt = Some response ->
     exists d, parse_json_from_llm response = Some (PDict d)) ->
  (forall r, fst (interact_twitter E pending_tweets st) = Ok r ->
             r = (Event.ERROR, []))
  /\ exists evs,
       trace (snd (interact_twitter E pending_tweets st))
       = (trace st ++ evs)%list
       /\ Forall no_social evs.
Proof.
  intros Hobj. split.
  - intros r Hr.
    destruct (interact_twitter E pending_tweets st) as [r' st'] eqn:Ei.
    simpl in Hr. subst r'. revert Ei.
    generalize st, r, st'. clear st r st'.
    change (yields (interact_twitter E pending_tweets)
              (fun r => r = (Event.ERROR, []))).
    unfold interact_twitter.
    eapply yields_bind; [apply yields_any | intros tweets _].
    eapply yields_bind; [apply yields_any | intros previous _].
    eapply yields_bind; [apply call_genai_answer | intros llm [h Hh]].
    destruct llm as [response|].
    + destruct (Hobj _ _ _ Hh) as [d ->].
      destruct d as [|[k v] d]; cbn [py_truthy negb].
      * now apply yields_ret.
      * intros st a st' H. cbn [py_iter dict_keys map fst lift] in H.
        unfold bind at 1 in H. cbn [ret] in H. cbn [for_each] in H.
        unfold bind at 1 in H. unfold bind at 1 in H.
        rewrite interact_one_string in H. discriminate.
    + eapply yields_bind; [apply yields_any | intros _ _]. now apply yields_ret.
  - enough (H : tracks (logs no_social) (interact_twitter E pending_tweets))
      by exact (H st).
    clear st. unfold interact_twitter.
    apply (tracks_bind _ (logs_trans no_social));
      [apply no_social_get_tweets | intros tweets].
    apply (tracks_bind _ (logs_trans no_social));
      [logs_auto no_social | intros previous].
    apply (tracks_bind_yields _ (logs_trans no_social)) with
      (Q := fun response => exists h, genai E h
              (TWITTER_DECISION_PROMPT E (persona E) previous
                 (join (nl ++ nl)
                    (map (fun '(t_id, t_data) =>
                            "tweet_id: " ++ t_id ++ nl ++ "tweet_text: "
                            ++ pt_text t_data) pending_tweets))
                 (sync_time_str E)) = response).
    + unfold _call_genai. logs_auto no_social. exact I.
    + apply call_genai_answer.
    + intros llm [h Hh]. destruct llm as [response|].
      * destruct (Hobj _ _ _ Hh) as [d ->].
        destruct d as [|[k v] d]; cbn [py_truthy negb];
          [logs_auto no_social|].
        intros st. exists []. split; [|constructor].
        cbn [py_iter dict_keys map fst lift].
        unfold bind at 1. cbn [ret]. cbn [for_each].
        unfold bind at 1. unfold bind at 1.
        rewrite interact_one_string. simpl. now rewrite app_nil_r.
      * unfold logger_error. logs_auto no_social. exact I.
Qed.

Lemma object_answer_never_acts_witness :
  exists evs,
    trace (snd (interact_twitter like_world gm_pending empty_state))
    = (trace empty_state ++ evs)%list
    /\ Forall no_social evs.
Proof.
  refine (proj2 (object_answer_never_acts like_world gm_pending empty_state _)).
  intros h prompt response H. simpl in H. inversion H.
  eexists. vm_compute. reflexivity.
Defined.

(** ** What [store_heart] writes *)

(** X4.  [store_heart] reads the hearted nonces, appends the new one with no
    membership test, and writes the whole collection back.  When the store
    cannot be read, or holds nothing under the key, it writes the new nonce
    alone, so on a failed read whatever was stored is replaced.  When the
    stored text decodes to something that is not a list, it raises
    [AttributeError] and writes nothing. *)
Theorem store_heart_writes (E : Env) (token_nonce : pyval) (st : state) :
  (forall c text l,
     kv_read_ok E (trace st) = true ->
     kv st !! "hearted_memes" = Some (String c text) ->
     json_loads (String c text) = Some (PList l) ->
     fst (store_heart E token_nonce st) = Ok tt
     /\ kv (snd (store_heart E token_nonce st))
        = <["hearted_memes" :=
              json_dumps E true (PList (l ++ [token_nonce]))]> (kv st))
  /\ (kv_read_ok E (trace st) = false
      \/ kv st !! "hearted_memes" = None
      \/ kv st !! "hearted_memes" = Some "" ->
      fst (store_heart E token_nonce st) = Ok tt
      /\ kv (snd (store_heart E token_nonce st))
         = <["hearted_memes" := json_dumps E true (PList [token_nonce])]>
             (kv st))
  /\ (forall c text v,
        kv_read_ok E (trace st) = true ->
        kv st !! "hearted_memes" = Some (String c text) ->
        json_loads (String c text) = Some v ->
        (forall l, v <> PList l) ->
        fst (store_heart E token_nonce st) = Raise AttributeError
        /\ kv (snd (store_heart E token_nonce st)) = kv st).
Proof.
  split; [|split].
  all: unfold store_heart, load_hearted_memes, _read_kv, _write_kv,
         logger_error, history, emit, bind, lift, db_value, loads_or_raise,
         raise, py_append, py_extend, ret; cbn [kv trace map].
  - intros c text l Hok Hk Hl. rewrite Hok. cbn [kv trace]. rewrite Hk.
    rewrite dict_get_head. cbn [or_empty_list]. rewrite Hl. split; reflexivity.
  - intros [Hok|Hk].
    + rewrite Hok. split; reflexivity.
    + destruct (kv_read_ok E (trace st)); [|split; reflexivity].
      cbn [kv trace]. rewrite dict_get_head.
      destruct Hk as [Hk|Hk]; rewrite Hk; split; reflexivity.
  - intros c text v Hok Hk Hv Hnl. rewrite Hok. cbn [kv trace]. rewrite Hk.
    rewrite dict_get_head. cbn [or_empty_list]. rewrite Hv.
    destruct v; try (split; reflexivity). now destruct (Hnl items).
Qed.

Lemma store_heart_writes_witness :
  (fst (store_heart heart_world (PInt 5) hearted_state) = Ok tt
   /\ kv (snd (store_heart heart_world (PInt 5) hearted_state))
      = <["hearted_memes" := "[3, 5, 5]"]> (kv hearted_state))
  /\ (fst (store_heart unreadable_world (PInt 7) hearted_state) = Ok tt
      /\ kv (snd (store_heart unreadable_world (PInt 7) hearted_state))
         = <["hearted_memes" := "[7]"]> (kv hearted_state)).
Proof.
  split.
  - refine (proj1 (store_heart_writes heart_world (PInt 5) hearted_state)
              "["%char "3, 5]" [PInt 3; PInt 5] _ _ _); reflexivity.
  - refine (proj1 (proj2 (store_heart_writes unreadable_world (PInt 7)
                            hearted_state)) _).
    left. reflexivity.
Defined.

(** ** The ledger of interacted tweets *)

Lemma keeps_refl key st : keeps key st st.
Proof. reflexivity. Qed.

Lemma keeps_trans key a b c : keeps key a b -> keeps key b c -> keeps key a c.
Proof. unfold keeps. congruence. Qed.

Lemma keeps_emit key ev : tracks (keeps key) (emit ev).
Proof. intros st. reflexivity. Qed.

Lemma keeps_read_kv E key keys : tracks (keeps key) (_read_kv E keys).
Proof.
  intros st. unfold _read_kv, bind, history, emit. simpl.
  destruct (kv_read_ok E (trace st)); reflexivity.
Qed.

Lemma keeps_write_kv key key' value :
  key' <> key -> tracks (keeps key) (_write_kv key' value).
Proof.
  intros H st. unfold keeps, _write_kv, bind, emit. simpl.
  now apply lookup_insert_ne.
Qed.

Ltac keeps_leaf :=
  first [ apply keeps_emit | apply keeps_read_kv
        | apply keeps_write_kv; discriminate ].

Ltac keeps_auto key :=
  cbv beta;
  repeat (tracks_step (keeps_refl key) (keeps_trans key) keeps_leaf; cbv beta).

Lemma interact_one_keeps E pending_tweets interaction new_ids :
  tracks (keeps "interacted_tweet_ids")
    (interact_one E pending_tweets interaction new_ids).
Proof.
  unfold interact_one, post_tweet, store_tweet, get_tweets_from_db,
    respond_tweet, like_tweet, retweet, follow_user, _call_twikit_success,
    _call_twikit_post, randbelow, sleep, logger_error.
  keeps_auto "interacted_tweet_ids".
Qed.

Lemma interact_twitter_keeps E pending_tweets :
  tracks (keeps "interacted_tweet_ids") (interact_twitter E pending_tweets).
Proof.
  set (K := "interacted_tweet_ids").
  unfold interact_twitter.
  apply (tracks_bind _ (keeps_trans K)).
  { unfold get_tweets_from_db, logger_error. keeps_auto K. }
  intros tweets.
  apply (tracks_bind _ (keeps_trans K)); [keeps_auto K | intros previous].
  apply (tracks_bind _ (keeps_trans K)).
  { unfold _call_genai. keeps_auto K. }
  intros llm_response. destruct llm_response as [llm_response|].
  2:{ unfold logger_error. keeps_auto K. }
  destruct (parse_json_from_llm llm_response) as [json_response|];
    [|keeps_auto K].
  destruct (negb _); [keeps_auto K|].
  apply (tracks_bind _ (keeps_trans K)); [keeps_auto K | intros interactions].
  apply (tracks_bind _ (keeps_trans K)); [|intros; keeps_auto K].
  apply (tracks_for_each _ (keeps_refl K) (keeps_trans K))
    with (Inv := fun _ => True); auto.
  - intros x s _. apply interact_one_keeps.
  - intros x s _. apply yields_any.
Qed.

Lemma collect_pending_keeps E key ledger handle pending_tweets :
  tracks (keeps key) (collect_pending E ledger handle pending_tweets).
Proof.
  unfold collect_pending, _call_twikit_get_user_tweets. keeps_auto key.
Qed.

Lemma load_interacted_keeps E key :
  tracks (keeps key) (load_interacted_tweet_ids E).
Proof.
  unfold load_interacted_tweet_ids, logger_error, loads_or_raise.
  keeps_auto key.
Qed.

Lemma engage_with_keeps E handles ledger st :
  fst (engage_with E handles ledger st) <> Ok Event.DONE ->
  keeps "interacted_tweet_ids" st (snd (engage_with E handles ledger st)).
Proof.
  set (K := "interacted_tweet_ids").
  destruct (engage_with E handles ledger st) as [r st'] eqn:H. simpl.
  intros Hr. unfold engage_with in H.
  assert (Hfor : tracks (keeps K)
                   (for_each handles (collect_pending E ledger) [])).
  { apply (tracks_for_each _ (keeps_refl K) (keeps_trans K))
      with (Inv := fun _ => True); auto.
    - intros x s _. apply collect_pending_keeps.
    - intros x s _. apply yields_any. }
  specialize (Hfor st).
  apply bind_inv in H as [(pending & st1 & Hp & H)|(e & Hp & _)];
    rewrite Hp in Hfor; simpl in Hfor; [|exact Hfor].
  pose proof (interact_twitter_keeps E pending st1) as Hint.
  apply bind_inv in H as [([ev ids] & st2 & Hi & H)|(e & Hi & _)];
    rewrite Hi in Hint; simpl in Hint;
    [|eapply keeps_trans; eauto].
  assert (Hk2 : keeps K st st2) by (eapply keeps_trans; eauto).
  destruct ev.
  - apply bind_inv in H as [(l & st3 & Hl & H)|(e & Hl & _)].
    + unfold _write_kv, bind, emit, ret in H. simpl in H.
      inversion H; subst. now destruct Hr.
    + destruct (py_extend ledger ids); simpl in Hl; inversion Hl; subst.
      exact Hk2.
  - inversion H; subst. exact Hk2.
  - inversion H; subst. exact Hk2.
Qed.

(** X5.  Unless the engagement pass returns [DONE], it leaves the stored
    collection of interacted tweet ids as it was: when it returns [ERROR] or
    raises, also after likes, retweets, follows or replies it has already
    made, none of them is recorded. *)
Theorem ledger_kept_unless_done (E : Env) (st : state) :
  fst (get_event E st) <> Ok Event.DONE ->
  kv (snd (get_event E st)) !! "interacted_tweet_ids"
  = kv st !! "interacted_tweet_ids".
Proof.
  intros Hr. destruct (skip_engagement E) eqn:Hskip.
  { unfold get_event in *. rewrite Hskip in *. now destruct Hr. }
  rewrite (get_event_engage E st Hskip) in *.
  pose proof (load_interacted_keeps E "interacted_tweet_ids"
                (after_handles E st)) as Hl.
  destruct (load_interacted_tweet_ids E (after_handles E st))
    as [[ledger|e] st1] eqn:El; simpl in Hl.
  - rewrite (bind_ok _ _ _ _ _ El) in *.
    pose proof (engage_with_keeps E (filtered_handles E st) ledger st1 Hr)
      as He.
    unfold keeps in *. now rewrite He, Hl.
  - rewrite (bind_raise _ _ _ _ _ El). exact Hl.
Qed.

Lemma ledger_kept_unless_done_witness :
  kv (snd (get_event silent_world seen_state)) !! "interacted_tweet_ids"
  = kv seen_state !! "interacted_tweet_ids".
Proof.
  apply (ledger_kept_unless_done silent_world seen_state).
  vm_compute. discriminate.
Defined.

(** X6.  When the engagement pass returns [DONE] (engagement not skipped),
    the collection it has loaded is a list, its call of [interact_twitter]
    has returned [DONE] with a list of new ids, and the pass ends by
    storing, under [interacted_tweet_ids], the loaded list followed by
    exactly those ids (nothing removed or reordered, nothing else in the
    store changed); every new id, as an integer, was not found in the
    loaded list. *)
Theorem done_extends_ledger (E : Env) (st : state) :
  skip_engagement E = false ->
  fst (get_event E st) = Ok Event.DONE ->
  exists l new,
    loaded_ledger E st = Ok (PList l)
    /\ fst (engagement_decisions E st) = Ok (Event.DONE, new)
    /\ kv (snd (get_event E st))
       = <["interacted_tweet_ids" := json_dumps E true (PList (l ++ new))]>
           (kv (snd (engagement_decisions E st)))
    /\ Forall (fun t => exists z, int_of_str (py_str E t) = Some z
                                  /\ py_int_in E z (PList l) = Ok false) new.
Proof.
  intros Hskip. rewrite (get_event_engage E st Hskip).
  unfold loaded_ledger, engagement_decisions.
  destruct (load_interacted_tweet_ids E (after_handles E st))
    as [[ledger|e] st1] eqn:El.
  2:{ rewrite (bind_raise _ _ _ _ _ El). discriminate. }
  rewrite !(bind_ok _ _ _ _ _ El).
  destruct (engage_with E (filtered_handles E st) ledger st1) as [r st'] eqn:H.
  simpl. intros ->. unfold engage_with in H.
  apply bind_inv in H as [(pending & st2 & Hp & H)|(e & _ & ?)];
    [|discriminate].
  rewrite (bind_ok _ _ _ _ _ Hp).
  assert (Hf : keys_fresh E ledger pending).
  { eapply (yields_for_each (filtered_handles E st)
              (collect_pending E ledger) (keys_fresh E ledger)); [| |exact Hp].
    - intros x s Hs. now apply collect_pending_fresh.
    - intros k Hk. discriminate. }
  apply bind_inv in H as [([ev ids] & st3 & Hi & H)|(e & _ & ?)];
    [|discriminate].
  destruct (interact_twitter_ids E pending _ _ _ Hi) as [_ Hids].
  simpl in Hids. rewrite Hi.
  destruct ev; [|inversion H|inversion H].
  apply bind_inv in H as [(l' & st4 & Hl & H)|(e & _ & ?)]; [|discriminate].
  destruct ledger as [| | | | | | l |]; simpl in Hl; try discriminate.
  inversion Hl; subst l' st4.
  unfold _write_kv, bind, emit, ret in H. simpl in H. inversion H; subst.
  exists l, ids. repeat split.
  eapply Forall_impl; [exact Hids|]. intros t Ht. now apply Hf.
Qed.

Lemma done_extends_ledger_witness :
  kv (snd (get_event fresh_like_world empty_state))
  = <["interacted_tweet_ids" :=
        json_dumps fresh_like_world true (PList ([] ++ [PStr "111"]))]>
      (kv (snd (engagement_decisions fresh_like_world empty_state))).
Proof.
  destruct (done_extends_ledger fresh_like_world empty_state eq_refl eq_refl)
    as (l & new & Hl & Hd & Hkv & _).
  vm_compute in Hl. vm_compute in Hd.
  inversion Hl; subst l. inversion Hd; subst new. exact Hkv.
Defined.

Lemma yields_for_each_in {A S : Type} (l : list A) (body : A -> S -> M S)
  (Inv : S -> Prop) :
  (forall x s, In x l -> Inv s -> yields (body x s) Inv) ->
  forall s, Inv s -> yields (for_each l body s) Inv.
Proof.
  induction l as [|x l IH]; intros Hi s Hs; simpl.
  - now apply yields_ret.
  - eapply yields_bind.
    + apply Hi; [now left | exact Hs].
    + intros s' Hs'. apply IH; [|exact Hs'].
      intros y s0 Hy. apply Hi. now right.
Qed.

(** What a turn of the loop adds is the decision's own [tweet_id]. *)
Lemma interact_one_adds E pending_tweets interaction new_ids
  (Q : pyval -> Prop) :
  (forall t, py_get interaction "tweet_id" = Ok t ->
             dict_has (py_str E t) pending_tweets = true -> Q t) ->
  Forall Q new_ids ->
  yields (interact_one E pending_tweets interaction new_ids) (Forall Q).
Proof.
  intros HQ Hids. unfold interact_one.
  eapply yields_bind with
    (Q1 := fun t => py_get interaction "tweet_id" = Ok t).
  { apply yields_lift. auto. }
  intros tweet_id Hid.
  eapply yields_bind; [apply yields_any | intros action _].
  eapply yields_bind; [apply yields_any | intros text _].
  destruct (py_eq_str action "none"); [now apply yields_ret|].
  destruct (_ && _); [now apply yields_ret|].
  eapply yields_bind; [apply yields_any | intros delay _].
  eapply yields_bind; [apply yields_any | intros _ _].
  destruct (py_eq_str action "tweet").
  { eapply yields_bind; [apply yields_any | intros _ _]. now apply yields_ret. }
  destruct (dict_get (py_str E tweet_id) pending_tweets) as [p|] eqn:Ep;
    [|apply yields_raise].
  assert (Hadd : forall (b : bool) ids,
             Forall Q ids ->
             Forall Q (if b then (ids ++ [tweet_id])%list else ids)).
  { intros b ids H. destruct b; [|exact H]. apply Forall_app. split; [exact H|].
    constructor; [|constructor]. apply HQ; [exact Hid|].
    unfold dict_has. now rewrite Ep. }
  destruct (py_eq_str action "like").
  { eapply yields_bind; [apply yields_any | intros liked _].
    apply yields_ret. now apply Hadd. }
  destruct (py_eq_str action "follow").
  { eapply yields_bind; [apply yields_any | intros followed _].
    apply yields_ret. now apply Hadd. }
  destruct (py_eq_str action "retweet").
  { eapply yields_bind; [apply yields_any | intros retweeted _].
    apply yields_ret. now apply Hadd. }
  eapply yields_bind; [apply yields_any | intros valid _].
  destruct (negb valid).
  { eapply yields_bind; [apply yields_any | intros _ _]. now apply yields_ret. }
  eapply yields_bind with (Q1 := Forall Q).
  - destruct (py_eq_str action "reply"); [|now apply yields_ret].
    eapply yields_bind; [apply yields_any | intros responded _].
    apply yields_ret. now apply Hadd.
  - intros ids Hi. destruct (py_eq_str action "quote"); [|now apply yields_ret].
    eapply yields_bind; [apply yields_any | intros quoted _].
    apply yields_ret. now apply Hadd.
Qed.

(** X7.  Every id the engagement pass reports as newly interacted is the
    [tweet_id] value of one of the decisions decoded from the model's
    answer, unchanged (a string stays a string), and it names a pending
    tweet. *)
Theorem recorded_ids_are_decision_ids (E : Env)
  (pending_tweets : list (string * pending_tweet)) (st : state)
  (event : Event.t) (ids : list pyval) :
  fst (interact_twitter E pending_tweets st) = Ok (event, ids) ->
  Forall (fun t =>
            dict_has (py_str E t) pending_tweets = true
            /\ exists h prompt response json_response interactions decision,
                 genai E h prompt = Some response
                 /\ parse_json_from_llm response = Some json_response
                 /\ py_iter json_response = Ok interactions
                 /\ In decision interactions
                 /\ py_get decision "tweet_id" = Ok t) ids.
Proof.
  destruct (interact_twitter E pending_tweets st) as [r st'] eqn:H. simpl.
  intros ->. revert H.
  enough (Hy : yields (interact_twitter E pending_tweets)
                 (fun r => Forall (fun t =>
            dict_has (py_str E t) pending_tweets = true
            /\ exists h prompt response json_response interactions decision,
                 genai E h prompt = Some response
                 /\ parse_json_from_llm response = Some json_response
                 /\ py_iter json_response = Ok interactions
                 /\ In decision interactions
                 /\ py_get decision "tweet_id" = Ok t) (snd r))).
  { intros H. exact (Hy _ _ _ H). }
  unfold interact_twitter.
  eapply yields_bind; [apply yields_any | intros tweets _].
  eapply yields_bind; [apply yields_any | intros previous _].
  eapply yields_bind; [apply call_genai_answer | intros llm_response [h Hh]].
  destruct llm_response as [llm_response|].
  2:{ eapply yields_bind; [apply yields_any | intros _ _].
      apply yields_ret. constructor. }
  destruct (parse_json_from_llm llm_response) as [json_response|] eqn:Hj.
  2:{ apply yields_ret. constructor. }
  destruct (negb _); [apply yields_ret; constructor|].
  eapply yields_bind with
    (Q1 := fun interactions => py_iter json_response = Ok interactions).
  { apply yields_lift. auto. }
  intros interactions Hit.
  eapply yields_bind.
  - apply yields_for_each_in with
      (Inv := Forall (fun t =>
            dict_has (py_str E t) pending_tweets = true
            /\ exists h prompt response json_response interactions decision,
                 genai E h prompt = Some response
                 /\ parse_json_from_llm response = Some json_response
                 /\ py_iter json_response = Ok interactions
                 /\ In decision interactions
                 /\ py_get decision "tweet_id" = Ok t)); [|constructor].
    intros x s Hx Hs. apply interact_one_adds; [|exact Hs].
    intros t Ht Hk. split; [exact Hk|].
    exists h. do 5 eexists. repeat split; eauto.
  - intros new_ids Hn. apply yields_ret. exact Hn.
Qed.

Lemma recorded_ids_are_decision_ids_witness :
  Forall (fun t =>
            dict_has (py_str fenced_like_world t) gm_pending = true
            /\ exists h prompt response json_response interactions decision,
                 genai fenced_like_world h prompt = Some response
                 /\ parse_json_from_llm response = Some json_response
                 /\ py_iter json_response = Ok interactions
                 /\ In decision interactions
                 /\ py_get decision "tweet_id" = Ok t) [PStr "111"].
Proof.
  apply (recorded_ids_are_decision_ids fenced_like_world gm_pending
           empty_state Event.DONE [PStr "111"]).
  vm_compute. reflexivity.
Defined.

(** X8.  The test for an already interacted tweet compares integers: when
    the loaded collection holds only strings, the latest tweet of a handle
    is always taken as pending, whatever the strings are; and a latest
    tweet whose id is not the text of an integer makes the turn raise
    [ValueError]. *)
Theorem string_ids_never_filter (E : Env) (items : list pyval)
  (agent_handle : string) (pending_tweets : list (string * pending_tweet))
  (st : state) (latest : tweet) (rest : list tweet) :
  twikit_get_user_tweets E (trace st) agent_handle = latest :: rest ->
  (forall z, int_of_str (tweet_id_of latest) = Some z ->
     (forall v, In v items -> exists s, v = PStr s) ->
     fst (collect_pending E (PList items) agent_handle pending_tweets st)
     = Ok (dict_set (tweet_id_of latest) (pending_of latest) pending_tweets))
  /\ (int_of_str (tweet_id_of latest) = None ->
      forall ledger,
        fst (collect_pending E ledger agent_handle pending_tweets st)
        = Raise ValueError).
Proof.
  intros Hl. split.
  - intros z Hz Hs.
    unfold collect_pending, _call_twikit_get_user_tweets, bind, history,
      emit, lift, ret. simpl. rewrite Hl. simpl. rewrite Hz. simpl.
    assert (Hn : existsb (py_eq_int E z) items = false).
    { induction items as [|v items IH]; [reflexivity|]. simpl.
      destruct (Hs v (or_introl eq_refl)) as [s ->]. simpl.
      apply IH. intros v' Hv'. apply Hs. now right. }
    rewrite Hn. reflexivity.
  - intros Hz ledger.
    unfold collect_pending, _call_twikit_get_user_tweets, bind, history,
      emit, lift, ret. simpl. rewrite Hl. simpl. rewrite Hz. reflexivity.
Qed.

Lemma string_ids_never_filter_witness :
  fst (collect_pending fresh_like_world (PList [PStr "111"]) "alice" []
         empty_state)
  = Ok [("111", pending_of alice_tweet)].
Proof.
  refine (proj1 (string_ids_never_filter fresh_like_world [PStr "111"]
                   "alice" [] empty_state alice_tweet [] _) 111 _ _).
  - reflexivity.
  - reflexivity.
  - intros v [<-|[]]. now exists "111".
Defined.

(** ** The Chain Action Builder *)

(** X9.  Neither [get_tx_hash] nor [post_action] ever changes the store,
    whatever the token action, the final hash and the answers of the
    contracts. *)
Theorem chain_builder_never_writes (E : Env) (st : state) :
  kv (snd (get_tx_hash E st)) = kv st
  /\ kv (snd (post_action E st)) = kv st.
Proof.
  split; [apply get_tx_hash_same_kv | apply post_action_same_kv].
Qed.

Lemma bytes_fromhex_byte (x : Byte.byte) (s : string) :
  bytes_fromhex
    (String (hex_digit (Byte.to_N x / 16))
       (String (hex_digit (Byte.to_N x mod 16)) s))
  = match bytes_fromhex s with
    | Ok rest => Ok (x :: rest)
    | Raise _ => Raise ValueError
    end.
Proof. destruct x; reflexivity. Qed.

Lemma bytes_fromhex_hex (b : list Byte.byte) :
  bytes_fromhex (bytes_hex b) = Ok b.
Proof.
  induction b as [|x b IH]; [reflexivity|].
  cbn [bytes_hex]. cbv zeta. rewrite bytes_fromhex_byte. now rewrite IH.
Qed.

Lemma build_safe_tx_hash_first E to_address value data st :
  exists evs,
    trace (snd (_build_safe_tx_hash E to_address value data st))
    = (trace st
       ++ EvContract (safe_hash_request E to_address value data) :: evs)%list.
Proof.
  unfold _build_safe_tx_hash. apply contract_call_first.
  intros response_msg. unfold logger_error. logs_any.
Qed.

(** X10.  When the factory contract answers the build call with call data,
    the next call of [get_tx_hash] asks the safe contract for the hash of a
    transaction to the factory address that carries exactly those bytes
    (the detour through their hexadecimal text changes nothing), with the
    token action's [amount] as value for a summon or a heart and with zero
    for every other action. *)
Theorem safe_call_forwards_data (E : Env) (st : state) (action : pyval)
  (kwargs : list (string * pyval)) (data : list Byte.byte) (value : Z) :
  final_tx_hash E = None ->
  py_truthy E (token_action E) = true ->
  py_subscript (token_action E) "action" = Ok action ->
  route_kwargs E (token_action E) action = Ok kwargs ->
  performative (contract_api E (trace st) (build_request E action kwargs))
  = RAW_TRANSACTION ->
  body_data (contract_api E (trace st) (build_request E action kwargs))
  = Some data ->
  (if in_names action ["summon"; "heart"]
   then exists amount, py_subscript (token_action E) "amount" = Ok amount
                       /\ py_int E amount = Ok value
   else value = 0) ->
  exists evs,
    trace (snd (get_tx_hash E st))
    = (trace st
       ++ EvContract (build_request E action kwargs)
       :: EvContract
            (safe_hash_request E (meme_factory_address E) value data)
       :: evs)%list.
Proof.
  intros Hfinal Htruthy Haction Hroute Hperf Hdata Hvalue.
  unfold get_tx_hash. rewrite Hfinal, Htruthy. cbn [negb].
  rewrite (bind_lift_ok _ _ _ Haction), (bind_lift_ok _ _ _ Hroute).
  unfold get_contract_api_response at 1.
  unfold bind at 1. unfold bind at 1. unfold history at 1.
  unfold bind at 1. unfold emit at 1. unfold ret at 1.
  cbn [fst snd trace kv].
  change {| rq_performative := GET_RAW_TRANSACTION;
            rq_contract_address := meme_factory_address E;
            rq_contract_id := MemeFactoryContract_contract_id E;
            rq_contract_callable := "build_" ++ py_str E action ++ "_tx";
            rq_chain_id := chain_id E;
            rq_kwargs := kwargs |} with (build_request E action kwargs).
  rewrite Hperf, Hdata.
  assert (Hv : (if negb (in_names action ["summon"; "heart"])
                then ret ZERO_VALUE
                else amount <- lift (py_subscript (token_action E) "amount") ;;
                     lift (py_int E amount))
               = ret value).
  { destruct (in_names action ["summon"; "heart"]); cbn [negb].
    - destruct Hvalue as (amount & Ha & Hi).
      rewrite (bind_lift_ok _ _ _ Ha). now rewrite Hi.
    - now subst value. }
  rewrite Hv. unfold bind at 1. unfold ret at 1.
  rewrite bytes_fromhex_hex. unfold bind at 1. unfold lift at 1.
  unfold ret at 1.
  set (st1 := {| kv := kv st;
                 trace := (trace st
                           ++ [EvContract (build_request E action kwargs)])%list |}).
  set (rest := fun safe_tx_hash : option string =>
         (if py_eq_str action "heart"
          then token_nonce <- lift (py_subscript (token_action E)
                                      "token_nonce") ;;
               dropped_generator (store_heart E token_nonce)
          else ret tt) ;;; ret safe_tx_hash).
  assert (Hrest : forall x, tracks (logs any_event) (rest x)).
  { intros x. unfold rest. logs_any. }
  destruct (build_safe_tx_hash_first E (meme_factory_address E) value data st1)
    as (evs1 & Ht1).
  unfold bind at 1.
  destruct (_build_safe_tx_hash E (meme_factory_address E) value data st1)
    as [[r|e] st2]; cbn [snd] in Ht1.
  - destruct (Hrest r st2) as (evs2 & Ht2 & _).
    exists (evs1 ++ evs2)%list. rewrite Ht2, Ht1. subst st1. cbn [trace].
    now rewrite <- !app_assoc.
  - exists evs1. cbn [snd]. rewrite Ht1. subst st1. cbn [trace].
    now rewrite <- !app_assoc.
Qed.

Lemma safe_call_forwards_data_witness :
  exists evs,
    trace (snd (get_tx_hash heart_world empty_state))
    = (trace empty_state
       ++ EvContract (build_request heart_world (PStr "heart")
                        [("meme_nonce", PInt 5)])
       :: EvContract
            (safe_hash_request heart_world (meme_factory_address heart_world)
               1000 [Byte.xab; Byte.xcd])
       :: evs)%list.
Proof.
  apply (safe_call_forwards_data heart_world empty_state (PStr "heart")
           [("meme_nonce", PInt 5)] [Byte.xab; Byte.xcd] 1000);
    try reflexivity.
  exists (PInt 1000). split; reflexivity.
Defined.

(** X11.  [get_tx_hash] validates no action name: for a token action whose
    [action] is none of the five known names it still calls the factory
    contract, with the callable [build_<action>_tx] and no keyword argument
    at all. *)
Theorem unrouted_action_is_built (E : Env) (st : state)
  (fields : list (string * pyval)) (action : pyval) :
  final_tx_hash E = None ->
  token_action E = PDict fields ->
  dict_get "action" fields = Some action ->
  in_names action routed_actions = false ->
  exists evs,
    trace (snd (get_tx_hash E st))
    = (trace st ++ EvContract (build_request E action []) :: evs)%list.
Proof.
  intros Hfinal Htoken Haction Hnames.
  unfold get_tx_hash. rewrite Hfinal, Htoken.
  assert (Htruthy : py_truthy E (PDict fields) = true).
  { destruct fields; [discriminate | reflexivity]. }
  rewrite Htruthy. cbn [negb].
  assert (Hsub : py_subscript (PDict fields) "action" = Ok action).
  { simpl. now rewrite Haction. }
  rewrite (bind_lift_ok _ _ _ Hsub).
  assert (Hroute : route_kwargs E (PDict fields) action = Ok []).
  { unfold in_names, routed_actions in Hnames. cbn [existsb] in Hnames.
    repeat (apply orb_false_elim in Hnames as [? Hnames]).
    unfold route_kwargs, in_names. cbn [existsb].
    repeat match goal with H : py_eq_str action _ = false |- _ =>
             rewrite H; clear H end.
    reflexivity. }
  rewrite (bind_lift_ok _ _ _ Hroute).
  apply contract_call_first. intros response_msg.
  unfold logger_error.
  logs_any.
Qed.

Lemma unrouted_action_is_built_witness :
  exists evs,
    trace (snd (get_tx_hash burn_world empty_state))
    = (trace empty_state
       ++ EvContract (build_request burn_world (PStr "burn") []) :: evs)%list.
Proof.
  apply (unrouted_action_is_built burn_world empty_state
           [("action", PStr "burn"); ("amount", PInt 9)]); reflexivity.
Defined.

(** X12.  How [get_tx_hash] gives up while no final hash is known.  With
    an empty token action it returns [None] and calls nothing.  A missing
    [action], or a field the routing needs and does not find, raises before
    any contract is called.  When the factory's answer is not a raw
    transaction, or carries no data, it returns [None] after that one call
    and an error line: the safe contract is not called. *)
Theorem get_tx_hash_failures (E : Env) (st : state) :
  final_tx_hash E = None ->
  (py_truthy E (token_action E) = false -> get_tx_hash E st = (Ok None, st))
  /\ (forall e,
        py_truthy E (token_action E) = true ->
        py_subscript (token_action E) "action" = Raise e ->
        get_tx_hash E st = (Raise e, st))
  /\ (forall action e,
        py_truthy E (token_action E) = true ->
        py_subscript (token_action E) "action" = Ok action ->
        route_kwargs E (token_action E) action = Raise e ->
        get_tx_hash E st = (Raise e, st))
  /\ (forall action kwargs,
        py_truthy E (token_action E) = true ->
        py_subscript (token_action E) "action" = Ok action ->
        route_kwargs E (token_action E) action = Ok kwargs ->
        performative (contract_api E (trace st)
                        (build_request E action kwargs)) <> RAW_TRANSACTION
        \/ body_data (contract_api E (trace st)
                        (build_request E action kwargs)) = None ->
        fst (get_tx_hash E st) = Ok None
        /\ exists message,
             trace (snd (get_tx_hash E st))
             = (trace st ++ [EvContract (build_request E action kwargs);
                             EvLogError message])%list).
Proof.
  intros Hfinal. unfold get_tx_hash. rewrite Hfinal. repeat split.
  - intros ->. reflexivity.
  - intros e -> ->. reflexivity.
  - intros action e -> Ha Hr. cbn [negb].
    rewrite (bind_lift_ok _ _ _ Ha). now rewrite Hr.
  - revert H H0 H1 H2. intros -> Ha Hr Hresp. cbn [negb].
    rewrite (bind_lift_ok _ _ _ Ha), (bind_lift_ok _ _ _ Hr).
    unfold get_contract_api_response, logger_error, bind, history, emit, ret.
    cbn [fst snd trace kv].
    change {| rq_performative := GET_RAW_TRANSACTION;
              rq_contract_address := meme_factory_address E;
              rq_contract_id := MemeFactoryContract_contract_id E;
              rq_contract_callable := "build_" ++ py_str E action ++ "_tx";
              rq_chain_id := chain_id E;
              rq_kwargs := kwargs |} with (build_request E action kwargs).
    destruct (performative (contract_api E (trace st)
                              (build_request E action kwargs)));
      try reflexivity.
    destruct Hresp as [Hresp|Hresp]; [now destruct Hresp|].
    rewrite Hresp. reflexivity.
  - revert H H0 H1 H2. intros -> Ha Hr Hresp. cbn [negb].
    rewrite (bind_lift_ok _ _ _ Ha), (bind_lift_ok _ _ _ Hr).
    unfold get_contract_api_response, logger_error, bind, history, emit, ret.
    cbn [fst snd trace kv].
    change {| rq_performative := GET_RAW_TRANSACTION;
              rq_contract_address := meme_factory_address E;
              rq_contract_id := MemeFactoryContract_contract_id E;
              rq_contract_callable := "build_" ++ py_str E action ++ "_tx";
              rq_chain_id := chain_id E;
              rq_kwargs := kwargs |} with (build_request E action kwargs).
    destruct (performative (contract_api E (trace st)
                              (build_request E action kwargs)));
      try (eexists; cbn [snd trace]; rewrite <- app_assoc; reflexivity).
    destruct Hresp as [Hresp|Hresp]; [now destruct Hresp|].
    rewrite Hresp. eexists. cbn [snd trace]. rewrite <- app_assoc.
    reflexivity.
Qed.

Lemma get_tx_hash_failures_witness :
  fst (get_tx_hash failing_world empty_state) = Ok None
  /\ exists message,
       trace (snd (get_tx_hash failing_world empty_state))
       = (trace empty_state
          ++ [EvContract (build_request failing_world (PStr "heart")
                            [("meme_nonce", PInt 5)]);
              EvLogError message])%list.
Proof.
  refine (proj2 (proj2 (proj2 (get_tx_hash_failures failing_world empty_state
                                 _))) (PStr "heart") [("meme_nonce", PInt 5)]
            _ _ _ _); try reflexivity.
  left. discriminate.
Defined.

(** ** The single-post pass *)

(** X13.  [ActionTweetBehaviour.get_event] posts the [tweet] text of the
    token action and returns [DONE] exactly when the social collaborator
    returns at least one id, and [ERROR] otherwise; it never changes the
    store, so the posted tweet is not added to the stored tweets. *)
Theorem action_tweet_event (E : Env) (st : state) (text : pyval) :
  py_subscript (token_action E) "tweet" = Ok text ->
  kv (snd (ActionTweetBehaviour.get_event E st)) = kv st
  /\ (fst (ActionTweetBehaviour.get_event E st) = Ok Event.DONE
      \/ fst (ActionTweetBehaviour.get_event E st) = Ok Event.ERROR)
  /\ (fst (ActionTweetBehaviour.get_event E st) = Ok Event.DONE
      <-> exists first_id ids,
            twikit_post E (trace st) [PDict [("text", text)]]
            = Some (first_id :: ids))
  /\ exists evs,
       trace (snd (ActionTweetBehaviour.get_event E st))
       = (trace st
          ++ EvTwikit "post" [("tweets", PList [PDict [("text", text)]])]
          :: evs)%list.
Proof.
  intros Ht. unfold ActionTweetBehaviour.get_event.
  rewrite (bind_lift_ok _ _ _ Ht).
  unfold post_tweet, _call_twikit_post, logger_error, bind, history, emit, ret.
  cbn [map fst snd kv trace].
  destruct (twikit_post E (trace st) [PDict [("text", text)]])
    as [[|first_id ids]|]; cbn [fst snd kv trace py_truthy].
  - repeat split; auto.
    + discriminate.
    + intros (f & i & H). discriminate.
    + eexists. rewrite <- app_assoc. reflexivity.
  - repeat split; auto.
    + eauto.
    + exists []. reflexivity.
  - repeat split; auto.
    + discriminate.
    + intros (f & i & H). discriminate.
    + eexists. rewrite <- app_assoc. reflexivity.
Qed.

Lemma action_tweet_event_witness :
  kv (snd (ActionTweetBehaviour.get_event announce_world own_tweets_state))
  = kv own_tweets_state
  /\ fst (ActionTweetBehaviour.get_event announce_world own_tweets_state)
     = Ok Event.DONE.
Proof.
  destruct (action_tweet_event announce_world own_tweets_state
              (PStr "gm frens") eq_refl) as (Hkv & _ & Hdone & _).
  split; [exact Hkv|]. apply Hdone. now exists (PStr "900"), [].
Defined.

(** ** Edges of the Feedback Ranker *)

Lemma get_tweets_from_db_same_kv E : tracks same_kv (get_tweets_from_db E).
Proof.
  unfold get_tweets_from_db, logger_error. same_kv_auto.
Qed.

Lemma get_feedback_same_kv E : tracks same_kv (get_feedback E).
Proof.
  unfold get_feedback, _call_twikit_search, logger_error.
  apply (tracks_bind same_kv same_kv_trans);
    [apply get_tweets_from_db_same_kv | intros tweets].
  same_kv_auto.
Qed.

(** X14.  [get_feedback] never changes the store.  With no stored tweet it
    returns the empty list without searching.  When the latest stored tweet
    has no [tweet_id] it raises before searching.  When the search fails it
    returns [None], which tells a failed search from a search with no
    reply. *)
Theorem feedback_edges (E : Env) (st : state) :
  kv (snd (get_feedback E st)) = kv st
  /\ (forall st1,
        get_tweets_from_db E st = (Ok [], st1) ->
        get_feedback E st
        = (Ok (Some []),
           {| kv := kv st1;
              trace := (trace st1 ++ [EvLogError "No tweets yet"])%list |}))
  /\ (forall st1 tweets latest_tweet e,
        get_tweets_from_db E st = (Ok tweets, st1) ->
        last tweets = Some latest_tweet ->
        py_subscript latest_tweet "tweet_id" = Raise e ->
        get_feedback E st = (Raise e, st1))
  /\ (forall st1 tweets latest_tweet tweet_id,
        get_tweets_from_db E st = (Ok tweets, st1) ->
        last tweets = Some latest_tweet ->
        py_subscript latest_tweet "tweet_id" = Ok tweet_id ->
        twikit_search E (trace st1) ("conversation_id:" ++ py_str E tweet_id)
          100 = None ->
        fst (get_feedback E st) = Ok None).
Proof.
  split; [apply get_feedback_same_kv|]. split; [|split].
  - intros st1 Hdb. unfold get_feedback. rewrite (bind_ok _ _ _ _ _ Hdb).
    reflexivity.
  - intros st1 tweets latest_tweet e Hdb Hlast Hsub. unfold get_feedback.
    rewrite (bind_ok _ _ _ _ _ Hdb). rewrite Hlast, Hsub. reflexivity.
  - intros st1 tweets latest_tweet tweet_id Hdb Hlast Hsub Hsearch.
    unfold get_feedback. rewrite (bind_ok _ _ _ _ _ Hdb). rewrite Hlast.
    rewrite (bind_lift_ok _ _ _ Hsub).
    unfold _call_twikit_search, logger_error, history, emit, bind, lift, ret.
    cbn [kv trace]. rewrite Hsearch. reflexivity.
Qed.

Lemma feedback_edges_witness :
  fst (get_feedback silent_world own_tweets_state) = Ok None.
Proof.
  refine (proj2 (proj2 (proj2 (feedback_edges silent_world own_tweets_state)))
            _ _ _ (PStr "5") _ _ _ _); try (vm_compute; reflexivity).
Defined.

Lemma sorted_desc_ties (k : Z) (l : list pyval) :
  sorted_desc (map (fun t => (k, t)) l) = map (fun t => (k, t)) l.
Proof.
  unfold sorted_desc. induction l as [|x l IH]; [reflexivity|].
  cbn [map fold_right]. rewrite IH.
  destruct l as [|y l]; [reflexivity|].
  cbn [map insert_desc fst]. now rewrite Z.leb_refl.
Qed.

Lemma keyed_ties E (k : Z) (l : list pyval) :
  Forall (fun t => popularity E t = Ok k) l ->
  keyed E l = Ok (map (fun t => (k, t)) l).
Proof.
  induction 1 as [|x l Hx _ IH]; [reflexivity|].
  cbn [keyed map]. now rewrite Hx, IH.
Qed.

(** X15.  Replies of equal score keep the order in which the search
    returned them: when all replies have the same score (for one, when none
    carries a counter), [get_feedback] returns the first ten of them
    unchanged. *)
Theorem feedback_ties_keep_order (E : Env) (st st1 : state)
  (tweets : list pyval) (latest_tweet tweet_id : pyval)
  (replies : list pyval) (score : Z) :
  get_tweets_from_db E st = (Ok tweets, st1) ->
  last tweets = Some latest_tweet ->
  py_subscript latest_tweet "tweet_id" = Ok tweet_id ->
  twikit_search E (trace st1) ("conversation_id:" ++ py_str E tweet_id) 100
  = Some replies ->
  Forall (fun t => popularity E t = Ok score) replies ->
  fst (get_feedback E st) = Ok (Some (firstn 10 replies)).
Proof.
  intros Hdb Hlast Hsub Hsearch Hties.
  unfold get_feedback. rewrite (bind_ok _ _ _ _ _ Hdb). rewrite Hlast.
  rewrite (bind_lift_ok _ _ _ Hsub).
  unfold _call_twikit_search, logger_error, history, emit, bind, lift, ret.
  cbn [kv trace]. rewrite Hsearch.
  destruct replies as [|t replies']; [reflexivity|].
  rewrite (keyed_ties E score _ Hties). cbn [fst].
  rewrite sorted_desc_ties. rewrite map_map. cbn [snd]. now rewrite map_id.
Qed.

Lemma feedback_ties_keep_order_witness :
  fst (get_feedback plain_replies_world own_tweets_state)
  = Ok (Some (firstn 10 plain_replies)).
Proof.
  eapply (feedback_ties_keep_order plain_replies_world own_tweets_state _ _ _
            (PStr "5") plain_replies 0); try (vm_compute; reflexivity).
  repeat constructor.
Defined.

(** ** Decisions the engagement pass does not act upon *)

Lemma interact_one_unknown E pending_tweets fields new_ids st :
  in_names (default PNone (dict_get "action" fields)) known_actions = false ->
  interact_one E pending_tweets (PDict fields) new_ids st
  = if py_eq_str (default PNone (dict_get "action" fields)) "none"
       || negb (dict_has (py_str E (default PNone (dict_get "tweet_id" fields)))
                  pending_tweets)
    then (Ok new_ids, st)
    else
      let st1 :=
        {| kv := kv st;
           trace := (trace st ++ [EvSleep (entropy E (trace st) mod 5)])%list |}
      in
      match weighted_length E (default PNone (dict_get "text" fields)) with
      | Ok n =>
          if n <=? MAX_TWEET_CHARS then (Ok new_ids, st1)
          else (Ok new_ids,
                {| kv := kv st;
                   trace := (trace st1
                             ++ [EvLogError "The tweet is too long."])%list |})
      | Raise e => (Raise e, st1)
      end.
Proof.
  intros Hnames.
  unfold in_names, known_actions in Hnames. cbn [existsb] in Hnames.
  repeat (apply orb_false_elim in Hnames as [? Hnames]).
  unfold interact_one. cbn [py_get].
  set (action := default PNone (dict_get "action" fields)) in *.
  set (tweet_id := default PNone (dict_get "tweet_id" fields)) in *.
  set (text := default PNone (dict_get "text" fields)) in *.
  unfold bind at 1. cbn [lift ret]. unfold bind at 1. cbn [lift ret].
  unfold bind at 1. cbn [lift ret].
  destruct (py_eq_str action "none"); [reflexivity|].
  rewrite H. cbn [negb andb orb]. unfold dict_has.
  destruct (dict_get (py_str E tweet_id) pending_tweets) as [p|] eqn:Ep;
    [|reflexivity].
  rewrite H0, H1, H2, H3, H4.
  unfold randbelow, sleep, is_tweet_valid, logger_error, bind, history, emit,
    lift, ret. cbn [kv trace].
  destruct (weighted_length E text) as [n|e]; [|reflexivity].
  destruct (n <=? MAX_TWEET_CHARS); reflexivity.
Qed.

(** X16.  A decision whose action is none of tweet, like, follow, retweet,
    reply and quote (the action [none], a missing action, a misspelt one)
    makes no call to the social collaborator, adds no id and leaves the
    store as it was, whether or not its tweet is pending. *)
Theorem unknown_action_is_ignored (E : Env)
  (pending_tweets : list (string * pending_tweet))
  (fields : list (string * pyval)) (new_ids : list pyval) (st : state) :
  in_names (default PNone (dict_get "action" fields)) known_actions = false ->
  (forall r, fst (interact_one E pending_tweets (PDict fields) new_ids st)
             = Ok r -> r = new_ids)
  /\ kv (snd (interact_one E pending_tweets (PDict fields) new_ids st))
     = kv st
  /\ exists evs,
       trace (snd (interact_one E pending_tweets (PDict fields) new_ids st))
       = (trace st ++ evs)%list
       /\ Forall no_call evs.
Proof.
  intros Hnames. rewrite (interact_one_unknown _ _ _ _ _ Hnames).
  destruct (_ || _).
  { repeat split.
    - intros r Hr. now inversion Hr.
    - exists []. split; [now rewrite app_nil_r | constructor]. }
  cbv zeta.
  destruct (weighted_length E _) as [n|e]; [destruct (n <=? MAX_TWEET_CHARS)|].
  - repeat split.
    + intros r Hr. now inversion Hr.
    + eexists. split; [reflexivity|]. repeat constructor.
  - repeat split.
    + intros r Hr. now inversion Hr.
    + eexists. cbn [snd trace]. rewrite <- app_assoc.
      split; [reflexivity|]. repeat constructor.
  - repeat split.
    + intros r Hr. discriminate.
    + eexists. split; [reflexivity|]. repeat constructor.
Qed.

Lemma unknown_action_is_ignored_witness :
  kv (snd (interact_one like_world gm_pending
             (PDict [("tweet_id", PStr "111"); ("action", PStr "bookmark")])
             [] empty_state))
  = kv empty_state.
Proof.
  refine (proj1 (proj2 (unknown_action_is_ignored like_world gm_pending
                          [("tweet_id", PStr "111");
                           ("action", PStr "bookmark")] [] empty_state _))).
  reflexivity.
Defined.

(** ** Replies and quotes *)

(** X17.  For a reply or a quote of a pending tweet the text is measured
    first: a text of weighted length above 280 is not posted (an error is
    logged, no id is added), a text of at most 280 is posted once, as a
    reply to the decision's tweet id or, for a quote, with the attachment
    [https://x.com/<user_name>/status/<tweet_id>] built from the pending
    tweet's author; the id is added exactly when the post returns ids. *)
Theorem reply_and_quote_posts (E : Env)
  (pending_tweets : list (string * pending_tweet))
  (fields : list (string * pyval)) (new_ids : list pyval) (st : state)
  (tweet_id text : pyval) (p : pending_tweet) (n : Z) :
  dict_get "tweet_id" fields = Some tweet_id ->
  dict_get "text" fields = Some text ->
  dict_get (py_str E tweet_id) pending_tweets = Some p ->
  weighted_length E text = Ok n ->
  let run := interact_one E pending_tweets (PDict fields) new_ids st in
  let post_of tweet :=
    (Ok (if posted (twikit_post E (trace (delayed E st)) [PDict tweet])
         then (new_ids ++ [tweet_id])%list else new_ids),
     {| kv := kv st;
        trace := (trace (delayed E st)
                  ++ [EvTwikit "post" [("tweets", PList [PDict tweet])]])%list
     |}) in
  (dict_get "action" fields = Some (PStr "reply")
   \/ dict_get "action" fields = Some (PStr "quote") ->
   MAX_TWEET_CHARS < n ->
   run = (Ok new_ids,
          {| kv := kv st;
             trace := (trace (delayed E st)
                       ++ [EvLogError "The tweet is too long."])%list |}))
  /\ (dict_get "action" fields = Some (PStr "reply") ->
      n <= MAX_TWEET_CHARS ->
      run = post_of [("text", text); ("reply_to", tweet_id)])
  /\ (dict_get "action" fields = Some (PStr "quote") ->
      n <= MAX_TWEET_CHARS ->
      run = post_of
              [("text", text);
               ("attachment_url",
                PStr ("https://x.com/" ++ pt_user_name p ++ "/status/"
                      ++ py_str E tweet_id))]).
Proof.
  intros Hid Htext Hp Hn run post_of.
  assert (Hrun : forall action,
            dict_get "action" fields = Some (PStr action) ->
            String.eqb action "reply" || String.eqb action "quote" = true ->
            run =
            (delay <- randbelow E 5 ;;
             sleep delay ;;;
             if negb (n <=? MAX_TWEET_CHARS) then
               logger_error "The tweet is too long." ;;;
               ret new_ids
             else
               new_interacted_tweet_ids <-
                 (if String.eqb action "reply" then
                    responded <- respond_tweet E tweet_id text false PNone ;;
                    ret (if responded then new_ids ++ [tweet_id]
                         else new_ids)%list
                  else ret new_ids) ;;
               if String.eqb action "quote" then
                 quoted <- respond_tweet E tweet_id text true
                             (PStr (pt_user_name p)) ;;
                 ret (if quoted then new_interacted_tweet_ids ++ [tweet_id]
                      else new_interacted_tweet_ids)%list
               else ret new_interacted_tweet_ids) st).
  { intros action Ha Hrq. subst run.
    unfold interact_one. cbn [py_get]. rewrite Hid, Htext, Ha.
    cbn [default id py_eq_str].
    unfold bind at 1. cbn [lift ret]. unfold bind at 1. cbn [lift ret].
    unfold bind at 1. cbn [lift ret].
    unfold dict_has. rewrite Hp.
    unfold is_tweet_valid. rewrite Hn.
    apply orb_true_iff in Hrq as [Hrq|Hrq]; apply String.eqb_eq in Hrq;
      subst action; reflexivity. }
  subst post_of. cbv beta. split; [|split].
  - intros Ha Hlong.
    assert (Hl : (n <=? MAX_TWEET_CHARS) = false) by (apply Z.leb_gt; lia).
    destruct Ha as [Ha|Ha]; rewrite (Hrun _ Ha eq_refl), Hl; reflexivity.
  - intros Ha Hshort.
    assert (Hl : (n <=? MAX_TWEET_CHARS) = true) by (apply Z.leb_le; lia).
    rewrite (Hrun _ Ha eq_refl), Hl. unfold delayed, posted.
    unfold randbelow, sleep, respond_tweet, _call_twikit_post, logger_error,
      bind, history, emit, lift, ret. cbn.
    destruct (twikit_post E _ _) as [[|first_id ids]|]; reflexivity.
  - intros Ha Hshort.
    assert (Hl : (n <=? MAX_TWEET_CHARS) = true) by (apply Z.leb_le; lia).
    rewrite (Hrun _ Ha eq_refl), Hl. unfold delayed, posted.
    unfold randbelow, sleep, respond_tweet, _call_twikit_post, logger_error,
      bind, history, emit, lift, ret. cbn.
    destruct (twikit_post E _ _) as [[|first_id ids]|]; reflexivity.
Qed.

Lemma reply_and_quote_posts_witness :
  interact_one like_world gm_pending (PDict reply_decision) [] empty_state
  = (Ok [PStr "111"],
     {| kv := kv empty_state;
        trace :=
          (trace (delayed like_world empty_state)
           ++ [EvTwikit "post"
                 [("tweets",
                   PList [PDict [("text", PStr "gm gm");
                                 ("reply_to", PStr "111")]])]])%list |}).
Proof.
  refine (proj1 (proj2 (reply_and_quote_posts like_world gm_pending
                          reply_decision [] empty_state (PStr "111")
                          (PStr "gm gm")
                          {| pt_text := "gm"; pt_user_name := "alice" |} 5
                          _ _ _ _)) _ _);
    try reflexivity.
  unfold MAX_TWEET_CHARS. lia.
Defined.

(** ** From a stored post to the search for its replies *)

Lemma get_tweets_from_db_read E st value tweets :
  kv_read_ok E (trace st) = true ->
  kv st !! "tweets" = Some value ->
  json_loads value = Some (PList tweets) ->
  get_tweets_from_db E st
  = (Ok tweets,
     {| kv := kv st; trace := (trace st ++ [EvKvRead ["tweets"]])%list |}).
Proof.
  intros Hok Hk Hl.
  unfold get_tweets_from_db, _read_kv, logger_error, bind, history, emit, ret.
  cbn [kv trace map]. rewrite Hok. cbn [kv trace]. rewrite Hk.
  rewrite dict_get_head. cbn [default id].
  destruct value as [|c s]; [discriminate|].
  cbn [or_empty_list]. rewrite Hl. reflexivity.
Qed.

Lemma get_tweets_from_db_returns E st :
  exists tweets st1, get_tweets_from_db E st = (Ok tweets, st1)
                     /\ kv st1 = kv st.
Proof.
  pose proof (get_tweets_from_db_same_kv E st) as Hkv.
  unfold get_tweets_from_db, _read_kv, logger_error, bind, history, emit, ret
    in *.
  cbn [kv trace map] in *.
  destruct (kv_read_ok E (trace st)); cbn [kv trace] in *; [|eauto].
  destruct (json_loads _) as [[]|]; eauto.
Qed.

(** X18.  A post that [post_tweet] stores becomes the latest stored tweet,
    and the next [get_feedback] searches the conversation of the first id
    the post returned.  This holds when the store can be read and
    [json.loads] gives back the list that [json.dumps] has written. *)
Theorem feedback_follows_latest_post (E : Env) (st : state) (text : pyval)
  (first_id : pyval) (ids : list pyval) :
  let latest_tweet :=
    PDict [("tweet_id", first_id); ("text", PList [text]);
           ("timestamp", sync_timestamp E)] in
  let st' := snd (post_tweet E [text] true st) in
  twikit_post E (trace st) [PDict [("text", text)]] = Some (first_id :: ids) ->
  kv_read_ok E (trace st') = true ->
  (forall tweets,
     fst (get_tweets_from_db E (after_post st text)) = Ok tweets ->
     json_loads (json_dumps E false (PList (tweets ++ [latest_tweet])))
     = Some (PList (tweets ++ [latest_tweet]))) ->
  fst (post_tweet E [text] true st) = Ok (Some latest_tweet)
  /\ exists evs,
       trace (snd (get_feedback E st'))
       = (trace st'
          ++ EvKvRead ["tweets"]
          :: EvTwikit "search"
               [("query", PStr ("conversation_id:" ++ py_str E first_id));
                ("count", PInt 100)]
          :: evs)%list.
Proof.
  intros latest_tweet st' Hpost Hok Hjson.
  destruct (get_tweets_from_db_returns E (after_post st text))
    as (tweets & st1 & Hdb & Hkv1).
  assert (Hrun : post_tweet E [text] true st
                 = (Ok (Some latest_tweet),
                    {| kv := <["tweets" :=
                                 json_dumps E false
                                   (PList (tweets ++ [latest_tweet]))]>
                               (kv st1);
                       trace := (trace st1
                                 ++ [EvKvWrite "tweets"
                                       (json_dumps E false
                                          (PList (tweets
                                                  ++ [latest_tweet])))])%list
                    |})).
  { unfold post_tweet, _call_twikit_post.
    unfold bind at 1. unfold bind at 1. unfold history at 1.
    unfold bind at 1. unfold emit at 1. unfold ret at 1.
    cbn [map fst snd kv trace]. rewrite Hpost.
    unfold store_tweet. unfold bind at 1. unfold bind at 1. unfold bind at 1.
    fold (after_post st text). rewrite Hdb. reflexivity. }
  split; [now rewrite Hrun|].
  assert (Hj : json_loads (json_dumps E false (PList (tweets ++ [latest_tweet])))
               = Some (PList (tweets ++ [latest_tweet]))).
  { apply Hjson. now rewrite Hdb. }
  assert (Hst' : st' = snd (post_tweet E [text] true st)) by reflexivity.
  rewrite Hrun in Hst'. cbn [snd] in Hst'. clearbody st'. subst st'.
  unfold get_feedback.
  rewrite (bind_ok _ _ _ _ _
             (get_tweets_from_db_read E _ _ _ Hok (lookup_insert_eq _ _ _)
                Hj)).
  rewrite last_snoc.
  assert (Hsub : py_subscript latest_tweet "tweet_id" = Ok first_id)
    by reflexivity.
  rewrite (bind_lift_ok _ _ _ Hsub).
  unfold _call_twikit_search, logger_error, history, emit, bind, lift, ret.
  cbn [kv trace].
  destruct (twikit_search E _ _ _) as [[|t replies]|];
    [| destruct (keyed E (t :: replies)) |];
    cbn [snd trace]; eexists; rewrite <- !app_assoc; reflexivity.
Qed.

Lemma feedback_follows_latest_post_witness :
  exists evs,
    trace (snd (get_feedback like_world
                  (snd (post_tweet like_world [PStr "gm frens"] true
                          own_tweets_state))))
    = (trace (snd (post_tweet like_world [PStr "gm frens"] true
                     own_tweets_state))
       ++ EvKvRead ["tweets"]
       :: EvTwikit "search"
            [("query", PStr ("conversation_id:"
                             ++ py_str like_world (PStr "900")));
             ("count", PInt 100)]
       :: evs)%list.
Proof.
  refine (proj2 (feedback_follows_latest_post like_world own_tweets_state
                   (PStr "gm frens") (PStr "900") [] _ _ _));
    try reflexivity.
  intros tweets Hdb. vm_compute in Hdb. inversion Hdb; subst tweets.
  vm_compute. reflexivity.
Defined.

(** ** A new post asked for by the model *)

Lemma call_twikit_post_first {B : Type} E tweets
  (k : option (list pyval) -> M B) st :
  (forall tweet_ids, tracks (logs any_event) (k tweet_ids)) ->
  exists evs,
    trace (snd (bind (_call_twikit_post E tweets) k st))
    = (trace st ++ EvTwikit "post" [("tweets", PList tweets)] :: evs)%list.
Proof.
  intros Hk. unfold _call_twikit_post, bind, history, emit, ret. simpl.
  destruct (Hk (twikit_post E (trace st) tweets)
              {| kv := kv st;
                 trace := (trace st
                           ++ [EvTwikit "post"
                                 [("tweets", PList tweets)]])%list |})
    as (evs & Ht & _).
  exists evs. rewrite Ht. simpl. now rewrite <- app_assoc.
Qed.

(** X19.  A decision with the action [tweet] is posted after the delay
    whatever its text is: the text is not measured against the limit of 280
    (no hypothesis on its length is needed), no tweet has to be pending,
    and the pass records no id for it. *)
Theorem tweet_decision_is_not_measured (E : Env)
  (pending_tweets : list (string * pending_tweet))
  (fields : list (string * pyval)) (new_ids : list pyval) (st : state)
  (text : pyval) :
  dict_get "action" fields = Some (PStr "tweet") ->
  dict_get "text" fields = Some text ->
  (forall r, fst (interact_one E pending_tweets (PDict fields) new_ids st)
             = Ok r -> r = new_ids)
  /\ exists evs,
       trace (snd (interact_one E pending_tweets (PDict fields) new_ids st))
       = (trace (delayed E st)
          ++ EvTwikit "post" [("tweets", PList [PDict [("text", text)]])]
          :: evs)%list.
Proof.
  intros Ha Htext.
  assert (Hrun : interact_one E pending_tweets (PDict fields) new_ids st
                 = (post_tweet E [text] true ;;; ret new_ids) (delayed E st)).
  { unfold interact_one. cbn [py_get]. rewrite Ha, Htext.
    cbn [default id py_eq_str].
    unfold bind at 1. cbn [lift ret]. unfold bind at 1. cbn [lift ret].
    unfold bind at 1. cbn [lift ret]. reflexivity. }
  rewrite Hrun. split.
  - intros r Hr.
    destruct ((post_tweet E [text] true ;;; ret new_ids) (delayed E st))
      as [r0 st'] eqn:Hb. simpl in Hr. subst r0.
    apply bind_inv in Hb as [(a & st1 & _ & Hb)|(e & _ & ?)]; [|discriminate].
    now inversion Hb.
  - unfold post_tweet.
    assert (Hassoc : forall (k : option (list pyval) -> M (option pyval)) s,
              ((tweet_ids <- _call_twikit_post E
                                [PDict [("text", text)]] ;; k tweet_ids) ;;;
               ret new_ids) s
              = (tweet_ids <- _call_twikit_post E [PDict [("text", text)]] ;;
                 (k tweet_ids ;;; ret new_ids)) s).
    { intros k s. unfold bind.
      destruct (_call_twikit_post E _ s) as [[a|e] s1]; reflexivity. }
    cbn [map]. rewrite Hassoc.
    apply call_twikit_post_first. intros tweet_ids.
    unfold store_tweet, get_tweets_from_db, logger_error. logs_any.
Qed.

Lemma tweet_decision_is_not_measured_witness :
  exists evs,
    trace (snd (interact_one like_world []
                  (PDict [("action", PStr "tweet");
                          ("text", PStr "gm frens")]) [] empty_state))
    = (trace (delayed like_world empty_state)
       ++ EvTwikit "post"
            [("tweets", PList [PDict [("text", PStr "gm frens")]])]
       :: evs)%list.
Proof.
  refine (proj2 (tweet_decision_is_not_measured like_world []
                   [("action", PStr "tweet"); ("text", PStr "gm frens")]
                   [] empty_state (PStr "gm frens") _ _)); reflexivity.
Defined.

(** * The engagement pass as a whole *)

(** ** A tweet liked twice *)

(** C4.  The dedup invariant fails on ids the pass records itself.  Alice's
    latest tweet is 111 and the model asks to like it, giving the id as a
    JSON string.  A first pass on an empty store likes the tweet, returns
    [DONE] and stores the collection with the string 111 in it.  A second
    pass on that store loads the collection, tests the integer 111 against
    it, does not find it, likes tweet 111 again, returns [DONE] and stores
    the id a second time. *)
Theorem engagement_likes_twice :
  fst (get_event fresh_like_world empty_state) = Ok Event.DONE
  /\ In like_111 (trace first_pass_state)
  /\ kv first_pass_state !! "interacted_tweet_ids" = Some (dq "['111']")
  /\ loaded_ledger fresh_like_world first_pass_state
     = Ok (PList [PStr "111"])
  /\ fst (get_event fresh_like_world first_pass_state) = Ok Event.DONE
  /\ In like_111
       (skipn (length (trace first_pass_state))
          (trace (snd (get_event fresh_like_world first_pass_state))))
  /\ kv (snd (get_event fresh_like_world first_pass_state))
       !! "interacted_tweet_ids"
     = Some (dq "['111', '111']").
Proof.
  repeat split; try (vm_compute; reflexivity); vm_compute; tauto.
Qed.

(** ** The follow call of the pass *)

Lemma tracks_for_each_in {A S : Type} (R : state -> state -> Prop)
  (l : list A) (body : A -> S -> M S) :
  (forall st, R st st) ->
  (forall a b c, R a b -> R b c -> R a c) ->
  (forall x s, In x l -> tracks R (body x s)) ->
  forall s, tracks R (for_each l body s).
Proof.
  intros Hrefl Htrans. induction l as [|x l IH]; intros Hb s; simpl.
  - apply (tracks_ret R Hrefl).
  - apply (tracks_bind R Htrans).
    + apply Hb. now left.
    + intros s'. apply IH. intros y s0 Hy. apply Hb. now right.
Qed.

Lemma quiet_follow_by_tweet_id E pending_tweets ev :
  quiet ev -> follow_by_tweet_id E pending_tweets ev.
Proof. intros Hq kwargs ->. discriminate. Qed.

Lemma interact_one_follow_by_tweet_id E pending_tweets interaction new_ids :
  (forall t action,
     py_get interaction "tweet_id" = Ok t ->
     py_get interaction "action" = Ok action ->
     py_eq_str action "follow" = true -> decided E "follow" t) ->
  tracks (logs (follow_by_tweet_id E pending_tweets))
    (interact_one E pending_tweets interaction new_ids).
Proof.
  intros Hd.
  set (P := follow_by_tweet_id E pending_tweets).
  assert (Hq : forall A (m : M A), tracks (logs quiet) m -> tracks (logs P) m).
  { intros A m. apply logs_weaken. apply quiet_follow_by_tweet_id. }
  unfold interact_one.
  apply (tracks_bind_yields _ (logs_trans P)) with
    (Q := fun t => py_get interaction "tweet_id" = Ok t);
    [logs_auto P | apply yields_lift; auto | intros tweet_id Hid].
  apply (tracks_bind_yields _ (logs_trans P)) with
    (Q := fun a => py_get interaction "action" = Ok a);
    [logs_auto P | apply yields_lift; auto | intros action Hact].
  apply (tracks_bind _ (logs_trans P)); [logs_auto P | intros text].
  destruct (py_eq_str action "none"); [logs_auto P|].
  destruct (_ && _); [logs_auto P|].
  apply (tracks_bind _ (logs_trans P)).
  { unfold randbelow. logs_auto P. }
  intros delay.
  apply (tracks_bind _ (logs_trans P)).
  { apply Hq. unfold sleep. logs_auto quiet. reflexivity. }
  intros _.
  destruct (py_eq_str action "tweet").
  { apply (tracks_bind _ (logs_trans P));
      [apply Hq, post_tweet_quiet | intros; logs_auto P]. }
  destruct (dict_get (py_str E tweet_id) pending_tweets) as [p|] eqn:Ep;
    [|logs_auto P].
  assert (Hk : dict_has (py_str E tweet_id) pending_tweets = true).
  { unfold dict_has. now rewrite Ep. }
  destruct (py_eq_str action "like").
  { unfold like_tweet, _call_twikit_success. logs_auto P.
    intros kwargs Hev. discriminate Hev. }
  destruct (py_eq_str action "follow") eqn:Hf.
  { unfold follow_user, _call_twikit_success. logs_auto P.
    intros kwargs Hev. inversion Hev; subst kwargs.
    exists tweet_id. repeat split; [exact Hk|]. now apply (Hd _ action). }
  unfold retweet, respond_tweet, _call_twikit_success, _call_twikit_post,
    logger_error.
  logs_auto P.
  all: intros kwargs Hev; discriminate Hev.
Qed.

Lemma for_each_interact_logs E pending_tweets interactions new_ids :
  tracks (logs any_event)
    (for_each interactions (interact_one E pending_tweets) new_ids).
Proof.
  apply (tracks_for_each_in (logs any_event));
    [apply logs_refl | apply logs_trans|].
  intros x s _.
  eapply logs_weaken; [|apply (interact_one_on_pending E pending_tweets)].
  intros ev _. exact I.
Qed.

(** A loop that returns has made the follow call of each of its follow
    decisions on a pending tweet. *)
Lemma for_each_follow_logged E pending_tweets fields interactions :
  dict_get "action" fields = Some (PStr "follow") ->
  dict_has (py_str E (default PNone (dict_get "tweet_id" fields)))
    pending_tweets = true ->
  In (PDict fields) interactions ->
  forall new_ids st r st',
    for_each interactions (interact_one E pending_tweets) new_ids st
    = (Ok r, st') ->
    In (EvTwikit "follow_user"
          [("user_id", default PNone (dict_get "tweet_id" fields))])
      (trace st').
Proof.
  intros Ha Hp. induction interactions as [|x l IH]; intros Hin; [destruct Hin|].
  intros new_ids st r st' Hrun. cbn [for_each] in Hrun.
  apply bind_inv in Hrun as [(ids1 & st1 & H1 & Hrest)|(e & _ & ?)];
    [|discriminate].
  destruct Hin as [->|Hin].
  - rewrite (interact_one_follow E pending_tweets fields new_ids st Ha Hp) in H1.
    pose proof (for_each_interact_logs E pending_tweets l ids1 st1)
      as (evs & Ht & _).
    rewrite Hrest in Ht. cbn [snd] in Ht. rewrite Ht.
    inversion H1; subst ids1 st1. cbn [trace].
    apply in_or_app. left. apply in_or_app. right. now left.
  - eapply IH; eauto.
Qed.

(** C10.  Every call of [follow_user] that the engagement pass makes has
    one argument, [user_id], and its value is the [tweet_id] of a decision
    with the action [follow] that the model's decoded answer holds, the id
    of a pending tweet: never the [user_name] the pending map holds for
    that tweet.  And the pass makes that call: when the model answers with
    a list of decisions and the pass returns, the log holds, for each
    follow decision on a pending tweet, the call of [follow_user] with that
    decision's tweet id as [user_id]. *)
Theorem follow_call_of_the_pass (E : Env)
  (pending_tweets : list (string * pending_tweet)) (st : state) :
  (exists evs,
     trace (snd (interact_twitter E pending_tweets st))
     = (trace st ++ evs)%list
     /\ Forall (follow_by_tweet_id E pending_tweets) evs)
  /\ (forall response interactions fields r,
        (forall h prompt, genai E h prompt = Some response) ->
        parse_json_from_llm response = Some (PList interactions) ->
        In (PDict fields) interactions ->
        dict_get "action" fields = Some (PStr "follow") ->
        dict_has (py_str E (default PNone (dict_get "tweet_id" fields)))
          pending_tweets = true ->
        fst (interact_twitter E pending_tweets st) = Ok r ->
        In (EvTwikit "follow_user"
              [("user_id", default PNone (dict_get "tweet_id" fields))])
          (trace (snd (interact_twitter E pending_tweets st)))).
Proof.
  split.
  - set (P := follow_by_tweet_id E pending_tweets).
    enough (H : tracks (logs P) (interact_twitter E pending_tweets))
      by exact (H st).
    assert (Hq : forall A (m : M A),
               tracks (logs quiet) m -> tracks (logs P) m).
    { intros A m. apply logs_weaken. apply quiet_follow_by_tweet_id. }
    unfold interact_twitter.
    apply (tracks_bind _ (logs_trans P));
      [apply Hq, get_tweets_from_db_quiet | intros tweets].
    apply (tracks_bind _ (logs_trans P)); [logs_auto P | intros previous].
    eapply (tracks_bind_yields _ (logs_trans P));
      [|apply call_genai_answer|].
    { apply Hq. unfold _call_genai. logs_auto quiet. reflexivity. }
    intros llm_response [h Hh]. destruct llm_response as [llm_response|].
    2:{ apply Hq. unfold logger_error. logs_auto quiet. reflexivity. }
    destruct (parse_json_from_llm llm_response) as [json_response|] eqn:Hj;
      [|logs_auto P].
    destruct (negb _); [logs_auto P|].
    apply (tracks_bind_yields _ (logs_trans P)) with
      (Q := fun interactions => py_iter json_response = Ok interactions);
      [logs_auto P | apply yields_lift; auto | intros interactions Hit].
    apply (tracks_bind _ (logs_trans P)); [|intros; logs_auto P].
    apply (tracks_for_each_in (logs P)); [apply logs_refl | apply logs_trans|].
    intros x s Hx. apply interact_one_follow_by_tweet_id.
    intros t action Ht Ha Hf.
    exists h. do 6 eexists. repeat split; eauto.
  - intros response interactions fields r Hgen Hparse Hin Ha Hp Hr.
    destruct (interact_twitter E pending_tweets st) as [res st'] eqn:Hrun.
    cbn [fst snd] in *. subst res. unfold interact_twitter in Hrun.
    apply bind_inv in Hrun as [(tweets & s1 & _ & Hrun)|(e & _ & ?)];
      [|discriminate].
    apply bind_inv in Hrun as [(previous & s2 & _ & Hrun)|(e & _ & ?)];
      [|discriminate].
    apply bind_inv in Hrun as [(llm & s3 & Hg & Hrun)|(e & _ & ?)];
      [|discriminate].
    unfold _call_genai, bind, history, emit, ret in Hg. cbn in Hg.
    rewrite Hgen in Hg. inversion Hg; subst llm. clear Hg.
    rewrite Hparse in Hrun.
    destruct interactions as [|x l]; [destruct Hin|].
    cbn [py_truthy negb py_iter] in Hrun.
    apply bind_inv in Hrun as [(items & s4 & Hit & Hrun)|(e & _ & ?)];
      [|discriminate].
    inversion Hit; subst items s4.
    apply bind_inv in Hrun as [(ids & s5 & Hloop & Hrun)|(e & _ & ?)];
      [|discriminate].
    inversion Hrun; subst.
    eapply for_each_follow_logged; eauto.
Qed.

Lemma follow_call_of_the_pass_witness :
  In (EvTwikit "follow_user" [("user_id", PStr "111")])
    (trace (snd (interact_twitter follow_world gm_pending empty_state))).
Proof.
  refine (proj2 (follow_call_of_the_pass follow_world gm_pending empty_state)
            (dq ("```json" ++ nl ++ "[{'tweet_id':'111','action':'follow'}]"
                 ++ nl ++ "```"))
            [PDict [("tweet_id", PStr "111"); ("action", PStr "follow")]]
            [("tweet_id", PStr "111"); ("action", PStr "follow")]
            (Event.DONE, [PStr "111"]) _ _ _ _ _ _);
    try (vm_compute; reflexivity).
  now left.
Defined.
